(** * type-transform: a shallow embedding of [src/index.js]

    The library is a flat set of functions over JavaScript values.  Each
    function is a decision table over the runtime category of its
    arguments, followed by a call to a builtin of the platform
    ([parseInt], [JSON.stringify], [Array.prototype.concat], ...).  The
    development therefore has two layers:

    - the platform: strings, numbers, values and the builtins the source
      calls, written after ECMA-262;
    - the seven exported functions, transcribed line by line.

    Modelling choices, which every statement below depends on:

    - a string is its sequence of UTF-16 code units;
    - a finite Number is kept as the decimal [digits * 10^exponent] that
      [Number::toString] prints for it (no trailing zero in [digits]);
      reading a literal keeps all of its digits, so the rounding to
      binary64 and the overflow to Infinity of the platform are not
      modelled, and [+] on numbers is exact;
    - arrays, plain objects, functions and symbols carry the identity of
      the object they denote; an array is dense, an object is the ordered
      list of its own enumerable members, in the order the platform
      enumerates them, and inherits the conversion methods of
      [Object.prototype]: a function is data, it is never called, so an
      object that overrides [toString], [valueOf] or [toJSON] is outside the
      model; no function of the library mutates an object, so a value is
      the tree reachable from it. *)

From Stdlib Require Import Ascii String.
From Stdlib Require Import List NArith ZArith Bool Lia.
Import ListNotations.

(* ------------------------------------------------------------------ *)
(** ** Strings *)

Abbreviation code_unit := N (only parsing).
Abbreviation jsstring := (list N).

(** A literal of the source text. *)
Definition js (s : string) : jsstring :=
  map N_of_ascii (list_ascii_of_string s).

Definition jsstring_eqb (s t : jsstring) : bool :=
  if list_eq_dec N.eq_dec s t then true else false.

Fixpoint starts_with (p s : jsstring) : bool :=
  match p, s with
  | [], _ => true
  | c :: p', d :: s' => (c =? d)%N && starts_with p' s'
  | _ :: _, [] => false
  end.

(** [String.prototype.includes]. *)
Fixpoint includes (s sub : jsstring) : bool :=
  starts_with sub s
  || match s with
     | [] => false
     | _ :: s' => includes s' sub
     end.

(** [StrWhiteSpaceChar]: WhiteSpace and LineTerminator. *)
Definition is_white_space (c : code_unit) : bool :=
  ((9 <=? c) && (c <=? 13) || (c =? 32) || (c =? 160) || (c =? 5760)
   || (8192 <=? c) && (c <=? 8202) || (c =? 8232) || (c =? 8233)
   || (c =? 8239) || (c =? 8287) || (c =? 12288) || (c =? 65279))%N.

Fixpoint trim_start (s : jsstring) : jsstring :=
  match s with
  | c :: s' => if is_white_space c then trim_start s' else s
  | [] => []
  end.

Definition trim_end (s : jsstring) : jsstring := rev (trim_start (rev s)).
Definition trim (s : jsstring) : jsstring := trim_end (trim_start s).

Definition is_digit (c : code_unit) : bool := ((48 <=? c) && (c <=? 57))%N.

(** The longest prefix whose code units satisfy [p], and what follows. *)
Fixpoint span (p : code_unit -> bool) (s : jsstring) : jsstring * jsstring :=
  match s with
  | c :: s' =>
      if p c then let (a, b) := span p s' in (c :: a, b) else ([], s)
  | [] => ([], [])
  end.

(** The text after its first code unit, provided that one is [c]. *)
Definition strip_char (c : code_unit) (s : jsstring) : option jsstring :=
  match s with
  | d :: r => if (d =? c)%N then Some r else None
  | [] => None
  end.

Arguments strip_char c%_N s.

(** An optional sign: whether it is a minus, and the text after it. *)
Definition strip_sign (s : jsstring) : bool * jsstring :=
  match strip_char 45%N s with
  | Some r => (true, r)
  | None =>
      match strip_char 43%N s with
      | Some r => (false, r)
      | None => (false, s)
      end
  end.

(** Digits in a radix up to 36: [0-9], then [a-z] or [A-Z]. *)
Definition digit_in_radix (c : code_unit) : option N :=
  (if (48 <=? c) && (c <=? 57) then Some (c - 48)
   else if (97 <=? c) && (c <=? 122) then Some (c - 87)
   else if (65 <=? c) && (c <=? 90) then Some (c - 55)
   else None)%N.

Definition is_radix_digit (radix : N) (c : code_unit) : bool :=
  match digit_in_radix c with
  | Some d => (d <? radix)%N
  | None => false
  end.

Definition radix_value (radix : N) (ds : jsstring) : N :=
  fold_left
    (fun acc c => acc * radix + match digit_in_radix c with
                                | Some d => d
                                | None => 0
                                end)%N ds 0%N.

Definition digits_value (ds : jsstring) : N := radix_value 10 ds.

Fixpoint digits_aux (fuel : nat) (n : N) (acc : jsstring) : jsstring :=
  match fuel with
  | O => acc
  | S f =>
      if (n <? 10)%N then (48 + n)%N :: acc
      else digits_aux f (n / 10)%N ((48 + n mod 10)%N :: acc)
  end.

(** The decimal numeral of a natural number, most significant digit first. *)
Definition decimal_digits (n : N) : jsstring :=
  digits_aux (S (N.to_nat (N.log2 n))) n [].

(* ------------------------------------------------------------------ *)
(** ** Numbers *)

Inductive number :=
| NaN
| Infinity (negative : bool)
| Finite (negative : bool) (digits : N) (exponent : Z).

Fixpoint strip_zeros (fuel : nat) (m : N) (e : Z) : N * Z :=
  match fuel with
  | O => (m, e)
  | S f =>
      if (m mod 10 =? 0)%N then strip_zeros f (m / 10)%N (e + 1)%Z
      else (m, e)
  end.

(** The number [(-1)^negative * m * 10^e], in the form the model keeps. *)
Definition finite (negative : bool) (m : N) (e : Z) : number :=
  if (m =? 0)%N then Finite negative 0 0
  else let (m', e') := strip_zeros (N.to_nat (N.size m)) m e in
       Finite negative m' e'.

Definition pos_zero : number := Finite false 0 0.
Definition neg_zero : number := Finite true 0 0.

Definition number_eqb (x y : number) : bool :=
  match x, y with
  | NaN, NaN => true
  | Infinity a, Infinity b => Bool.eqb a b
  | Finite a m e, Finite b m' e' => Bool.eqb a b && (m =? m')%N && (e =? e')%Z
  | _, _ => false
  end.

(** The global [isNaN], on an argument that is already a Number. *)
Definition isNaN (x : number) : bool :=
  match x with
  | NaN => true
  | _ => false
  end.

Definition is_zero (x : number) : bool :=
  match x with
  | Finite _ 0 _ => true
  | _ => false
  end.

Definition zeros (n : nat) : jsstring := repeat 48%N n.

Definition sign_prefix (negative : bool) (s : jsstring) : jsstring :=
  if negative then 45%N :: s else s.

(** The numeral of [m * 10^e] for [m] positive.  With [k] digits and
    [n = e + k] the four layouts of [Number::toString] are, in its order:
    an integer padded with zeros, a numeral with the point inside, a
    numeral starting with [0.], and the exponent notation. *)
Definition decimal_text (m : N) (e : Z) : jsstring :=
  let ds := decimal_digits m in
  let k := Z.of_nat (length ds) in
  let n := (e + k)%Z in
  if (k <=? n)%Z && (n <=? 21)%Z then ds ++ zeros (Z.to_nat (n - k))
  else if (0 <? n)%Z && (n <=? 21)%Z then
    firstn (Z.to_nat n) ds ++ 46%N :: skipn (Z.to_nat n) ds
  else if (-6 <? n)%Z && (n <=? 0)%Z then
    48%N :: 46%N :: zeros (Z.to_nat (- n)) ++ ds
  else
    let ex := (n - 1)%Z in
    let tail :=
      101%N :: (if (0 <=? ex)%Z then 43%N else 45%N)
            :: decimal_digits (Z.abs_N ex) in
    match ds with
    | [] => tail
    | d :: rest =>
        d :: match rest with
             | [] => tail
             | _ => 46%N :: rest ++ tail
             end
    end.

(** [Number::toString] in radix 10. *)
Definition Number_toString (x : number) : jsstring :=
  match x with
  | NaN => js "NaN"
  | Infinity negative => sign_prefix negative (js "Infinity")
  | Finite negative m e =>
      if (m =? 0)%N then js "0"
      else sign_prefix negative (decimal_text m e)
  end.

Definition signed (negative : bool) (n : N) : Z :=
  (if negative then - Z.of_N n else Z.of_N n)%Z.

(** [ExponentPart], when one is there: [e] or [E], an optional sign and at
    least one digit.  Anything else leaves the text untouched. *)
Definition scan_exponent (s : jsstring) : Z * jsstring :=
  match s with
  | c :: r =>
      if (c =? 101)%N || (c =? 69)%N then
        let (negative, r1) := strip_sign r in
        let (ds, r2) := span is_digit r1 in
        match ds with
        | [] => (0%Z, s)
        | _ => (signed negative (digits_value ds), r2)
        end
      else (0%Z, s)
  | [] => (0%Z, s)
  end.

(** The longest prefix that is a [StrUnsignedDecimalLiteral]. *)
Definition scan_unsigned (negative : bool) (s : jsstring)
  : option (number * jsstring) :=
  if starts_with (js "Infinity") s then Some (Infinity negative, skipn 8 s)
  else
    let (ip, r1) := span is_digit s in
    match strip_char 46%N r1 with
    | Some r2 =>
        let (fp, r3) := span is_digit r2 in
        match ip, fp with
        | [], [] => None
        | _, _ =>
            let (ex, r4) := scan_exponent r3 in
            Some (finite negative (digits_value (ip ++ fp))
                    (ex - Z.of_nat (length fp)), r4)
        end
    | None =>
        match ip with
        | [] => None
        | _ => let (ex, r4) := scan_exponent r1 in
               Some (finite negative (digits_value ip) ex, r4)
        end
    end.

(** The longest prefix that is a [StrDecimalLiteral]. *)
Definition scan_decimal (s : jsstring) : option (number * jsstring) :=
  let (negative, r) := strip_sign s in scan_unsigned negative r.

(** The global [parseFloat], on an argument that is already a String. *)
Definition parseFloat (s : jsstring) : number :=
  match scan_decimal (trim_start s) with
  | Some (x, _) => x
  | None => NaN
  end.

(** The global [parseInt], on a String and a radix that is already an
    integer. *)
Definition parseInt (s : jsstring) (radix : N) : number :=
  let (negative, t1) := strip_sign (trim_start s) in
  if negb (radix =? 0)%N && ((radix <? 2) || (36 <? radix))%N then NaN
  else
    let strip_prefix := (radix =? 0)%N || (radix =? 16)%N in
    let has_prefix :=
      starts_with (js "0x") t1 || starts_with (js "0X") t1 in
    let r := if (radix =? 0)%N
             then (if has_prefix then 16%N else 10%N) else radix in
    let t2 := if strip_prefix && has_prefix then skipn 2 t1 else t1 in
    let (ds, _) := span (is_radix_digit r) t2 in
    match ds with
    | [] => NaN
    | _ => finite negative (radix_value r ds) 0
    end.

(** An unsigned literal in radix 16, 8 or 2: [0x1f], [0o17], [0b101]. *)
Definition non_decimal_literal (t : jsstring) : option N :=
  match strip_char 48%N t with
  | Some (p :: ds) =>
      let radix :=
        if (p =? 120)%N || (p =? 88)%N then Some 16%N
        else if (p =? 111)%N || (p =? 79)%N then Some 8%N
        else if (p =? 98)%N || (p =? 66)%N then Some 2%N
        else None in
      match radix, ds with
      | Some r, _ :: _ =>
          if forallb (is_radix_digit r) ds
          then Some (radix_value r ds) else None
      | _, _ => None
      end
  | _ => None
  end.

(** [StringToNumber]: what [Number] makes of a String. *)
Definition StringToNumber (s : jsstring) : number :=
  let t := trim s in
  match t with
  | [] => pos_zero
  | _ =>
      match non_decimal_literal t with
      | Some n => finite false n 0
      | None =>
          match scan_decimal t with
          | Some (x, []) => x
          | _ => NaN
          end
      end
  end.


(* ------------------------------------------------------------------ *)
(** ** Values *)

(** The identity of an object, a function or a symbol. *)
Definition loc := nat.

Inductive property_key :=
| KString (name : jsstring)
| KSymbol (id : loc) (description : option jsstring).

#[warnings="-register-all"]
Inductive jsvalue :=
| VUndefined
| VNull
| VBoolean (b : bool)
| VNumber (x : number)
| VString (s : jsstring)
| VBigInt (z : Z)
| VSymbol (id : loc) (description : option jsstring)
| VFunction (id : loc) (source : jsstring)
| VArray (id : loc) (elements : list jsvalue)
| VObject (id : loc) (members : list (property_key * jsvalue)).

(** What a builtin raises.  The library itself only ever writes
    [throw new Error(message)]; the messages of the errors the platform
    raises differ between engines and are left out. *)
Inductive error_class := TypeError | SyntaxError | RangeError.

Inductive exn :=
| Error (message : jsstring)
| PlatformError (class : error_class).

Inductive completion (A : Type) :=
| Return (a : A)
| Throw (e : exn).

Arguments Return {A} a.
Arguments Throw {A} e.

Definition bind {A B : Type} (c : completion A) (k : A -> completion B)
  : completion B :=
  match c with
  | Return a => k a
  | Throw e => Throw e
  end.

Notation "x <- c ;; k" := (bind c (fun x => k))
  (at level 61, c at next level, right associativity).

(** [try { c } catch (e) { handler }]. *)
Definition try_catch {A : Type} (c : completion A) (handler : exn -> completion A)
  : completion A :=
  match c with
  | Return a => Return a
  | Throw e => handler e
  end.

Definition throws {A : Type} (c : completion A) : bool :=
  match c with
  | Return _ => false
  | Throw _ => true
  end.

(** The [typeof] operator. *)
Definition typeof (v : jsvalue) : jsstring :=
  match v with
  | VUndefined => js "undefined"
  | VNull => js "object"
  | VBoolean _ => js "boolean"
  | VNumber _ => js "number"
  | VString _ => js "string"
  | VBigInt _ => js "bigint"
  | VSymbol _ _ => js "symbol"
  | VFunction _ _ => js "function"
  | VArray _ _ => js "object"
  | VObject _ _ => js "object"
  end.

Definition Array_isArray (v : jsvalue) : bool :=
  match v with
  | VArray _ _ => true
  | _ => false
  end.

(** [===], IsStrictlyEqual: NaN differs from itself, the two zeros are
    equal, objects are compared by identity. *)
Definition strict_equals (a b : jsvalue) : bool :=
  match a, b with
  | VUndefined, VUndefined => true
  | VNull, VNull => true
  | VBoolean x, VBoolean y => Bool.eqb x y
  | VNumber x, VNumber y =>
      negb (isNaN x) && negb (isNaN y)
      && (is_zero x && is_zero y || number_eqb x y)
  | VString s, VString t => jsstring_eqb s t
  | VBigInt x, VBigInt y => (x =? y)%Z
  | VSymbol i _, VSymbol j _ => Nat.eqb i j
  | VFunction i _, VFunction j _ => Nat.eqb i j
  | VArray i _, VArray j _ => Nat.eqb i j
  | VObject i _, VObject j _ => Nat.eqb i j
  | _, _ => false
  end.

Definition BigInt_toString (z : Z) : jsstring :=
  sign_prefix (z <? 0)%Z (decimal_digits (Z.abs_N z)).

(** [ToString].  An array answers with [join(",")], where undefined and
    null elements are empty; a plain object with ["[object Object]"]; a
    function with its source text; a symbol cannot be converted. *)
Fixpoint ToString (v : jsvalue) : completion jsstring :=
  match v with
  | VUndefined => Return (js "undefined")
  | VNull => Return (js "null")
  | VBoolean b => Return (if b then js "true" else js "false")
  | VNumber x => Return (Number_toString x)
  | VString s => Return s
  | VBigInt z => Return (BigInt_toString z)
  | VSymbol _ _ => Throw (PlatformError TypeError)
  | VFunction _ source => Return source
  | VArray _ elements =>
      (fix join (first : bool) (l : list jsvalue) : completion jsstring :=
         match l with
         | [] => Return []
         | e :: l' =>
             s <- match e with
                  | VUndefined | VNull => Return []
                  | _ => ToString e
                  end ;;
             rest <- join false l' ;;
             Return ((if first then [] else [44%N]) ++ s ++ rest)
         end) true elements
  | VObject _ _ => Return (js "[object Object]")
  end.

(** [String(value)]: as [ToString], except that a symbol is described. *)
Definition js_String (v : jsvalue) : completion jsstring :=
  match v with
  | VSymbol _ description =>
      Return (js "Symbol("
              ++ match description with Some d => d | None => [] end
              ++ js ")")
  | _ => ToString v
  end.

(** [ToPrimitive]: the conversion methods an object of the model inherits
    end in [toString]. *)
Definition ToPrimitive (v : jsvalue) : completion jsvalue :=
  match v with
  | VFunction _ _ | VArray _ _ | VObject _ _ =>
      s <- ToString v ;; Return (VString s)
  | _ => Return v
  end.

Definition one : number := Finite false 1 0.
Definition two : number := Finite false 2 0.
Definition three : number := Finite false 3 0.

Definition number_of_Z (z : Z) : number := finite (z <? 0)%Z (Z.abs_N z) 0.

Definition primitive_to_number (p : jsvalue) : completion number :=
  match p with
  | VUndefined => Return NaN
  | VNull => Return pos_zero
  | VBoolean b => Return (if b then one else pos_zero)
  | VNumber x => Return x
  | VString s => Return (StringToNumber s)
  | _ => Throw (PlatformError TypeError)
  end.

Definition ToNumber (v : jsvalue) : completion number :=
  p <- ToPrimitive v ;; primitive_to_number p.

(** [Number(value)]: as [ToNumber], except that a BigInt is converted. *)
Definition js_Number (v : jsvalue) : completion number :=
  p <- ToPrimitive v ;;
  match p with
  | VBigInt z => Return (number_of_Z z)
  | _ => primitive_to_number p
  end.

(** [Boolean(value)], ToBoolean. *)
Definition js_Boolean (v : jsvalue) : bool :=
  match v with
  | VUndefined | VNull => false
  | VBoolean b => b
  | VNumber x => negb (isNaN x || is_zero x)
  | VString s => match s with [] => false | _ => true end
  | VBigInt z => negb (z =? 0)%Z
  | _ => true
  end.

(** The integer a Number denotes, when it denotes one. *)
Definition integral_value (x : number) : option Z :=
  match x with
  | Finite negative m e =>
      if (0 <=? e)%Z then Some (signed negative (m * 10 ^ Z.to_N e))
      else let d := (10 ^ Z.to_N (- e))%N in
           if (m mod d =? 0)%N then Some (signed negative (m / d)) else None
  | _ => None
  end.

(** [StringToBigInt]: blank text is zero; otherwise a signed decimal
    integer or an unsigned literal in radix 16, 8 or 2. *)
Definition StringToBigInt (s : jsstring) : option Z :=
  let t := trim s in
  match t with
  | [] => Some 0%Z
  | _ =>
      match non_decimal_literal t with
      | Some n => Some (Z.of_N n)
      | None =>
          let (negative, ds) := strip_sign t in
          match ds with
          | [] => None
          | _ =>
              if forallb is_digit ds
              then Some (signed negative (digits_value ds))
              else None
          end
      end
  end.

(** [BigInt(value)]. *)
Definition js_BigInt (v : jsvalue) : completion Z :=
  p <- ToPrimitive v ;;
  match p with
  | VNumber x =>
      match integral_value x with
      | Some z => Return z
      | None => Throw (PlatformError RangeError)
      end
  | VBoolean b => Return (if b then 1 else 0)%Z
  | VBigInt z => Return z
  | VString s =>
      match StringToBigInt s with
      | Some z => Return z
      | None => Throw (PlatformError SyntaxError)
      end
  | _ => Throw (PlatformError TypeError)
  end.

(** [Number::add], without the rounding. *)
Definition number_add (x y : number) : number :=
  match x, y with
  | NaN, _ | _, NaN => NaN
  | Infinity a, Infinity b => if Bool.eqb a b then Infinity a else NaN
  | Infinity a, _ => Infinity a
  | _, Infinity b => Infinity b
  | Finite a m e, Finite b m' e' =>
      let e0 := Z.min e e' in
      let z := (signed a (m * 10 ^ Z.to_N (e - e0))
                + signed b (m' * 10 ^ Z.to_N (e' - e0)))%Z in
      if (z =? 0)%Z then (if a && b then neg_zero else pos_zero)
      else finite (z <? 0)%Z (Z.abs_N z) e0
  end.

(** The [+] operator: if either operand is a String once made primitive,
    concatenation; otherwise the sum of two Numbers or of two BigInts (a
    BigInt and a Number do not mix, and a symbol is not a number). *)
Definition js_add (a b : jsvalue) : completion jsvalue :=
  pa <- ToPrimitive a ;;
  pb <- ToPrimitive b ;;
  match pa, pb with
  | VString _, _ | _, VString _ =>
      sa <- ToString pa ;;
      sb <- ToString pb ;;
      Return (VString (sa ++ sb))
  | VBigInt x, VBigInt y => Return (VBigInt (x + y))
  | VBigInt _, _ | _, VBigInt _ => Throw (PlatformError TypeError)
  | _, _ =>
      x <- ToNumber pa ;;
      y <- ToNumber pb ;;
      Return (VNumber (number_add x y))
  end.

(** The language type of the value is Object. *)
Definition is_object (v : jsvalue) : bool :=
  match v with
  | VFunction _ _ | VArray _ _ | VObject _ _ => true
  | _ => false
  end.

(** [==], IsLooselyEqual, between operands that need no further
    conversion.  Null and undefined are equal to each other; a String is
    read as a Number next to a Number and as a BigInt next to a BigInt; a
    BigInt and a Number are equal when they denote the same integer; two
    operands of one type are compared as [===] compares them, which is
    false between the types that are left. *)
Definition loose_equals_primitives (x y : jsvalue) : bool :=
  match x, y with
  | VNull, VUndefined | VUndefined, VNull => true
  | VNumber _, VString s => strict_equals x (VNumber (StringToNumber s))
  | VString s, VNumber _ => strict_equals (VNumber (StringToNumber s)) y
  | VBigInt z, VString s | VString s, VBigInt z =>
      match StringToBigInt s with
      | Some n => (z =? n)%Z
      | None => false
      end
  | VBigInt z, VNumber n | VNumber n, VBigInt z =>
      match integral_value n with
      | Some i => (z =? i)%Z
      | None => false
      end
  | _, _ => strict_equals x y
  end.

(** A Boolean operand of [==] is compared as the Number it converts to. *)
Definition loose_operand (v : jsvalue) : jsvalue :=
  match v with
  | VBoolean b => VNumber (if b then one else pos_zero)
  | _ => v
  end.

(** The operands next to which [==] makes an object primitive: a String, a
    Number, a BigInt or a Symbol. *)
Definition converts_object (v : jsvalue) : bool :=
  match v with
  | VString _ | VNumber _ | VBigInt _ | VSymbol _ _ => true
  | _ => false
  end.

(** The [==] operator.  Two objects are compared by identity, and an
    object is never equal to null or undefined, both without any
    conversion. *)
Definition loose_equals (x y : jsvalue) : completion bool :=
  let x := loose_operand x in
  let y := loose_operand y in
  if converts_object x && is_object y then
    py <- ToPrimitive y ;; Return (loose_equals_primitives x py)
  else if is_object x && converts_object y then
    px <- ToPrimitive x ;; Return (loose_equals_primitives px y)
  else Return (loose_equals_primitives x y).

(* ------------------------------------------------------------------ *)
(** ** JSON.stringify *)

Definition hex_digit (n : N) : code_unit :=
  (if n <? 10 then 48 + n else 87 + n)%N.

(** [UnicodeEscape]: a backslash, [u] and four lowercase hexadecimal
    digits. *)
Definition UnicodeEscape (c : code_unit) : jsstring :=
  [92; 117; hex_digit (c / 4096); hex_digit ((c / 256) mod 16);
   hex_digit ((c / 16) mod 16); hex_digit (c mod 16)]%N.

Definition is_leading_surrogate (c : code_unit) : bool :=
  ((55296 <=? c) && (c <=? 56319))%N.

Definition is_trailing_surrogate (c : code_unit) : bool :=
  ((56320 <=? c) && (c <=? 57343))%N.

(** One code unit that is not half of a surrogate pair. *)
Definition quote_unit (c : code_unit) : jsstring :=
  (if c =? 8 then [92; 98]
   else if c =? 9 then [92; 116]
   else if c =? 10 then [92; 110]
   else if c =? 12 then [92; 102]
   else if c =? 13 then [92; 114]
   else if c =? 34 then [92; 34]
   else if c =? 92 then [92; 92]
   else if (c <? 32) || is_leading_surrogate c || is_trailing_surrogate c
        then UnicodeEscape c
   else [c])%N.

Fixpoint quote_units (s : jsstring) : jsstring :=
  match s with
  | [] => []
  | c :: r =>
      match r with
      | d :: r' =>
          if is_leading_surrogate c && is_trailing_surrogate d
          then c :: d :: quote_units r'
          else quote_unit c ++ quote_units r
      | [] => quote_unit c
      end
  end.

(** [QuoteJSONString]. *)
Definition QuoteJSONString (s : jsstring) : jsstring :=
  34%N :: quote_units s ++ [34%N].

Fixpoint join_comma (parts : list jsstring) : jsstring :=
  match parts with
  | [] => []
  | [p] => p
  | p :: rest => p ++ 44%N :: join_comma rest
  end.

(** The elements of an array, serialized in order: one without
    representation is written [null]. *)
Fixpoint serialize_elements
  (serialize : jsvalue -> completion (option jsstring)) (l : list jsvalue)
  : completion (list jsstring) :=
  match l with
  | [] => Return []
  | e :: l' =>
      s <- serialize e ;;
      rest <- serialize_elements serialize l' ;;
      Return (match s with
              | Some t => t
              | None => js "null"
              end :: rest)
  end.

(** The members of an object, serialized in order: one with a symbol for
    key is skipped, one without representation is left out. *)
Fixpoint serialize_members
  (serialize : jsvalue -> completion (option jsstring))
  (l : list (property_key * jsvalue)) : completion (list jsstring) :=
  match l with
  | [] => Return []
  | (KString name, e) :: l' =>
      s <- serialize e ;;
      rest <- serialize_members serialize l' ;;
      Return (match s with
              | Some t => (QuoteJSONString name ++ 58%N :: t) :: rest
              | None => rest
              end)
  | (KSymbol _ _, _) :: l' => serialize_members serialize l'
  end.

(** [SerializeJSONProperty] with no replacer and no indentation; [None] is
    the "no representation" answer.  The step that calls the [toJSON]
    method of an object is absent: the objects of the model have none. *)
Fixpoint SerializeJSONProperty (v : jsvalue) : completion (option jsstring) :=
  match v with
  | VNull => Return (Some (js "null"))
  | VBoolean b => Return (Some (if b then js "true" else js "false"))
  | VString s => Return (Some (QuoteJSONString s))
  | VNumber x =>
      Return (Some match x with
                   | Finite _ _ _ => Number_toString x
                   | _ => js "null"
                   end)
  | VBigInt _ => Throw (PlatformError TypeError)
  | VArray _ elements =>
      partial <- serialize_elements SerializeJSONProperty elements ;;
      Return (Some (91%N :: join_comma partial ++ [93%N]))
  | VObject _ members =>
      partial <- serialize_members SerializeJSONProperty members ;;
      Return (Some (123%N :: join_comma partial ++ [125%N]))
  | VUndefined | VSymbol _ _ | VFunction _ _ => Return None
  end.

(** [JSON.stringify(value)]: a String, or undefined when the value has no
    representation. *)
Definition JSON_stringify (v : jsvalue) : completion jsvalue :=
  r <- SerializeJSONProperty v ;;
  Return match r with
         | Some text => VString text
         | None => VUndefined
         end.

(* ------------------------------------------------------------------ *)
(** ** JSON.parse *)

(** The parse tree of a JSON text. *)
#[warnings="-register-all"]
Inductive json :=
| JNull
| JBool (b : bool)
| JNumber (x : number)
| JString (s : jsstring)
| JArray (elements : list json)
| JObject (members : list (jsstring * json)).

Definition is_json_white_space (c : code_unit) : bool :=
  ((c =? 9) || (c =? 10) || (c =? 13) || (c =? 32))%N.

Fixpoint skip_white_space (s : jsstring) : jsstring :=
  match s with
  | c :: s' => if is_json_white_space c then skip_white_space s' else s
  | [] => []
  end.

Definition hex_value (c : code_unit) : option N :=
  match digit_in_radix c with
  | Some d => if (d <? 16)%N then Some d else None
  | None => None
  end.

Definition hex4 (a b c d : code_unit) : option code_unit :=
  match hex_value a, hex_value b, hex_value c, hex_value d with
  | Some x, Some y, Some z, Some w => Some (((x * 16 + y) * 16 + z) * 16 + w)%N
  | _, _, _, _ => None
  end.

Definition simple_escape (e : code_unit) : option code_unit :=
  (if e =? 34 then Some 34
   else if e =? 47 then Some 47
   else if e =? 92 then Some 92
   else if e =? 98 then Some 8
   else if e =? 102 then Some 12
   else if e =? 110 then Some 10
   else if e =? 114 then Some 13
   else if e =? 116 then Some 9
   else None)%N.

Definition prepend {A B : Type} (a : A) (r : option (list A * B))
  : option (list A * B) :=
  match r with
  | Some (l, b) => Some (a :: l, b)
  | None => None
  end.

(** The characters of a JSON string, after its opening quote. *)
Fixpoint parse_string_body (s : jsstring) : option (jsstring * jsstring) :=
  match s with
  | [] => None
  | c :: r =>
      if (c =? 34)%N then Some ([], r)
      else if (c =? 92)%N then
        match r with
        | e :: r1 =>
            if (e =? 117)%N then
              match r1 with
              | a :: b :: c' :: d :: r2 =>
                  match hex4 a b c' d with
                  | Some u => prepend u (parse_string_body r2)
                  | None => None
                  end
              | _ => None
              end
            else
              match simple_escape e with
              | Some u => prepend u (parse_string_body r1)
              | None => None
              end
        | [] => None
        end
      else if (c <? 32)%N then None
      else prepend c (parse_string_body r)
  end.

(** A JSON number: an optional minus; [0], or digits that do not start
    with [0]; optionally a point and digits; optionally [e] or [E], a sign
    and digits. *)
Definition parse_json_fraction (s : jsstring) : option (jsstring * jsstring) :=
  match strip_char 46 s with
  | Some r =>
      let (fp, r') := span is_digit r in
      match fp with
      | [] => None
      | _ => Some (fp, r')
      end
  | None => Some ([], s)
  end.

Definition parse_json_exponent (s : jsstring) : option (Z * jsstring) :=
  match s with
  | c :: r =>
      if (c =? 101)%N || (c =? 69)%N then
        let (negative, r1) := strip_sign r in
        let (ds, r2) := span is_digit r1 in
        match ds with
        | [] => None
        | _ => Some (signed negative (digits_value ds), r2)
        end
      else Some (0%Z, s)
  | [] => Some (0%Z, s)
  end.

Definition parse_json_unsigned (negative : bool) (s : jsstring)
  : option (number * jsstring) :=
  let (ip, r1) := span is_digit s in
  match ip with
  | [] => None
  | d :: ip' =>
      if (d =? 48)%N && negb (match ip' with [] => true | _ => false end)
      then None
      else
        match parse_json_fraction r1 with
        | None => None
        | Some (fp, r2) =>
            match parse_json_exponent r2 with
            | None => None
            | Some (ex, r3) =>
                Some (finite negative (digits_value (ip ++ fp))
                        (ex - Z.of_nat (length fp)), r3)
            end
        end
  end.

Definition parse_json_number (s : jsstring) : option (number * jsstring) :=
  match strip_char 45 s with
  | Some r => parse_json_unsigned true r
  | None => parse_json_unsigned false s
  end.

(** Recursive descent over the JSON grammar.  The fuel bounds the number
    of calls; [JSON_parse] below gives enough of it for any text. *)
Fixpoint parse_value (fuel : nat) (s : jsstring) : option (json * jsstring) :=
  match fuel with
  | O => None
  | S f =>
      let t := skip_white_space s in
      match t with
      | [] => None
      | c :: r =>
          if starts_with (js "null") t then Some (JNull, skipn 4 t)
          else if starts_with (js "true") t then Some (JBool true, skipn 4 t)
          else if starts_with (js "false") t
               then Some (JBool false, skipn 5 t)
          else if (c =? 34)%N then
            match parse_string_body r with
            | Some (text, r') => Some (JString text, r')
            | None => None
            end
          else if (c =? 91)%N then
            match strip_char 93%N (skip_white_space r) with
            | Some r' => Some (JArray [], r')
            | None =>
                match parse_elements f r with
                | Some (l, r') => Some (JArray l, r')
                | None => None
                end
            end
          else if (c =? 123)%N then
            match strip_char 125%N (skip_white_space r) with
            | Some r' => Some (JObject [], r')
            | None =>
                match parse_members f r with
                | Some (l, r') => Some (JObject l, r')
                | None => None
                end
            end
          else
            match parse_json_number t with
            | Some (x, r') => Some (JNumber x, r')
            | None => None
            end
      end
  end

with parse_elements (fuel : nat) (s : jsstring)
  : option (list json * jsstring) :=
  match fuel with
  | O => None
  | S f =>
      match parse_value f s with
      | Some (j, r) =>
          match strip_char 44%N (skip_white_space r) with
          | Some r' => prepend j (parse_elements f r')
          | None =>
              match strip_char 93%N (skip_white_space r) with
              | Some r' => Some ([j], r')
              | None => None
              end
          end
      | None => None
      end
  end

with parse_members (fuel : nat) (s : jsstring)
  : option (list (jsstring * json) * jsstring) :=
  match fuel with
  | O => None
  | S f =>
      match strip_char 34%N (skip_white_space s) with
      | Some r =>
          match parse_string_body r with
          | Some (name, r1) =>
              match strip_char 58%N (skip_white_space r1) with
              | Some r2 =>
                  match parse_value f r2 with
                  | Some (j, r3) =>
                      match strip_char 44%N (skip_white_space r3) with
                      | Some r' => prepend (name, j) (parse_members f r')
                      | None =>
                          match strip_char 125%N (skip_white_space r3) with
                          | Some r' => Some ([(name, j)], r')
                          | None => None
                          end
                      end
                  | None => None
                  end
              | None => None
              end
          | None => None
          end
      | None => None
      end
  end.

(** A JSON text is one value, with white space around it and nothing
    else. *)
Definition parse_json_text (s : jsstring) : option json :=
  match parse_value (2 * length s + 2) s with
  | Some (j, r) =>
      match skip_white_space r with
      | [] => Some j
      | _ => None
      end
  | None => None
  end.

(** An array index: the canonical numeral of an integer below 2^32 - 1. *)
Definition array_index (k : jsstring) : option N :=
  let n := digits_value k in
  if forallb is_digit k && jsstring_eqb (decimal_digits n) k
     && (n <? 4294967295)%N
  then Some n else None.

(** The order in which an object lists its own keys: array indices by
    value, then the other strings and then the symbols, both as they were
    created.  [goes_before k k'] says that the new key [k] is listed
    before the existing key [k']. *)
Definition goes_before (k : jsstring) (k' : property_key) : bool :=
  match k' with
  | KSymbol _ _ => true
  | KString s' =>
      match array_index k, array_index s' with
      | Some i, Some i' => (i <? i')%N
      | Some _, None => true
      | None, _ => false
      end
  end.

Definition is_key (k : jsstring) (k' : property_key) : bool :=
  match k' with
  | KString s' => jsstring_eqb k s'
  | KSymbol _ _ => false
  end.

Fixpoint insert_member (k : jsstring) (v : jsvalue)
  (members : list (property_key * jsvalue)) : list (property_key * jsvalue) :=
  match members with
  | [] => [(KString k, v)]
  | (k', v') :: rest =>
      if goes_before k k' then (KString k, v) :: members
      else (k', v') :: insert_member k v rest
  end.

(** [CreateDataProperty] on the members of an ordinary object: an existing
    member keeps its place and takes the new value. *)
Definition define_property (members : list (property_key * jsvalue))
  (k : jsstring) (v : jsvalue) : list (property_key * jsvalue) :=
  if existsb (fun m => is_key k (fst m)) members
  then map (fun m => if is_key k (fst m) then (fst m, v) else m) members
  else insert_member k v members.

Fixpoint build_elements (build : loc -> json -> jsvalue * loc)
  (n : loc) (l : list json) : list jsvalue * loc :=
  match l with
  | [] => ([], n)
  | e :: l' =>
      let (v, n1) := build n e in
      let (vs, n2) := build_elements build n1 l' in
      (v :: vs, n2)
  end.

Fixpoint build_members (build : loc -> json -> jsvalue * loc)
  (n : loc) (acc : list (property_key * jsvalue))
  (l : list (jsstring * json)) : list (property_key * jsvalue) * loc :=
  match l with
  | [] => (acc, n)
  | (k, e) :: l' =>
      let (v, n1) := build n e in
      build_members build n1 (define_property acc k v) l'
  end.

(** The value a parse tree denotes.  Every array and object in it is a new
    one: identities are given out from [fresh] on, and the second component
    is the next unused one.  The members of an object are defined one after
    the other, in the order of the text. *)
Fixpoint build (fresh : loc) (j : json) : jsvalue * loc :=
  match j with
  | JNull => (VNull, fresh)
  | JBool b => (VBoolean b, fresh)
  | JNumber x => (VNumber x, fresh)
  | JString s => (VString s, fresh)
  | JArray elements =>
      let (vs, next) := build_elements build (S fresh) elements in
      (VArray fresh vs, next)
  | JObject members =>
      let (ms, next) := build_members build (S fresh) [] members in
      (VObject fresh ms, next)
  end.

(** [JSON.parse(text)] with no reviver. *)
Definition JSON_parse (fresh : loc) (text : jsvalue) : completion jsvalue :=
  s <- ToString text ;;
  match parse_json_text s with
  | Some j => Return (fst (build fresh j))
  | None => Throw (PlatformError SyntaxError)
  end.

(* ------------------------------------------------------------------ *)
(** ** Builtins applied to values *)

(** [a.concat(b)]: a new array, whose identity is the next one the
    platform gives out; an argument that is an array is spread. *)
Definition Array_concat (fresh : loc) (a b : jsvalue) : completion jsvalue :=
  match a with
  | VArray _ xs =>
      Return (VArray fresh (xs ++ match b with
                                  | VArray _ ys => ys
                                  | _ => [b]
                                  end))
  | _ => Throw (PlatformError TypeError)
  end.

(** [list.includes(s)] on an array of strings. *)
Definition Array_includes (list : list jsstring) (s : jsstring) : bool :=
  existsb (jsstring_eqb s) list.

(** [value.includes(sub)], the method of a String. *)
Definition String_includes (v : jsvalue) (sub : jsstring) : completion bool :=
  match v with
  | VString s => Return (includes s sub)
  | _ => Throw (PlatformError TypeError)
  end.

Definition js_parseFloat (v : jsvalue) : completion number :=
  s <- ToString v ;; Return (parseFloat s).

Definition js_parseInt (v : jsvalue) (radix : N) : completion number :=
  s <- ToString v ;; Return (parseInt s radix).

(** A string literal compared with [===]. *)
Definition is_string (s : jsstring) (literal : string) : bool :=
  jsstring_eqb s (js literal).

(** [switch (discriminant) { case "literal": ... }] selects with [===]. *)
Definition switch_case (discriminant : jsvalue) (literal : string) : bool :=
  strict_equals discriminant (VString (js literal)).

Definition quoted (s : jsstring) : jsstring := 34%N :: s ++ [34%N].

(* ------------------------------------------------------------------ *)
(** ** The library, [src/index.js] *)

Definition addValues (fresh : loc) (a b : jsvalue) : completion jsvalue :=
  let typeA := typeof a in
  let typeB := typeof b in
  if Array_isArray a && Array_isArray b then Array_concat fresh a b
  else if (is_string typeA "object" && negb (strict_equals a VNull)
           && negb (Array_isArray a))
          || (is_string typeB "object" && negb (strict_equals b VNull)
              && negb (Array_isArray b))
  then Throw (Error (js "Cannot add values of type " ++ quoted typeA
                     ++ js " and " ++ quoted typeB ++ js "."))
  else if strict_equals a VUndefined || strict_equals b VUndefined
  then Throw (Error (js "Cannot add undefined values."))
  else js_add a b.

Definition stringifyValue (val : jsvalue) : completion jsvalue :=
  let primitives :=
    [js "string"; js "number"; js "boolean"; js "bigint"; js "symbol";
     js "undefined"; js "null"] in
  if Array_includes primitives (typeof val)
  then s <- js_String val ;; Return (VString s)
  else JSON_stringify val.

Definition invertBoolean (val : jsvalue) : completion jsvalue :=
  if negb (is_string (typeof val) "boolean")
  then Throw (Error (js "Argument is not a boolean."))
  else Return (VBoolean (negb (js_Boolean val))).

Definition convertToNumber (value : jsvalue) : completion jsvalue :=
  if is_string (typeof value) "number" then Return value
  else if is_string (typeof value) "string" then
    has_point <- String_includes value (js ".") ;;
    parsed <- (if has_point : bool then js_parseFloat value
               else js_parseInt value 10) ;;
    if isNaN parsed
    then Throw (Error (js "Cannot convert string to number."))
    else Return (VNumber parsed)
  else if is_string (typeof value) "boolean"
  then Return (VNumber (if js_Boolean value then one else pos_zero))
  else if strict_equals value VNull then Return (VNumber pos_zero)
  else if is_string (typeof value) "undefined"
  then Throw (Error (js "Cannot convert undefined to number."))
  else if is_string (typeof value) "object" then
    num <- js_Number value ;;
    if negb (isNaN num) then Return (VNumber num)
    else Throw (Error (js "Cannot convert object to number."))
  else Throw (Error (js "Cannot convert type " ++ quoted (typeof value)
                     ++ js " to number.")).

Definition coerceToType (value type : jsvalue) : completion jsvalue :=
  if switch_case type "string" then s <- js_String value ;; Return (VString s)
  else if switch_case type "number" then
    num <- js_Number value ;;
    if isNaN num
    then s <- ToString value ;;
         Throw (Error (js "Cannot coerce value to number: " ++ s))
    else Return (VNumber num)
  else if switch_case type "boolean" then Return (VBoolean (js_Boolean value))
  else if switch_case type "bigint" then
    try_catch (z <- js_BigInt value ;; Return (VBigInt z))
      (fun _ => s <- ToString value ;;
                Throw (Error (js "Cannot coerce value to bigint: " ++ s)))
  else if switch_case type "object" then
    if strict_equals value VNull || is_string (typeof value) "object"
    then Return value
    else Throw (Error (js "Cannot coerce value of type "
                       ++ quoted (typeof value) ++ js " to object."))
  else if switch_case type "symbol" then
    if is_string (typeof value) "symbol" then Return value
    else Throw (Error (js "Cannot coerce to symbol unless value is already a symbol."))
  else if switch_case type "undefined" then
    if is_string (typeof value) "undefined" then Return VUndefined
    else Throw (Error (js "Cannot coerce value of type "
                       ++ quoted (typeof value) ++ js " to undefined."))
  else s <- ToString type ;;
       Throw (Error (js "Unsupported target type: " ++ quoted s ++ js ".")).

(** [fallback] is [None] when the caller passes one argument; a parameter
    that is missing or undefined takes its default, [null]. *)
Definition safeJsonParse (fresh : loc) (str : jsvalue)
  (fallback : option jsvalue) : completion jsvalue :=
  let fallback :=
    match fallback with
    | None | Some VUndefined => VNull
    | Some v => v
    end in
  try_catch (JSON_parse fresh str) (fun _ => Return fallback).

Definition line_feed : jsstring := [10%N].

(** The warning of [paranoidEquals]: U+26A0, U+FE0F and the sentence. *)
Definition coercion_warning : jsstring :=
  [9888%N; 65039%N] ++ js " Coercion happened in '=='. Be careful!".

(** The template of [paranoidEquals], line by line, around the text of
    its seven substitutions. *)
Definition comparison_report
  (text_a type_a text_b type_b loose_text strict_text warning : jsstring)
  : jsstring :=
  line_feed
  ++ js "    Comparing " ++ text_a ++ js " (" ++ type_a
  ++ js ") and " ++ text_b ++ js " (" ++ type_b ++ js "):" ++ line_feed
  ++ line_feed
  ++ js "    ==  : " ++ loose_text ++ line_feed
  ++ js "    === : " ++ strict_text ++ line_feed
  ++ line_feed
  ++ js "    " ++ warning ++ line_feed.

(** Each substitution of the template is converted with [ToString] where
    it stands, from left to right. *)
Definition paranoidEquals (a b : jsvalue) : completion jsvalue :=
  looseEqual <- loose_equals a b ;;
  let strictEqual := strict_equals a b in
  text_a <- js_String a ;;
  type_a <- ToString (VString (typeof a)) ;;
  text_b <- js_String b ;;
  type_b <- ToString (VString (typeof b)) ;;
  loose_text <- ToString (VBoolean looseEqual) ;;
  strict_text <- ToString (VBoolean strictEqual) ;;
  warning <- ToString (VString (if looseEqual && negb strictEqual
                                then coercion_warning else [])) ;;
  Return (VString (comparison_report text_a type_a text_b type_b
                     loose_text strict_text warning)).

(* ------------------------------------------------------------------ *)
(** ** Vocabulary of the specification *)

(** A non-null, non-array object: the test [addValues] applies to each
    operand. *)
Definition is_plain_object (v : jsvalue) : bool :=
  is_string (typeof v) "object" && negb (strict_equals v VNull)
  && negb (Array_isArray v).

(** Numeric text is text that [Number] converts, which is how the library
    itself tells in [coerceToType]; integer-like text is text that
    [parseInt] converts. *)
Definition numeric_text (s : jsstring) : bool := negb (isNaN (StringToNumber s)).
Definition integer_like (s : jsstring) : bool := negb (isNaN (parseInt s 10)).

(** What is left of a text after its leading white space and one sign. *)
Definition unsigned_part (s : jsstring) : jsstring :=
  snd (strip_sign (trim_start s)).

Definition begins_with_digit (t : jsstring) : bool :=
  match t with
  | c :: _ => is_digit c
  | [] => false
  end.

Definition begins_with_fraction (t : jsstring) : bool :=
  match strip_char 46%N t with
  | Some r => begins_with_digit r
  | None => false
  end.

(** The text has a prefix that [parseInt] (no point in the text) or
    [parseFloat] (a point somewhere in the text) reads as a number. *)
Definition has_numeric_prefix (s : jsstring) : bool :=
  let u := unsigned_part s in
  if includes s (js ".")
  then begins_with_digit u || begins_with_fraction u
       || starts_with (js "Infinity") u
  else begins_with_digit u.

(** [convertToNumber(convertToNumber(x)) === convertToNumber(x)]. *)
Definition idempotent_at (x : jsvalue) : Prop :=
  exists once twice,
    convertToNumber x = Return once
    /\ (y <- convertToNumber x ;; convertToNumber y) = Return twice
    /\ strict_equals twice once = true.

(** The falsy values the specification lists: empty text, 0, null,
    undefined and false. *)
Definition listed_falsy (v : jsvalue) : bool :=
  match v with
  | VString [] => true
  | VNumber x => is_zero x
  | VNull | VUndefined => true
  | VBoolean b => negb b
  | _ => false
  end.

(** The value with the identities of its objects erased: two values are
    structurally equal when they have the same [structure].  The members
    of an object are compared in the order they are listed, which is more
    than a comparison member by member asks for. *)
Definition key_structure (k : property_key) : property_key :=
  match k with
  | KString name => KString name
  | KSymbol _ description => KSymbol 0 description
  end.

Fixpoint structure (v : jsvalue) : jsvalue :=
  match v with
  | VSymbol _ description => VSymbol 0 description
  | VFunction _ source => VFunction 0 source
  | VArray _ elements => VArray 0 (map structure elements)
  | VObject _ members =>
      VObject 0 (map (fun '(k, x) => (key_structure k, structure x)) members)
  | _ => v
  end.

(** The value without the object members that [dropped] selects, at every
    depth. *)
Fixpoint without_members (dropped : property_key -> jsvalue -> bool)
  (v : jsvalue) : jsvalue :=
  match v with
  | VArray id elements => VArray id (map (without_members dropped) elements)
  | VObject id members =>
      VObject id
        (flat_map (fun '(k, x) =>
                     if dropped k x then []
                     else [(k, without_members dropped x)]) members)
  | _ => v
  end.

(** The members the specification says are dropped: those with a symbol
    for key and those holding a function. *)
Definition dropped_by_claim (k : property_key) (x : jsvalue) : bool :=
  match k, x with
  | KSymbol _ _, _ => true
  | _, VFunction _ _ => true
  | _, _ => false
  end.

(** The members [JSON.stringify] leaves out: those with a symbol for key
    and those holding a function, undefined or a symbol. *)
Definition dropped_by_JSON (k : property_key) (x : jsvalue) : bool :=
  match k, x with
  | KSymbol _ _, _ => true
  | _, VFunction _ _ => true
  | _, VUndefined => true
  | _, VSymbol _ _ => true
  | _, _ => false
  end.

(** A number that JSON text denotes and that reads back as itself: finite,
    in the form the model keeps, and not the negative zero. *)
Definition json_number (x : number) : bool :=
  match x with
  | Finite negative m e =>
      if (m =? 0)%N then negb negative && (e =? 0)%Z
      else negb (m mod 10 =? 0)%N
  | _ => false
  end.

(** Distinct keys, in the order an object lists them. *)
Fixpoint own_key_order (ks : list jsstring) : bool :=
  match ks with
  | [] => true
  | k :: rest =>
      forallb (fun k' => negb (jsstring_eqb k k')
                         && negb (goes_before k' (KString k))) rest
      && own_key_order rest
  end.

Definition kept_keys (members : list (property_key * jsvalue))
  : list jsstring :=
  flat_map (fun '(k, x) =>
              match k with
              | KString name => if dropped_by_JSON k x then [] else [name]
              | KSymbol _ _ => []
              end) members.

(** A member that makes [JSON.stringify] call the object's own [toJSON]:
    the platform would run that function, which the model cannot. *)
Definition is_toJSON_method (k : property_key) (x : jsvalue) : bool :=
  match k, x with
  | KString name, VFunction _ _ => is_string name "toJSON"
  | _, _ => false
  end.

(** The values JSON text can carry: null, booleans, strings, the numbers
    above, arrays of such values, and objects whose members are either
    left out by [JSON.stringify] or hold such a value, the members that
    stay having distinct keys in the order an object lists them, and no
    member being a [toJSON] method. *)
Fixpoint json_faithful (v : jsvalue) : bool :=
  match v with
  | VNull | VBoolean _ | VString _ => true
  | VNumber x => json_number x
  | VArray _ elements => forallb json_faithful elements
  | VObject _ members =>
      own_key_order (kept_keys members)
      && forallb (fun '(k, x) =>
                    negb (is_toJSON_method k x)
                    && (dropped_by_JSON k x || json_faithful x)) members
  | _ => false
  end.

(** The round trip of the specification: [stringifyValue(v)] is a String,
    that String is JSON text, and decoding it gives a value structurally
    equal to [expected]. *)
Definition decodes_back (fresh : loc) (v expected : jsvalue) : Prop :=
  exists text decoded,
    stringifyValue v = Return (VString text)
    /\ JSON_parse fresh (VString text) = Return decoded
    /\ structure decoded = structure expected.

(* ------------------------------------------------------------------ *)
(** ** Vocabulary of the proofs *)

Definition all_digits (ds : jsstring) : Prop :=
  Forall (fun c => is_digit c = true) ds.

Definition member_structure (m : property_key * jsvalue)
  : property_key * jsvalue :=
  let (k, x) := m in (key_structure k, structure x).

(** The parse tree of the text [JSON.stringify] writes for a value. *)
Fixpoint json_of (v : jsvalue) : json :=
  match v with
  | VBoolean b => JBool b
  | VString s => JString s
  | VNumber x => JNumber x
  | VArray _ elements => JArray (map json_of elements)
  | VObject _ members =>
      JObject
        (flat_map (fun '(k, x) =>
                     match k with
                     | KString name =>
                         if dropped_by_JSON k x then []
                         else [(name, json_of x)]
                     | KSymbol _ _ => []
                     end) members)
  | _ => JNull
  end.

(** Where a number may end in a JSON text: not before a digit, a point or
    an exponent mark. *)
Definition ends_number (rest : jsstring) : bool :=
  match rest with
  | [] => true
  | c :: _ => negb (is_digit c || (c =? 46) || (c =? 101) || (c =? 69))%N
  end.

(** [text] is JSON text for the tree [j]: it begins with neither white
    space nor a closing bracket, and the parser, given more fuel than the
    text is long, reads [j] from it and stops where the text stops. *)
Definition reads_as (text : jsstring) (j : json) : Prop :=
  (exists c t, text = c :: t /\ is_json_white_space c = false
               /\ (c =? 93)%N = false)
  /\ forall (fuel : nat) (rest : jsstring),
       length text < fuel ->
       ends_number rest = true ->
       parse_value fuel (text ++ rest) = Some (j, rest).

(** The members of the parse tree of an object. *)
Definition json_members (members : list (property_key * jsvalue))
  : list (jsstring * json) :=
  flat_map (fun '(k, x) =>
              match k with
              | KString name =>
                  if dropped_by_JSON k x then [] else [(name, json_of x)]
              | KSymbol _ _ => []
              end) members.

(** A parse that succeeds consumes at least one code unit, and succeeds
    with the same answer on any fuel above what it consumes. *)
Definition fuel_free {A : Type}
  (parse : nat -> jsstring -> option (A * jsstring)) (f : nat) : Prop :=
  forall (s : jsstring) (a : A) (r : jsstring),
    parse f s = Some (a, r) ->
    length r < length s
    /\ forall f', length s - length r < f' -> parse f' s = Some (a, r).

(* ------------------------------------------------------------------ *)
(** ** Vocabulary of the further properties *)

(** The operands [addValues] hands to [+]: they are not two arrays, none
    is a non-null, non-array object and none is undefined. *)
Definition reaches_plus (a b : jsvalue) : bool :=
  negb (Array_isArray a && Array_isArray b)
  && negb (is_plain_object a || is_plain_object b)
  && negb (strict_equals a VUndefined || strict_equals b VUndefined).

(** The operands [+] turns into text: a String, and an array or a
    function, which become a String when made primitive. *)
Definition text_operand (v : jsvalue) : bool :=
  match v with
  | VString _ | VFunction _ _ | VArray _ _ => true
  | _ => false
  end.

(** The operands [+] turns into a Number. *)
Definition numeric_operand (v : jsvalue) : bool :=
  match v with
  | VNumber _ | VBoolean _ | VNull => true
  | _ => false
  end.

(** The Number such an operand converts to. *)
Definition numeric_value (v : jsvalue) : number :=
  match v with
  | VNumber x => x
  | VBoolean true => one
  | _ => pos_zero
  end.

(** A key under which an object would replace a conversion method it
    inherits: [toString], [valueOf], or a symbol, which may be
    [Symbol.toPrimitive]. *)
Definition is_conversion_key (k : property_key) : bool :=
  match k with
  | KString name => is_string name "toString" || is_string name "valueOf"
  | KSymbol _ _ => true
  end.

(** The value is converted to text and to a primitive by the methods of
    the platform: no object that the conversion reaches has a member
    under a conversion key. *)
Fixpoint default_conversions (v : jsvalue) : bool :=
  match v with
  | VArray _ elements => forallb default_conversions elements
  | VObject _ members =>
      forallb (fun '(k, _) => negb (is_conversion_key k)) members
  | _ => true
  end.


(** A symbol, or an array that holds one, directly or in an array it
    holds. *)
Fixpoint symbol_within (v : jsvalue) : bool :=
  match v with
  | VSymbol _ _ => true
  | VArray _ elements => existsb symbol_within elements
  | _ => false
  end.

(** A BigInt, or an array or an object that holds one where
    [JSON.stringify] looks: in an element, or in a member whose key is a
    string. *)
Fixpoint holds_bigint (v : jsvalue) : bool :=
  match v with
  | VBigInt _ => true
  | VArray _ elements => existsb holds_bigint elements
  | VObject _ members =>
      existsb (fun '(k, x) =>
                 match k with
                 | KString _ => holds_bigint x
                 | KSymbol _ _ => false
                 end) members
  | _ => false
  end.

(** An array that holds a symbol: the values [String] has no text for. *)
Definition array_with_symbol (v : jsvalue) : bool :=
  match v with
  | VArray _ elements => existsb symbol_within elements
  | _ => false
  end.

(** [join(",")] over the elements of an array, as [ToString] does it. *)
Fixpoint join_elements (first : bool) (l : list jsvalue)
  : completion jsstring :=
  match l with
  | [] => Return []
  | e :: l' =>
      s <- match e with
           | VUndefined | VNull => Return []
           | _ => ToString e
           end ;;
      rest <- join_elements false l' ;;
      Return ((if first then [] else [44%N]) ++ s ++ rest)
  end.

(** [String.prototype.endsWith]. *)
Definition ends_with (s suffix : jsstring) : bool :=
  starts_with (rev suffix) (rev s).

(** The code units of the numerals the platform prints: digits, the
    signs, the point and the exponent mark. *)
Definition is_numeral_unit (c : code_unit) : bool :=
  (is_digit c || (c =? 43) || (c =? 45) || (c =? 46) || (c =? 101))%N.


Definition is_infinite (x : number) : bool :=
  match x with
  | Infinity _ => true
  | _ => false
  end.

(** The numeral of [m * 10^e] is printed without an exponent: the number
    is at least 1e-6 and below 1e21 in magnitude. *)
Definition plain_notation (m : N) (e : Z) : bool :=
  let n := (e + Z.of_nat (length (decimal_digits m)))%Z in
  (-6 <? n)%Z && (n <=? 21)%Z.

(** The seven targets of [coerceToType]. *)
Definition target_types : list jsstring :=
  [js "string"; js "number"; js "boolean"; js "bigint"; js "object";
   js "symbol"; js "undefined"].

(* ================================================================== *)
(** * Properties *)

(** ** Tactics *)

(** Division and remainder by a constant, for [lia]. *)
Ltac Zify.zify_post_hook ::= Z.to_euclidean_division_equations.

(** Case analysis on the comparisons of code units in the goal. *)
Ltac break_tests :=
  repeat match goal with
    | |- context [(?a <=? ?b)%N] => destruct (N.leb_spec a b)
    | |- context [(?a <? ?b)%N] => destruct (N.ltb_spec a b)
    | |- context [(?a =? ?b)%N] => destruct (N.eqb_spec a b)
    end;
  cbn [andb orb negb]; try lia; try (exfalso; lia); try congruence.

(** The goal is an equation between two finite numbers that differ only
    in the way their exponent is written. *)
Ltac same_exponent e :=
  match goal with
  | |- Some (Finite _ _ ?x, _) = _ =>
      replace x with e; [reflexivity |]
  end.

(** ** Strings and literals *)

Lemma jsstring_eqb_eq (s t : jsstring) : jsstring_eqb s t = true <-> s = t.
Proof.
  unfold jsstring_eqb. destruct (list_eq_dec N.eq_dec s t); split; congruence.
Qed.


(** ** Numerals *)

Lemma is_digit_iff (c : code_unit) :
  is_digit c = true <-> (48 <= c <= 57)%N.
Proof. unfold is_digit. break_tests; split; intros; lia || congruence. Qed.

Lemma digit_in_radix_digit (n : N) :
  (n < 10)%N -> digit_in_radix (48 + n)%N = Some n.
Proof.
  intros H. unfold digit_in_radix. break_tests; f_equal; lia.
Qed.

Lemma radix_value_step (r : N) (ds : jsstring) (acc : N) :
  fold_left
    (fun acc c => acc * r + match digit_in_radix c with
                            | Some d => d
                            | None => 0
                            end)%N ds acc
  = (acc * r ^ N.of_nat (length ds) + radix_value r ds)%N.
Proof.
  unfold radix_value. revert acc.
  induction ds as [| c ds IH]; intros acc.
  - simpl. lia.
  - cbn [fold_left length]. rewrite IH, (IH (0 * r + _)%N).
    rewrite Nat2N.inj_succ, N.pow_succ_r'. lia.
Qed.

Lemma digits_value_app (a b : jsstring) :
  digits_value (a ++ b)
  = (digits_value a * 10 ^ N.of_nat (length b) + digits_value b)%N.
Proof.
  unfold digits_value at 1. unfold radix_value.
  rewrite fold_left_app. apply radix_value_step.
Qed.

Lemma digits_value_single (n : N) :
  (n < 10)%N -> digits_value [(48 + n)%N] = n.
Proof.
  intros H. unfold digits_value, radix_value. cbn [fold_left].
  rewrite digit_in_radix_digit by exact H. lia.
Qed.

Lemma digits_value_zeros (n : nat) : digits_value (zeros n) = 0%N.
Proof.
  induction n as [| n IH]; [reflexivity |].
  change (zeros (S n)) with ([48%N] ++ zeros n).
  rewrite digits_value_app, IH. reflexivity.
Qed.

Lemma all_digits_zeros (n : nat) : all_digits (zeros n).
Proof. induction n; constructor; auto. Qed.

Lemma length_zeros (n : nat) : length (zeros n) = n.
Proof. apply repeat_length. Qed.

Lemma digits_aux_S (fuel : nat) (n : N) (acc : jsstring) :
  digits_aux (S fuel) n acc =
  if (n <? 10)%N then (48 + n)%N :: acc
  else digits_aux fuel (n / 10)%N ((48 + n mod 10)%N :: acc).
Proof. reflexivity. Qed.

Lemma digits_aux_spec (fuel : nat) :
  forall (n : N) (acc : jsstring),
    (n < 2 ^ N.of_nat (S fuel))%N ->
    exists d ds,
      digits_aux (S fuel) n acc = (d :: ds) ++ acc
      /\ all_digits (d :: ds)
      /\ digits_value (d :: ds) = n
      /\ (d = 48%N -> n = 0%N).
Proof.
  induction fuel as [| fuel IH]; intros n acc Hn.
  - change (2 ^ N.of_nat 1)%N with 2%N in Hn.
    exists (48 + n)%N, []. rewrite digits_aux_S.
    destruct (N.ltb_spec n 10); [| lia].
    repeat split.
    + constructor; [apply is_digit_iff; lia | constructor].
    + apply digits_value_single; lia.
    + lia.
  - rewrite digits_aux_S. destruct (N.ltb_spec n 10) as [L | L].
    + exists (48 + n)%N, []. repeat split.
      * constructor; [apply is_digit_iff; lia | constructor].
      * now apply digits_value_single.
      * lia.
    + destruct (IH (n / 10)%N ((48 + n mod 10)%N :: acc))
        as [d [ds [E [A [V Z]]]]].
      { rewrite Nat2N.inj_succ, N.pow_succ_r' in Hn. lia. }
      exists d, (ds ++ [(48 + n mod 10)%N]). repeat split.
      * rewrite E. simpl. now rewrite <- app_assoc.
      * change (all_digits ((d :: ds) ++ [(48 + n mod 10)%N])).
        apply Forall_app. split; [exact A |].
        constructor; [apply is_digit_iff; lia | constructor].
      * change (digits_value ((d :: ds) ++ [(48 + n mod 10)%N]) = n).
        rewrite digits_value_app, V, digits_value_single by lia.
        simpl length. change (10 ^ N.of_nat 1)%N with 10%N. lia.
      * intros D. specialize (Z D). lia.
Qed.

Lemma decimal_digits_spec (n : N) :
  exists d ds,
    decimal_digits n = d :: ds
    /\ all_digits (d :: ds)
    /\ digits_value (d :: ds) = n
    /\ (d = 48%N -> n = 0%N).
Proof.
  unfold decimal_digits.
  destruct (digits_aux_spec (N.to_nat (N.log2 n)) n []) as [d [ds [E H]]].
  - rewrite Nat2N.inj_succ, N2Nat.id.
    destruct (N.eq_dec n 0) as [-> | Hn]; [reflexivity |].
    apply N.log2_spec. lia.
  - exists d, ds. rewrite app_nil_r in E. now split.
Qed.

Lemma decimal_digits_value (n : N) : digits_value (decimal_digits n) = n.
Proof. destruct (decimal_digits_spec n) as [d [ds [-> [_ [V _]]]]]. exact V. Qed.

Lemma decimal_digits_all (n : N) : all_digits (decimal_digits n).
Proof. destruct (decimal_digits_spec n) as [d [ds [-> [A _]]]]. exact A. Qed.

Lemma span_digits (ds rest : jsstring) :
  all_digits ds ->
  begins_with_digit rest = false ->
  span is_digit (ds ++ rest) = (ds, rest).
Proof.
  intros A R. induction A as [| c ds C A IH]; cbn [app span].
  - destruct rest as [| c rest]; [reflexivity |].
    cbn [begins_with_digit] in R. cbn [span]. now rewrite R.
  - now rewrite C, IH.
Qed.

(** ** The form of a finite number *)

Lemma strip_zeros_shift (m : N) (j : nat) :
  (m mod 10 <> 0)%N ->
  forall (fuel : nat) (e : Z),
    j <= fuel ->
    strip_zeros fuel (m * 10 ^ N.of_nat j) e = (m, (e + Z.of_nat j)%Z).
Proof.
  intros Hm. induction j as [| j IH]; intros fuel e Hf.
  - change (10 ^ N.of_nat 0)%N with 1%N. rewrite N.mul_1_r, Z.add_0_r.
    destruct fuel; [reflexivity |]. simpl.
    destruct (N.eqb_spec (m mod 10) 0); [contradiction | reflexivity].
  - destruct fuel as [| fuel]; [lia |].
    rewrite Nat2N.inj_succ, N.pow_succ_r'. cbn [strip_zeros].
    replace ((m * (10 * 10 ^ N.of_nat j)) mod 10)%N with 0%N by lia.
    simpl N.eqb.
    replace (m * (10 * 10 ^ N.of_nat j) / 10)%N with (m * 10 ^ N.of_nat j)%N
      by lia.
    rewrite IH by lia. f_equal. lia.
Qed.

Lemma size_pow10 (m : N) (j : nat) :
  (m <> 0)%N -> j <= N.to_nat (N.size (m * 10 ^ N.of_nat j)).
Proof.
  intros Hm.
  assert (P : (2 ^ N.of_nat j <= m * 10 ^ N.of_nat j)%N).
  { assert (2 ^ N.of_nat j <= 10 ^ N.of_nat j)%N
      by (apply N.pow_le_mono_l; lia).
    nia. }
  pose proof (N.size_gt (m * 10 ^ N.of_nat j)) as G.
  assert (L : (N.of_nat j < N.size (m * 10 ^ N.of_nat j))%N).
  { apply (N.pow_lt_mono_r_iff 2); lia. }
  lia.
Qed.

Lemma finite_shift (negative : bool) (m : N) (j : nat) (e : Z) :
  (m mod 10 <> 0)%N ->
  finite negative (m * 10 ^ N.of_nat j) e
  = Finite negative m (e + Z.of_nat j).
Proof.
  intros Hm. unfold finite.
  assert (M : (m <> 0)%N) by (intros ->; now apply Hm).
  assert (P : (m * 10 ^ N.of_nat j <> 0)%N).
  { apply N.neq_mul_0. split; [exact M |]. apply N.pow_nonzero. lia. }
  destruct (N.eqb_spec (m * 10 ^ N.of_nat j) 0); [contradiction |].
  rewrite strip_zeros_shift; auto using size_pow10.
Qed.

Lemma finite_canonical (negative : bool) (m : N) (e : Z) :
  (m mod 10 <> 0)%N -> finite negative m e = Finite negative m e.
Proof.
  intros Hm. pose proof (finite_shift negative m 0 e Hm) as H.
  change (10 ^ N.of_nat 0)%N with 1%N in H.
  now rewrite N.mul_1_r, Z.add_0_r in H.
Qed.

(** ** parseInt and parseFloat *)

Lemma isNaN_finite (negative : bool) (m : N) (e : Z) :
  isNaN (finite negative m e) = false.
Proof.
  unfold finite. destruct (m =? 0)%N; [reflexivity |].
  now destruct (strip_zeros _ m e).
Qed.

Lemma is_radix_digit_10 (c : code_unit) : is_radix_digit 10 c = is_digit c.
Proof.
  unfold is_radix_digit, digit_in_radix, is_digit.
  destruct ((48 <=? c)%N && (c <=? 57)%N) eqn:D.
  - apply andb_prop in D as [D1 D2].
    apply N.leb_le in D1. apply N.leb_le in D2. apply N.ltb_lt. lia.
  - destruct ((97 <=? c)%N && (c <=? 122)%N) eqn:L.
    + apply andb_prop in L as [L1 _]. apply N.leb_le in L1.
      apply N.ltb_ge. lia.
    + destruct ((65 <=? c)%N && (c <=? 90)%N) eqn:U; [| reflexivity].
      apply andb_prop in U as [U1 _]. apply N.leb_le in U1.
      apply N.ltb_ge. lia.
Qed.

Lemma span_ext (p q : code_unit -> bool) (s : jsstring) :
  (forall c, p c = q c) -> span p s = span q s.
Proof.
  intros E. induction s as [| c s IH]; simpl; [reflexivity |].
  now rewrite E, IH.
Qed.

(** The prefix [span] takes is empty exactly when the first code unit
    fails the test. *)
Lemma span_first (p : code_unit -> bool) (s : jsstring) :
  match span p s with
  | ([], r) => r = s /\ match s with c :: _ => p c = false | [] => True end
  | (c :: _, _) => exists s', s = c :: s' /\ p c = true
  end.
Proof.
  destruct s as [| c s]; simpl; [now split |].
  destruct (p c) eqn:P.
  - destruct (span p s). now exists s.
  - now split.
Qed.

Lemma parseInt_10_eq (s : jsstring) :
  parseInt s 10 =
  let (negative, t1) := strip_sign (trim_start s) in
  let (ds, _) := span is_digit t1 in
  match ds with
  | [] => NaN
  | _ => finite negative (digits_value ds) 0
  end.
Proof.
  unfold parseInt. destruct (strip_sign (trim_start s)) as [negative t1].
  cbn -[span finite radix_value].
  now rewrite (span_ext _ is_digit t1 is_radix_digit_10).
Qed.

Lemma parseInt_10_isNaN (s : jsstring) :
  isNaN (parseInt s 10) = negb (begins_with_digit (unsigned_part s)).
Proof.
  rewrite parseInt_10_eq. unfold unsigned_part.
  destruct (strip_sign (trim_start s)) as [negative t1]. simpl snd.
  pose proof (span_first is_digit t1) as F.
  destruct (span is_digit t1) as [[| d ds] r].
  - destruct F as [_ F]. destruct t1; simpl; [reflexivity |]. now rewrite F.
  - destruct F as [s' [-> F]]. simpl. now rewrite F, isNaN_finite.
Qed.

Lemma scan_unsigned_isNaN (negative : bool) (u : jsstring) :
  isNaN match scan_unsigned negative u with
        | Some (x, _) => x
        | None => NaN
        end
  = negb (begins_with_digit u || begins_with_fraction u
          || starts_with (js "Infinity") u).
Proof.
  unfold scan_unsigned.
  destruct (starts_with (js "Infinity") u) eqn:I.
  { now rewrite orb_true_r. }
  rewrite orb_false_r.
  pose proof (span_first is_digit u) as F.
  destruct (span is_digit u) as [[| d ip] r1].
  - destruct F as [-> F]. unfold begins_with_fraction.
    assert (B : begins_with_digit u = false) by (now destruct u).
    rewrite B. simpl orb.
    destruct (strip_char 46 u) as [r2 |]; [| reflexivity].
    pose proof (span_first is_digit r2) as G.
    destruct (span is_digit r2) as [[| f fp] r3].
    + destruct G as [_ G]. destruct r2; simpl; [reflexivity |]. now rewrite G.
    + destruct G as [s' [-> G]]. simpl begins_with_digit. rewrite G.
      destruct (scan_exponent r3). apply isNaN_finite.
  - destruct F as [s' [-> F]]. simpl begins_with_digit. rewrite F. simpl.
    destruct (strip_char 46 r1) as [r2 |].
    + destruct (span is_digit r2), (scan_exponent _). apply isNaN_finite.
    + destruct (scan_exponent r1). apply isNaN_finite.
Qed.

Lemma parseFloat_isNaN (s : jsstring) :
  isNaN (parseFloat s)
  = negb (begins_with_digit (unsigned_part s)
          || begins_with_fraction (unsigned_part s)
          || starts_with (js "Infinity") (unsigned_part s)).
Proof.
  unfold parseFloat, scan_decimal, unsigned_part.
  destruct (strip_sign (trim_start s)) as [negative u].
  apply scan_unsigned_isNaN.
Qed.

(** ** Numbers in JSON text *)

Lemma ends_number_spec (rest : jsstring) :
  ends_number rest = true ->
  begins_with_digit rest = false
  /\ strip_char 46 rest = None
  /\ match rest with
     | c :: _ => (c =? 101)%N || (c =? 69)%N = false
     | [] => True
     end.
Proof.
  destruct rest as [| c rest]; [now repeat split |].
  unfold ends_number, begins_with_digit, strip_char. intros H.
  apply negb_true_iff in H.
  apply orb_false_iff in H as [H E69].
  apply orb_false_iff in H as [H E101].
  apply orb_false_iff in H as [D E46].
  rewrite D, E46, E101, E69. auto.
Qed.

(** The number parser on a numeral written in pieces: integer digits, an
    optional fraction, an optional exponent. *)
Lemma parse_json_unsigned_text
  (negative : bool) (ip fp frac : jsstring) (has_exponent eneg : bool)
  (eds rest : jsstring) :
  all_digits ip -> ip <> [] -> (hd 0%N ip = 48%N -> length ip = 1) ->
  all_digits fp ->
  (fp = [] /\ frac = []) \/ (fp <> [] /\ frac = 46%N :: fp) ->
  all_digits eds -> (has_exponent = true -> eds <> []) ->
  ends_number rest = true ->
  parse_json_unsigned negative
    (ip ++ frac
        ++ (if has_exponent
            then 101%N :: (if eneg then 45%N else 43%N) :: eds else [])
        ++ rest)
  = Some (finite negative (digits_value (ip ++ fp))
            ((if has_exponent then signed eneg (digits_value eds) else 0)
             - Z.of_nat (length fp)), rest).
Proof.
  intros Aip Nip Zip Afp Ffp Aeds Neds R.
  destruct (ends_number_spec rest R) as [Rd [Rp Re]].
  set (expo := (if has_exponent
                then 101%N :: (if eneg then 45%N else 43%N) :: eds else [])
               ++ rest).
  assert (Xd : begins_with_digit expo = false).
  { unfold expo. destruct has_exponent; [reflexivity | exact Rd]. }
  assert (Xp : strip_char 46 expo = None).
  { unfold expo. destruct has_exponent; [reflexivity | exact Rp]. }
  assert (X : parse_json_exponent expo
              = Some ((if has_exponent then signed eneg (digits_value eds)
                       else 0)%Z, rest)).
  { unfold expo, parse_json_exponent. destruct has_exponent.
    - cbn [app]. change ((101 =? 101)%N || (101 =? 69)%N) with true.
      cbv iota.
      replace (strip_sign ((if eneg then 45%N else 43%N) :: eds ++ rest))
        with (eneg, eds ++ rest) by (now destruct eneg).
      rewrite span_digits by assumption.
      destruct eds; [now elim Neds | reflexivity].
    - cbn [app]. destruct rest as [| c rest]; [reflexivity |].
      now rewrite Re. }
  assert (F : parse_json_fraction (frac ++ expo) = Some (fp, expo)
              /\ begins_with_digit (frac ++ expo) = false).
  { unfold parse_json_fraction. destruct Ffp as [[-> ->] | [Nfp ->]].
    - cbn [app]. now rewrite Xp.
    - cbn [app strip_char]. change (46 =? 46)%N with true. cbv iota.
      rewrite span_digits by assumption.
      destruct fp; [now elim Nfp | now split]. }
  destruct F as [F Fd].
  unfold parse_json_unsigned.
  rewrite span_digits by assumption.
  destruct ip as [| d ip']; [now elim Nip |].
  assert (L : (d =? 48)%N
              && negb match ip' with [] => true | _ :: _ => false end
              = false).
  { destruct (N.eqb_spec d 48) as [E | E]; [| reflexivity].
    specialize (Zip E). destruct ip'; [reflexivity | discriminate]. }
  rewrite L, F, X. reflexivity.
Qed.

Lemma signed_abs (ex : Z) :
  signed (negb (0 <=? ex)%Z) (Z.abs_N ex) = ex.
Proof. unfold signed. destruct (Z.leb_spec 0 ex); simpl; lia. Qed.

Lemma decimal_text_parses (negative : bool) (m : N) (e : Z) (rest : jsstring) :
  (m mod 10 <> 0)%N ->
  ends_number rest = true ->
  parse_json_unsigned negative (decimal_text m e ++ rest)
  = Some (Finite negative m e, rest)
  /\ begins_with_digit (decimal_text m e ++ rest) = true.
Proof.
  intros Hm R.
  assert (M : (m <> 0)%N) by (intros ->; now apply Hm).
  unfold decimal_text.
  destruct (decimal_digits_spec m) as [d [ds [E [A [V Hz]]]]].
  rewrite E. set (D := d :: ds) in *.
  assert (Hd : is_digit d = true) by (now inversion A).
  assert (d48 : d <> 48%N) by (intros H; now apply M, Hz).
  assert (Nil : all_digits []) by constructor.
  set (k := Z.of_nat (length D)).
  assert (K : k = Z.of_nat (S (length ds))) by reflexivity.
  set (n := (e + k)%Z).
  destruct ((k <=? n)%Z && (n <=? 21)%Z) eqn:C1.
  { (* an integer padded with zeros *)
    apply andb_prop in C1 as [C1 _]. apply Z.leb_le in C1.
    set (j := Z.to_nat (n - k)). split; [| exact Hd].
    etransitivity.
    { apply (parse_json_unsigned_text negative (D ++ zeros j) [] []
               false false [] rest);
        [ apply Forall_app; split; [exact A | apply all_digits_zeros]
        | discriminate | intros H; contradiction | exact Nil | now left
        | exact Nil | discriminate | exact R ]. }
    rewrite app_nil_r, digits_value_app, V, digits_value_zeros, length_zeros.
    rewrite N.add_0_r, finite_shift by exact Hm.
    same_exponent e. subst j n. cbn [length]. lia. }
  destruct ((0 <? n)%Z && (n <=? 21)%Z) eqn:C2.
  { (* the point inside the digits *)
    apply andb_prop in C2 as [C2 C2']. apply Z.ltb_lt in C2.
    apply Z.leb_le in C2'.
    assert (C : (n < k)%Z).
    { apply andb_false_iff in C1 as [C1 | C1]; apply Z.leb_gt in C1; lia. }
    set (i := Z.to_nat n).
    assert (I : 1 <= i < S (length ds)) by (subst i; lia).
    pose proof (firstn_skipn i D) as FS.
    assert (AF : all_digits (firstn i D) /\ all_digits (skipn i D)).
    { apply Forall_app. now rewrite FS. }
    destruct AF as [AF AS].
    assert (LS : length (skipn i D) = S (length ds) - i)
      by apply length_skipn.
    assert (HF : exists t, firstn i D = d :: t).
    { destruct i as [| i']; [lia |]. unfold D. simpl. eauto. }
    destruct HF as [t HF].
    split; [| rewrite HF; exact Hd].
    rewrite <- app_assoc.
    etransitivity.
    { apply (parse_json_unsigned_text negative (firstn i D) (skipn i D)
               (46%N :: skipn i D) false false [] rest);
        [ exact AF | rewrite HF; discriminate
        | rewrite HF; intros H; contradiction | exact AS
        | right; split; [| reflexivity]
        | exact Nil | discriminate | exact R ].
      intros H. rewrite H in LS. cbn [length] in LS. lia. }
    rewrite FS, V, finite_canonical by exact Hm.
    same_exponent e. rewrite LS. subst i n. lia. }
  destruct ((-6 <? n)%Z && (n <=? 0)%Z) eqn:C3.
  { (* a fraction below one *)
    apply andb_prop in C3 as [_ C3]. apply Z.leb_le in C3.
    set (j := Z.to_nat (- n)). split; [| reflexivity].
    change (48%N :: 46%N :: zeros j ++ D)
      with ([48%N] ++ (46%N :: zeros j ++ D)).
    rewrite <- app_assoc.
    etransitivity.
    { apply (parse_json_unsigned_text negative [48%N] (zeros j ++ D)
               (46%N :: zeros j ++ D) false false [] rest);
        [ constructor; [reflexivity | exact Nil] | discriminate | reflexivity
        | apply Forall_app; split; [apply all_digits_zeros | exact A]
        | right; split; [| reflexivity]
        | exact Nil | discriminate | exact R ].
      destruct j; discriminate. }
    change ([48%N] ++ zeros j ++ D) with (zeros (S j) ++ D).
    rewrite digits_value_app, digits_value_zeros, V.
    rewrite N.mul_0_l, N.add_0_l, finite_canonical by exact Hm.
    same_exponent e. rewrite length_app, length_zeros.
    subst j n. cbn [length]. lia. }
  (* the exponent notation *)
  split; [| exact Hd].
  set (ex := (n - 1)%Z).
  set (tail := 101%N :: (if (0 <=? ex)%Z then 43%N else 45%N)
                     :: decimal_digits (Z.abs_N ex)).
  assert (T : tail = 101%N :: (if negb (0 <=? ex)%Z then 45%N else 43%N)
                           :: decimal_digits (Z.abs_N ex)).
  { unfold tail. now destruct (0 <=? ex)%Z. }
  assert (Shape : exists frac,
             (d :: match ds with
                   | [] => tail
                   | _ :: _ => 46%N :: ds ++ tail
                   end) ++ rest = [d] ++ frac ++ tail ++ rest
             /\ ((ds = [] /\ frac = []) \/ (ds <> [] /\ frac = 46%N :: ds))).
  { destruct ds as [| d2 ds'].
    - exists []. split; [reflexivity | now left].
    - exists (46%N :: d2 :: ds'). split.
      + cbn [app]. now rewrite <- app_assoc.
      + right. split; [discriminate | reflexivity]. }
  destruct Shape as [frac [Shape Frac]].
  unfold D. rewrite Shape, T.
  etransitivity.
  { apply (parse_json_unsigned_text negative [d] ds frac true
             (negb (0 <=? ex)%Z) (decimal_digits (Z.abs_N ex)) rest);
      [ constructor; [exact Hd | exact Nil] | discriminate | reflexivity
      | now inversion A | exact Frac | apply decimal_digits_all
      | intros _; destruct (decimal_digits_spec (Z.abs_N ex))
          as [c [t [-> _]]]; discriminate
      | exact R ]. }
  change ([d] ++ ds) with D. rewrite V, decimal_digits_value, signed_abs.
  rewrite finite_canonical by exact Hm.
  same_exponent e. subst ex n. lia.
Qed.

Lemma Number_toString_parses (x : number) (rest : jsstring) :
  json_number x = true ->
  ends_number rest = true ->
  parse_json_number (Number_toString x ++ rest) = Some (x, rest)
  /\ match Number_toString x ++ rest with
     | c :: _ => is_digit c || (c =? 45)%N = true
     | [] => False
     end.
Proof.
  destruct x as [| a | negative m e]; try discriminate.
  unfold json_number, Number_toString. intros J R.
  destruct (N.eqb_spec m 0) as [-> | M].
  - apply andb_prop in J as [Jn Je].
    apply negb_true_iff in Jn. apply Z.eqb_eq in Je. subst.
    split; [| reflexivity].
    unfold parse_json_number. change (js "0") with [48%N].
    cbn [app strip_char]. change (48 =? 45)%N with false. cbv iota.
    apply (parse_json_unsigned_text false [48%N] [] [] false false []
             rest);
      [ constructor; [reflexivity | constructor] | discriminate | reflexivity
      | constructor | now left | constructor | discriminate | exact R ].
  - apply negb_true_iff in J.
    assert (Hm : (m mod 10 <> 0)%N) by (now apply N.eqb_neq).
    destruct (decimal_text_parses negative m e rest Hm R) as [P B].
    unfold parse_json_number, sign_prefix. destruct negative.
    + cbn [app strip_char]. change (45 =? 45)%N with true. cbv iota.
      split; [exact P | reflexivity].
    + destruct (decimal_text m e ++ rest) as [| c t]; [discriminate |].
      cbn [begins_with_digit] in B. cbn [strip_char].
      assert (c45 : (c =? 45)%N = false).
      { apply is_digit_iff in B. apply N.eqb_neq. lia. }
      rewrite c45. split; [exact P |]. now rewrite B.
Qed.

(** ** Strings in JSON text *)

Lemma hex_value_digit (n : N) :
  (n < 16)%N -> hex_value (hex_digit n) = Some n.
Proof.
  intros H. unfold hex_value, digit_in_radix, hex_digit.
  destruct (N.ltb_spec n 10).
  - replace ((48 <=? 48 + n)%N && (48 + n <=? 57)%N) with true
      by (symmetry; apply andb_true_intro; split; apply N.leb_le; lia).
    replace (48 + n - 48 <? 16)%N with true by (symmetry; apply N.ltb_lt; lia).
    f_equal. lia.
  - replace ((48 <=? 87 + n)%N && (87 + n <=? 57)%N) with false
      by (symmetry; apply andb_false_iff; right; apply N.leb_gt; lia).
    replace ((97 <=? 87 + n)%N && (87 + n <=? 122)%N) with true
      by (symmetry; apply andb_true_intro; split; apply N.leb_le; lia).
    replace (87 + n - 87 <? 16)%N with true by (symmetry; apply N.ltb_lt; lia).
    f_equal. lia.
Qed.

Lemma UnicodeEscape_parses (c : code_unit) (t : jsstring) :
  (c < 65536)%N ->
  parse_string_body (UnicodeEscape c ++ t) = prepend c (parse_string_body t).
Proof.
  intros H. unfold UnicodeEscape. cbn [app parse_string_body].
  change (92 =? 34)%N with false. change (92 =? 92)%N with true.
  change (117 =? 117)%N with true. cbv iota.
  unfold hex4. rewrite !hex_value_digit by lia.
  replace (((c / 4096 * 16 + (c / 256) mod 16) * 16 + (c / 16) mod 16) * 16
           + c mod 16)%N with c by lia.
  reflexivity.
Qed.

Lemma literal_parses (c : code_unit) (t : jsstring) :
  (32 <= c)%N -> c <> 34%N -> c <> 92%N ->
  parse_string_body (c :: t) = prepend c (parse_string_body t).
Proof.
  intros H32 H34 H92. cbn [parse_string_body].
  destruct (N.eqb_spec c 34); [contradiction |].
  destruct (N.eqb_spec c 92); [contradiction |].
  destruct (N.ltb_spec c 32); [lia | reflexivity].
Qed.

Lemma quote_unit_parses (c : code_unit) (t : jsstring) :
  parse_string_body (quote_unit c ++ t) = prepend c (parse_string_body t).
Proof.
  unfold quote_unit.
  destruct (N.eqb_spec c 8) as [-> | N8]; [reflexivity |].
  destruct (N.eqb_spec c 9) as [-> | N9]; [reflexivity |].
  destruct (N.eqb_spec c 10) as [-> | N10]; [reflexivity |].
  destruct (N.eqb_spec c 12) as [-> | N12]; [reflexivity |].
  destruct (N.eqb_spec c 13) as [-> | N13]; [reflexivity |].
  destruct (N.eqb_spec c 34) as [-> | N34]; [reflexivity |].
  destruct (N.eqb_spec c 92) as [-> | N92]; [reflexivity |].
  unfold is_leading_surrogate, is_trailing_surrogate.
  destruct (N.ltb_spec c 32) as [L | L].
  - apply UnicodeEscape_parses. lia.
  - cbn [orb].
    destruct ((55296 <=? c)%N && (c <=? 56319)%N) eqn:S1.
    + apply andb_prop in S1 as [_ S1]. apply N.leb_le in S1.
      apply UnicodeEscape_parses. lia.
    + cbn [orb].
      destruct ((56320 <=? c)%N && (c <=? 57343)%N) eqn:S2.
      * apply andb_prop in S2 as [_ S2]. apply N.leb_le in S2.
        apply UnicodeEscape_parses. lia.
      * now apply literal_parses.
Qed.

Lemma surrogate_parses (c : code_unit) (t : jsstring) :
  is_leading_surrogate c || is_trailing_surrogate c = true ->
  parse_string_body (c :: t) = prepend c (parse_string_body t).
Proof.
  unfold is_leading_surrogate, is_trailing_surrogate. intros H.
  apply literal_parses; apply orb_prop in H as [H | H];
    apply andb_prop in H as [H _]; apply N.leb_le in H; lia.
Qed.

Lemma quote_units_pair (c d : code_unit) (r : jsstring) :
  quote_units (c :: d :: r) =
  if is_leading_surrogate c && is_trailing_surrogate d
  then c :: d :: quote_units r
  else quote_unit c ++ quote_units (d :: r).
Proof. reflexivity. Qed.

Lemma quote_units_parses (s rest : jsstring) :
  parse_string_body (quote_units s ++ 34%N :: rest) = Some (s, rest).
Proof.
  assert (G : forall n s, length s <= n ->
                parse_string_body (quote_units s ++ 34%N :: rest)
                = Some (s, rest)).
  { clear s. induction n as [| n IH]; intros s L.
    - destruct s; [reflexivity | cbn [length] in L; lia].
    - destruct s as [| c [| d r]]; [reflexivity | |].
      + cbn [quote_units]. rewrite quote_unit_parses. reflexivity.
      + rewrite quote_units_pair.
        destruct (is_leading_surrogate c && is_trailing_surrogate d) eqn:P.
        * apply andb_prop in P as [Pc Pd]. cbn [app].
          rewrite surrogate_parses by (now rewrite Pc).
          rewrite surrogate_parses by (now rewrite Pd, orb_true_r).
          rewrite IH by (cbn [length] in *; lia). reflexivity.
        * rewrite <- app_assoc, quote_unit_parses.
          rewrite IH by (cbn [length] in *; lia). reflexivity. }
  apply (G (length s)). lia.
Qed.

Lemma QuoteJSONString_parses (s rest : jsstring) :
  exists t, QuoteJSONString s ++ rest = 34%N :: t
            /\ parse_string_body t = Some (s, rest).
Proof.
  exists (quote_units s ++ 34%N :: rest). split.
  - unfold QuoteJSONString. cbn [app]. now rewrite <- app_assoc.
  - apply quote_units_parses.
Qed.

(** ** Induction on values *)

Lemma jsvalue_induction (P : jsvalue -> Prop) :
  P VUndefined -> P VNull -> (forall b, P (VBoolean b)) ->
  (forall x, P (VNumber x)) -> (forall s, P (VString s)) ->
  (forall z, P (VBigInt z)) -> (forall id d, P (VSymbol id d)) ->
  (forall id s, P (VFunction id s)) ->
  (forall id elements, Forall P elements -> P (VArray id elements)) ->
  (forall id members,
      Forall (fun m => P (snd m)) members -> P (VObject id members)) ->
  forall v, P v.
Proof.
  intros Hu Hn Hb Hx Hs Hz Hy Hf Ha Ho.
  fix IH 1. intros v. destruct v as [| | b | x | s | z | id d | id s
                                     | id elements | id members].
  - exact Hu.
  - exact Hn.
  - apply Hb.
  - apply Hx.
  - apply Hs.
  - apply Hz.
  - apply Hy.
  - apply Hf.
  - apply Ha. induction elements as [| e l IHl]; constructor.
    + apply IH.
    + exact IHl.
  - apply Ho. induction members as [| [k x] l IHl]; constructor.
    + apply IH.
    + exact IHl.
Qed.

(** ** The parser, one leading character at a time *)

Lemma parse_value_string (f : nat) (t : jsstring) :
  parse_value (S f) (34%N :: t) =
  match parse_string_body t with
  | Some (text, r) => Some (JString text, r)
  | None => None
  end.
Proof. reflexivity. Qed.

Lemma parse_value_array (f : nat) (r : jsstring) :
  parse_value (S f) (91%N :: r) =
  match strip_char 93 (skip_white_space r) with
  | Some r' => Some (JArray [], r')
  | None =>
      match parse_elements f r with
      | Some (l, r') => Some (JArray l, r')
      | None => None
      end
  end.
Proof. reflexivity. Qed.

Lemma parse_value_object (f : nat) (r : jsstring) :
  parse_value (S f) (123%N :: r) =
  match strip_char 125 (skip_white_space r) with
  | Some r' => Some (JObject [], r')
  | None =>
      match parse_members f r with
      | Some (l, r') => Some (JObject l, r')
      | None => None
      end
  end.
Proof. reflexivity. Qed.

Lemma parse_value_number (f : nat) (c : code_unit) (t : jsstring) :
  is_digit c || (c =? 45)%N = true ->
  parse_value (S f) (c :: t) =
  match parse_json_number (c :: t) with
  | Some (x, r) => Some (JNumber x, r)
  | None => None
  end.
Proof.
  intros H.
  assert (B : (48 <= c <= 57)%N \/ c = 45%N).
  { apply orb_prop in H as [H | H].
    - left. now apply is_digit_iff.
    - right. now apply N.eqb_eq. }
  cbn [parse_value skip_white_space]. unfold is_json_white_space.
  replace ((c =? 9)%N || (c =? 10)%N || (c =? 13)%N || (c =? 32)%N)
    with false by (symmetry; break_tests).
  cbn [starts_with js list_ascii_of_string map].
  replace (N_of_ascii "n" =? c)%N with false
    by (symmetry; apply N.eqb_neq; cbn; lia).
  replace (N_of_ascii "t" =? c)%N with false
    by (symmetry; apply N.eqb_neq; cbn; lia).
  replace (N_of_ascii "f" =? c)%N with false
    by (symmetry; apply N.eqb_neq; cbn; lia).
  cbn [andb].
  replace (c =? 34)%N with false by (symmetry; apply N.eqb_neq; lia).
  replace (c =? 91)%N with false by (symmetry; apply N.eqb_neq; lia).
  replace (c =? 123)%N with false by (symmetry; apply N.eqb_neq; lia).
  reflexivity.
Qed.

Lemma parse_elements_S (f : nat) (s : jsstring) :
  parse_elements (S f) s =
  match parse_value f s with
  | Some (j, r) =>
      match strip_char 44 (skip_white_space r) with
      | Some r' => prepend j (parse_elements f r')
      | None =>
          match strip_char 93 (skip_white_space r) with
          | Some r' => Some ([j], r')
          | None => None
          end
      end
  | None => None
  end.
Proof. reflexivity. Qed.

Lemma parse_members_S (f : nat) (s : jsstring) :
  parse_members (S f) s =
  match strip_char 34 (skip_white_space s) with
  | Some r =>
      match parse_string_body r with
      | Some (name, r1) =>
          match strip_char 58 (skip_white_space r1) with
          | Some r2 =>
              match parse_value f r2 with
              | Some (j, r3) =>
                  match strip_char 44 (skip_white_space r3) with
                  | Some r' => prepend (name, j) (parse_members f r')
                  | None =>
                      match strip_char 125 (skip_white_space r3) with
                      | Some r' => Some ([(name, j)], r')
                      | None => None
                      end
                  end
              | None => None
              end
          | None => None
          end
      | None => None
      end
  | None => None
  end.
Proof. reflexivity. Qed.

Lemma strip_char_same (c : code_unit) (t : jsstring) :
  strip_char c (c :: t) = Some t.
Proof. cbn [strip_char]. now rewrite N.eqb_refl. Qed.

Lemma skip_white_space_start (c : code_unit) (t : jsstring) :
  is_json_white_space c = false -> skip_white_space (c :: t) = c :: t.
Proof. intros H. cbn [skip_white_space]. now rewrite H. Qed.

(** ** The fuel of the parser *)

Lemma skip_white_space_length (s : jsstring) :
  length (skip_white_space s) <= length s.
Proof.
  induction s as [| c s IH]; [reflexivity |].
  cbn [skip_white_space]. destruct (is_json_white_space c); cbn [length]; lia.
Qed.

Lemma strip_char_length (c : code_unit) (s r : jsstring) :
  strip_char c s = Some r -> length s = S (length r).
Proof.
  destruct s as [| d s]; [discriminate |]. cbn [strip_char].
  destruct (d =? c)%N; [| discriminate]. now intros [= ->].
Qed.

Lemma strip_sign_length (s : jsstring) :
  length (snd (strip_sign s)) <= length s.
Proof.
  unfold strip_sign.
  destruct (strip_char 45 s) as [r |] eqn:M.
  - apply strip_char_length in M. cbn [snd]. lia.
  - destruct (strip_char 43 s) as [r |] eqn:P; cbn [snd]; [| lia].
    apply strip_char_length in P. lia.
Qed.

Lemma span_length (p : code_unit -> bool) (s : jsstring) :
  length s = length (fst (span p s)) + length (snd (span p s)).
Proof.
  induction s as [| c s IH]; [reflexivity |].
  cbn [span]. destruct (p c); [| reflexivity].
  destruct (span p s). cbn [fst snd length] in *. lia.
Qed.

Lemma starts_with_length (p s : jsstring) :
  starts_with p s = true -> length p <= length s.
Proof.
  revert s. induction p as [| c p IH]; intros s H; cbn [length]; [lia |].
  destruct s as [| d s]; [discriminate |]. cbn [starts_with] in H.
  apply andb_prop in H as [_ H]. apply IH in H. cbn [length]. lia.
Qed.

Lemma prepend_Some {A B : Type} (a : A) (x : option (list A * B))
  (l : list A) (r : B) :
  prepend a x = Some (l, r) -> exists l', l = a :: l' /\ x = Some (l', r).
Proof.
  destruct x as [[l' r'] |]; [| discriminate].
  cbn [prepend]. intros [= <- <-]. eauto.
Qed.

Lemma parse_string_body_length (s t r : jsstring) :
  parse_string_body s = Some (t, r) -> length r < length s.
Proof.
  assert (G : forall n s t r, length s <= n ->
                parse_string_body s = Some (t, r) -> length r < length s).
  { clear s t r. induction n as [| n IH]; intros s t r L H.
    - destruct s; [discriminate | cbn [length] in L; lia].
    - destruct s as [| c s1]; [discriminate |].
      cbn [parse_string_body] in H. cbn [length] in *.
      destruct (c =? 34)%N; [injection H as <- <-; lia |].
      destruct (c =? 92)%N.
      + destruct s1 as [| e s2]; [discriminate |]. cbn [length] in *.
        destruct (e =? 117)%N.
        * destruct s2 as [| a [| b [| c' [| d s3]]]]; try discriminate.
          destruct (hex4 a b c' d); [| discriminate].
          apply prepend_Some in H as [t' [_ H]].
          apply IH in H; cbn [length] in *; lia.
        * destruct (simple_escape e); [| discriminate].
          apply prepend_Some in H as [t' [_ H]].
          apply IH in H; lia.
      + destruct (c <? 32)%N; [discriminate |].
        apply prepend_Some in H as [t' [_ H]].
        apply IH in H; lia. }
  apply (G (length s)). lia.
Qed.

Lemma parse_json_number_length (s : jsstring) (x : number) (r : jsstring) :
  parse_json_number s = Some (x, r) -> length r < length s.
Proof.
  assert (U : forall negative s1,
             parse_json_unsigned negative s1 = Some (x, r) ->
             length r < length s1).
  { intros negative s1. unfold parse_json_unsigned.
    pose proof (span_length is_digit s1) as L1.
    destruct (span is_digit s1) as [ip r1]. cbn [fst snd] in L1.
    destruct ip as [| d ip']; [discriminate |]. cbn [length] in L1.
    destruct ((d =? 48)%N && _); [discriminate |].
    unfold parse_json_fraction.
    assert (F : forall fp r2,
               match strip_char 46 r1 with
               | Some r0 =>
                   let (fp, r') := span is_digit r0 in
                   match fp with
                   | [] => None
                   | _ :: _ => Some (fp, r')
                   end
               | None => Some ([], r1)
               end = Some (fp, r2) -> length r2 <= length r1).
    { intros fp r2. destruct (strip_char 46 r1) as [r0 |] eqn:P.
      - apply strip_char_length in P.
        pose proof (span_length is_digit r0) as L0.
        destruct (span is_digit r0) as [fp0 r']. cbn [fst snd] in L0.
        destruct fp0; [discriminate |]. intros [= <- <-]. lia.
      - intros [= <- <-]. lia. }
    destruct (match strip_char 46 r1 with
              | Some r0 => _
              | None => _
              end) as [[fp r2] |]; [| discriminate].
    specialize (F fp r2 eq_refl).
    unfold parse_json_exponent.
    destruct r2 as [| c r4].
    - intros [= <- <-]. cbn [length] in *. lia.
    - destruct ((c =? 101)%N || (c =? 69)%N).
      + pose proof (strip_sign_length r4) as L4.
        destruct (strip_sign r4) as [eneg r5]. cbn [snd] in L4.
        pose proof (span_length is_digit r5) as L5.
        destruct (span is_digit r5) as [ds r6]. cbn [fst snd] in L5.
        destruct ds; [discriminate |]. intros [= <- <-].
        cbn [length] in *. lia.
      + intros [= <- <-]. lia. }
  unfold parse_json_number.
  destruct (strip_char 45 s) as [r0 |] eqn:M.
  - apply strip_char_length in M. intros H. apply U in H. lia.
  - apply U.
Qed.

Lemma parse_value_S (f : nat) (s : jsstring) :
  parse_value (S f) s =
  let t := skip_white_space s in
  match t with
  | [] => None
  | c :: r =>
      if starts_with (js "null") t then Some (JNull, skipn 4 t)
      else if starts_with (js "true") t then Some (JBool true, skipn 4 t)
      else if starts_with (js "false") t then Some (JBool false, skipn 5 t)
      else if (c =? 34)%N then
        match parse_string_body r with
        | Some (text, r') => Some (JString text, r')
        | None => None
        end
      else if (c =? 91)%N then
        match strip_char 93 (skip_white_space r) with
        | Some r' => Some (JArray [], r')
        | None =>
            match parse_elements f r with
            | Some (l, r') => Some (JArray l, r')
            | None => None
            end
        end
      else if (c =? 123)%N then
        match strip_char 125 (skip_white_space r) with
        | Some r' => Some (JObject [], r')
        | None =>
            match parse_members f r with
            | Some (l, r') => Some (JObject l, r')
            | None => None
            end
        end
      else
        match parse_json_number t with
        | Some (x, r') => Some (JNumber x, r')
        | None => None
        end
  end.
Proof. reflexivity. Qed.

Lemma parser_fuel_free (f : nat) :
  fuel_free parse_value f /\ fuel_free parse_elements f
  /\ fuel_free parse_members f.
Proof.
  induction f as [| f [IHv [IHe IHm]]].
  { split; [| split]; intros s a r H; discriminate. }
  split; [| split]; intros s a r H.
  - (* a value *)
    rewrite parse_value_S in H. cbv zeta in H.
    pose proof (skip_white_space_length s) as Ls.
    destruct (skip_white_space s) as [| c r0] eqn:T; [discriminate |].
    cbn [length] in Ls.
    assert (Free : (forall f', parse_value (S f') s = Some (a, r)) ->
                   length r <= length r0 ->
                   length r < length s
                   /\ forall f', length s - length r < f' ->
                                 parse_value f' s = Some (a, r)).
    { intros G L. split; [lia |].
      intros f' F. destruct f'; [lia | apply G]. }
    assert (Skip : forall n, n <> 0 -> n <= length (c :: r0) ->
                     length (skipn n (c :: r0)) <= length r0).
    { intros n N0 N. rewrite length_skipn. cbn [length] in *. lia. }
    destruct (starts_with (js "null") (c :: r0)) eqn:N1.
    { assert (Ea : a = JNull) by congruence.
      assert (Er : r = skipn 4 (c :: r0)) by congruence.
      apply Free.
      - intros f'. rewrite parse_value_S, T. cbv zeta.
        now rewrite N1, Ea, Er.
      - rewrite Er. apply Skip; [discriminate |].
        apply (starts_with_length _ _ N1). }
    destruct (starts_with (js "true") (c :: r0)) eqn:N2.
    { assert (Ea : a = JBool true) by congruence.
      assert (Er : r = skipn 4 (c :: r0)) by congruence.
      apply Free.
      - intros f'. rewrite parse_value_S, T. cbv zeta.
        now rewrite N1, N2, Ea, Er.
      - rewrite Er. apply Skip; [discriminate |].
        apply (starts_with_length _ _ N2). }
    destruct (starts_with (js "false") (c :: r0)) eqn:N3.
    { assert (Ea : a = JBool false) by congruence.
      assert (Er : r = skipn 5 (c :: r0)) by congruence.
      apply Free.
      - intros f'. rewrite parse_value_S, T. cbv zeta.
        now rewrite N1, N2, N3, Ea, Er.
      - rewrite Er. apply Skip; [discriminate |].
        apply (starts_with_length _ _ N3). }
    destruct (c =? 34)%N eqn:C1.
    { destruct (parse_string_body r0) as [[text r'] |] eqn:P;
        [| discriminate].
      injection H as <- <-. apply parse_string_body_length in P as L.
      apply Free; [| lia].
      intros f'. rewrite parse_value_S, T. cbv zeta.
      now rewrite N1, N2, N3, C1, P. }
    destruct (c =? 91)%N eqn:C2.
    { destruct (strip_char 93 (skip_white_space r0)) as [r' |] eqn:B.
      - injection H as <- <-.
        pose proof (skip_white_space_length r0) as L0.
        apply strip_char_length in B as L.
        apply Free; [| lia].
        intros f'. rewrite parse_value_S, T. cbv zeta.
        now rewrite N1, N2, N3, C1, C2, B.
      - destruct (parse_elements f r0) as [[l r'] |] eqn:P; [| discriminate].
        injection H as <- <-. destruct (IHe r0 l r' P) as [L G].
        split; [lia |]. intros f' F. destruct f' as [| f']; [lia |].
        rewrite parse_value_S, T. cbv zeta.
        rewrite N1, N2, N3, C1, C2, B, G by lia. reflexivity. }
    destruct (c =? 123)%N eqn:C3.
    { destruct (strip_char 125 (skip_white_space r0)) as [r' |] eqn:B.
      - injection H as <- <-.
        pose proof (skip_white_space_length r0) as L0.
        apply strip_char_length in B as L.
        apply Free; [| lia].
        intros f'. rewrite parse_value_S, T. cbv zeta.
        now rewrite N1, N2, N3, C1, C2, C3, B.
      - destruct (parse_members f r0) as [[l r'] |] eqn:P; [| discriminate].
        injection H as <- <-. destruct (IHm r0 l r' P) as [L G].
        split; [lia |]. intros f' F. destruct f' as [| f']; [lia |].
        rewrite parse_value_S, T. cbv zeta.
        rewrite N1, N2, N3, C1, C2, C3, B, G by lia. reflexivity. }
    destruct (parse_json_number (c :: r0)) as [[x r'] |] eqn:P;
      [| discriminate].
    injection H as <- <-. apply parse_json_number_length in P as L.
    cbn [length] in L.
    apply Free; [| lia].
    intros f'. rewrite parse_value_S, T. cbv zeta.
    now rewrite N1, N2, N3, C1, C2, C3, P.
  - (* the elements of an array *)
    rewrite parse_elements_S in H.
    destruct (parse_value f s) as [[j r1] |] eqn:P; [| discriminate].
    destruct (IHv s j r1 P) as [L1 G1].
    pose proof (skip_white_space_length r1) as Lw.
    destruct (strip_char 44 (skip_white_space r1)) as [r2 |] eqn:B.
    + apply strip_char_length in B as L2.
      apply prepend_Some in H as [l' [-> H]].
      destruct (IHe r2 l' r H) as [L G].
      split; [lia |]. intros f' F. destruct f' as [| f']; [lia |].
      rewrite parse_elements_S, G1, B, G by lia. reflexivity.
    + destruct (strip_char 93 (skip_white_space r1)) as [r2 |] eqn:B2;
        [| discriminate].
      injection H as <- <-. apply strip_char_length in B2 as L2.
      split; [lia |]. intros f' F. destruct f' as [| f']; [lia |].
      rewrite parse_elements_S, G1, B, B2 by lia. reflexivity.
  - (* the members of an object *)
    rewrite parse_members_S in H.
    pose proof (skip_white_space_length s) as Ls.
    destruct (strip_char 34 (skip_white_space s)) as [r0 |] eqn:Q;
      [| discriminate].
    apply strip_char_length in Q as L0.
    destruct (parse_string_body r0) as [[name r1] |] eqn:K; [| discriminate].
    apply parse_string_body_length in K as L1.
    pose proof (skip_white_space_length r1) as Lw1.
    destruct (strip_char 58 (skip_white_space r1)) as [r2 |] eqn:Cn;
      [| discriminate].
    apply strip_char_length in Cn as L2.
    destruct (parse_value f r2) as [[j r3] |] eqn:P; [| discriminate].
    destruct (IHv r2 j r3 P) as [L3 G3].
    pose proof (skip_white_space_length r3) as Lw3.
    destruct (strip_char 44 (skip_white_space r3)) as [r4 |] eqn:B.
    + apply strip_char_length in B as L4.
      apply prepend_Some in H as [l' [-> H]].
      destruct (IHm r4 l' r H) as [L G].
      split; [lia |]. intros f' F. destruct f' as [| f']; [lia |].
      rewrite parse_members_S, Q, K, Cn, G3, B, G by lia. reflexivity.
    + destruct (strip_char 125 (skip_white_space r3)) as [r4 |] eqn:B2;
        [| discriminate].
      injection H as <- <-. apply strip_char_length in B2 as L4.
      split; [lia |]. intros f' F. destruct f' as [| f']; [lia |].
      rewrite parse_members_S, Q, K, Cn, G3, B, B2 by lia. reflexivity.
Qed.

(** The fuel [parse_json_text] gives is enough for every text: a text that
    parses on some fuel parses on that one, with the same tree. *)
Lemma parse_json_text_fuel (s : jsstring) (j : json) :
  parse_json_text s = Some j <->
  exists f r, parse_value f s = Some (j, r) /\ skip_white_space r = [].
Proof.
  unfold parse_json_text. split.
  - destruct (parse_value (2 * length s + 2) s) as [[j' r] |] eqn:P;
      [| discriminate].
    destruct (skip_white_space r) eqn:W; [| discriminate].
    intros [= <-]. eauto.
  - intros [f [r [P W]]].
    destruct (parser_fuel_free f) as [V _].
    destruct (V s j r P) as [_ G].
    rewrite (G (2 * length s + 2)) by lia. now rewrite W.
Qed.

(** ** What JSON.stringify writes, JSON.parse reads *)

Lemma reads_as_literal (text : jsstring) (j : json) :
  (forall f rest, parse_value (S f) (text ++ rest) = Some (j, rest)) ->
  (exists c t, text = c :: t /\ is_json_white_space c = false
               /\ (c =? 93)%N = false) ->
  reads_as text j.
Proof.
  intros P H. split; [exact H |].
  intros fuel rest L _. destruct fuel; [lia | apply P].
Qed.

Lemma reads_as_null : reads_as (js "null") JNull.
Proof. apply reads_as_literal; [reflexivity | now eexists _, _]. Qed.

Lemma reads_as_boolean (b : bool) :
  reads_as (if b then js "true" else js "false") (JBool b).
Proof.
  destruct b; (apply reads_as_literal; [reflexivity | now eexists _, _]).
Qed.

Lemma reads_as_string (s : jsstring) :
  reads_as (QuoteJSONString s) (JString s).
Proof.
  apply reads_as_literal.
  - intros f rest. destruct (QuoteJSONString_parses s rest) as [t [-> P]].
    now rewrite parse_value_string, P.
  - now eexists _, _.
Qed.

Lemma reads_as_number (x : number) :
  json_number x = true -> reads_as (Number_toString x) (JNumber x).
Proof.
  intros J.
  destruct (Number_toString_parses x [] J eq_refl) as [_ H].
  rewrite app_nil_r in H.
  destruct (Number_toString x) as [| c t] eqn:E; [contradiction |].
  split.
  - exists c, t. split; [reflexivity |].
    assert (B : (48 <= c <= 57)%N \/ c = 45%N).
    { apply orb_prop in H as [H | H].
      - left. now apply is_digit_iff.
      - right. now apply N.eqb_eq. }
    unfold is_json_white_space. split; break_tests.
  - intros fuel rest L R. destruct fuel; [lia |].
    cbn [app]. rewrite parse_value_number by exact H.
    change (c :: t ++ rest) with ((c :: t) ++ rest). rewrite <- E.
    destruct (Number_toString_parses x rest J R) as [P _].
    now rewrite P.
Qed.

Lemma dropped_has_no_representation (name : jsstring) (x : jsvalue) :
  dropped_by_JSON (KString name) x = true ->
  SerializeJSONProperty x = Return None.
Proof. destruct x; simpl; congruence. Qed.

Lemma join_comma_cons (p : jsstring) (rest : list jsstring) :
  join_comma (p :: rest) =
  match rest with
  | [] => p
  | _ => p ++ 44%N :: join_comma rest
  end.
Proof. reflexivity. Qed.

(** The elements of a non-empty array, up to the closing bracket. *)
Lemma elements_read (l : list jsvalue) :
  Forall (fun e => json_faithful e = true ->
                   exists text, SerializeJSONProperty e = Return (Some text)
                                /\ reads_as text (json_of e)) l ->
  forallb json_faithful l = true ->
  exists texts,
    serialize_elements SerializeJSONProperty l = Return texts
    /\ (l = [] -> texts = [])
    /\ (l <> [] ->
        (exists c t, join_comma texts = c :: t
                     /\ is_json_white_space c = false
                     /\ (c =? 93)%N = false)
        /\ forall fuel rest,
            length (join_comma texts) + 1 < fuel ->
            parse_elements fuel (join_comma texts ++ 93%N :: rest)
            = Some (map json_of l, rest)).
Proof.
  intros IH. induction IH as [| e l He _ IHl]; intros F.
  - exists []. repeat split; congruence.
  - cbn [forallb] in F. apply andb_prop in F as [Fe Fl].
    destruct (He Fe) as [text [Se [[c [t [Et [Wc Bc]]]] Pe]]].
    destruct (IHl Fl) as [texts [Sl [Nl Cl]]].
    exists (text :: texts). cbn [serialize_elements]. rewrite Se, Sl.
    split; [reflexivity |]. split; [discriminate |]. intros _.
    rewrite join_comma_cons.
    destruct l as [| e2 l'].
    + rewrite (Nl eq_refl). split; [now exists c, t |].
      intros fuel rest L. destruct fuel as [| f]; [lia |].
      rewrite parse_elements_S, Pe by (reflexivity || lia).
      reflexivity.
    + destruct (Cl ltac:(discriminate)) as [[c2 [t2 [E2 _]]] Pl].
      destruct texts as [| text2 texts']; [discriminate |].
      split.
      * exists c, (t ++ 44%N :: join_comma (text2 :: texts')).
        now rewrite Et.
      * intros fuel rest L. destruct fuel as [| f]; [lia |].
        rewrite length_app in L. cbn [length] in L.
        rewrite parse_elements_S, <- app_assoc, Pe
          by (reflexivity || lia).
        cbn [app]. rewrite skip_white_space_start by reflexivity.
        rewrite strip_char_same, Pl by lia. reflexivity.
Qed.

Lemma reads_as_array (l : list jsvalue) (texts : list jsstring) :
  (l = [] -> texts = []) ->
  (l <> [] ->
   (exists c t, join_comma texts = c :: t
                /\ is_json_white_space c = false
                /\ (c =? 93)%N = false)
   /\ forall fuel rest,
       length (join_comma texts) + 1 < fuel ->
       parse_elements fuel (join_comma texts ++ 93%N :: rest)
       = Some (map json_of l, rest)) ->
  reads_as (91%N :: join_comma texts ++ [93%N]) (JArray (map json_of l)).
Proof.
  intros Nl Cl. split; [now eexists _, _ |].
  intros fuel rest L _. destruct fuel as [| f]; [lia |].
  cbn [length] in L. rewrite length_app in L. cbn [length] in L.
  cbn [app]. rewrite parse_value_array, <- app_assoc. cbn [app].
  destruct l as [| e l'].
  - rewrite (Nl eq_refl). reflexivity.
  - destruct (Cl ltac:(discriminate)) as [[c [t [E [Wc Bc]]]] P].
    rewrite E. cbn [app]. rewrite skip_white_space_start by exact Wc.
    cbn [strip_char]. rewrite Bc.
    change (c :: t ++ 93%N :: rest) with ((c :: t) ++ 93%N :: rest).
    rewrite <- E, P by lia. reflexivity.
Qed.

Lemma members_faithful (ms : list (property_key * jsvalue)) :
  forallb (fun '(k, x) =>
             negb (is_toJSON_method k x)
             && (dropped_by_JSON k x || json_faithful x)) ms = true ->
  forallb (fun '(k, x) => dropped_by_JSON k x || json_faithful x) ms = true.
Proof.
  induction ms as [| [k x] ms IH]; [reflexivity |].
  cbn [forallb]. intros H. apply andb_prop in H as [H1 H2].
  apply andb_prop in H1 as [_ H1]. now rewrite H1, IH.
Qed.

(** The members of an object that are written, up to the closing brace. *)
Lemma members_read (ms : list (property_key * jsvalue)) :
  Forall (fun m => json_faithful (snd m) = true ->
                   exists text,
                     SerializeJSONProperty (snd m) = Return (Some text)
                     /\ reads_as text (json_of (snd m))) ms ->
  forallb (fun '(k, x) => dropped_by_JSON k x || json_faithful x) ms = true ->
  exists texts,
    serialize_members SerializeJSONProperty ms = Return texts
    /\ (json_members ms = [] -> texts = [])
    /\ (json_members ms <> [] ->
        (exists t, join_comma texts = 34%N :: t)
        /\ forall fuel rest,
            length (join_comma texts) + 1 < fuel ->
            parse_members fuel (join_comma texts ++ 125%N :: rest)
            = Some (json_members ms, rest)).
Proof.
  intros IH. induction IH as [| [k x] l Hx _ IHl]; intros F.
  - exists []. split; [reflexivity |]. split; [reflexivity |].
    intros H. now elim H.
  - cbn [forallb] in F. apply andb_prop in F as [Fx Fl].
    destruct (IHl Fl) as [texts [Sl [Nl Cl]]].
    destruct k as [name | id description]; [| now exists texts].
    destruct (dropped_by_JSON (KString name) x) eqn:D.
    { exists texts. cbn [serialize_members].
      rewrite (dropped_has_no_representation name x D), Sl.
      unfold json_members in *. cbn [flat_map]. rewrite D.
      now split. }
    cbn [orb snd] in Fx, Hx.
    destruct (Hx Fx) as [text [Sx [_ Px]]].
    exists ((QuoteJSONString name ++ 58%N :: text) :: texts).
    cbn [serialize_members]. rewrite Sx, Sl.
    split; [reflexivity |].
    assert (J : json_members ((KString name, x) :: l)
                = (name, json_of x) :: json_members l).
    { unfold json_members. cbn [flat_map]. now rewrite D. }
    rewrite J. split; [discriminate |]. intros _.
    rewrite join_comma_cons.
    assert (Member : forall tail,
               exists t,
                 (QuoteJSONString name ++ 58%N :: text) ++ tail = 34%N :: t
                 /\ parse_string_body t
                    = Some (name, 58%N :: text ++ tail)).
    { intros tail.
      destruct (QuoteJSONString_parses name (58%N :: text ++ tail))
        as [t [E P]].
      exists t. split; [| exact P].
      rewrite <- E, <- app_assoc. reflexivity. }
    destruct (json_members l) as [| m members] eqn:Jl.
    + rewrite (Nl eq_refl). split.
      * destruct (Member []) as [t [E _]]. rewrite app_nil_r in E. eauto.
      * intros fuel rest L. destruct fuel as [| f]; [lia |].
        rewrite length_app in L. cbn [length] in L.
        destruct (Member (125%N :: rest)) as [t [E P]].
        rewrite parse_members_S, E.
        rewrite skip_white_space_start, strip_char_same, P by reflexivity.
        rewrite skip_white_space_start, strip_char_same by reflexivity.
        rewrite Px by (reflexivity || lia). reflexivity.
    + destruct (Cl ltac:(discriminate)) as [[t2 E2] Pl].
      destruct texts as [| text2 texts']; [discriminate |].
      split.
      * destruct (Member (44%N :: join_comma (text2 :: texts')))
          as [t [E _]]. eauto.
      * intros fuel rest L. destruct fuel as [| f]; [lia |].
        cbn [length] in L.
        repeat (rewrite length_app in L; cbn [length] in L).
        destruct (Member (44%N :: join_comma (text2 :: texts')
                                 ++ 125%N :: rest)) as [t [E P]].
        rewrite parse_members_S, <- app_assoc. cbn [app].
        change ((QuoteJSONString name ++ 58%N :: text)
                ++ 44%N :: join_comma (text2 :: texts') ++ 125%N :: rest)
          with ((QuoteJSONString name ++ 58%N :: text)
                ++ (44%N :: join_comma (text2 :: texts') ++ 125%N :: rest)).
        rewrite E.
        rewrite skip_white_space_start, strip_char_same, P by reflexivity.
        rewrite skip_white_space_start, strip_char_same by reflexivity.
        rewrite Px by (reflexivity || lia).
        rewrite skip_white_space_start, strip_char_same by reflexivity.
        rewrite Pl by lia. reflexivity.
Qed.

Lemma reads_as_object (ms : list (property_key * jsvalue))
  (texts : list jsstring) :
  (json_members ms = [] -> texts = []) ->
  (json_members ms <> [] ->
   (exists t, join_comma texts = 34%N :: t)
   /\ forall fuel rest,
       length (join_comma texts) + 1 < fuel ->
       parse_members fuel (join_comma texts ++ 125%N :: rest)
       = Some (json_members ms, rest)) ->
  reads_as (123%N :: join_comma texts ++ [125%N]) (JObject (json_members ms)).
Proof.
  intros Nl Cl. split; [now eexists _, _ |].
  intros fuel rest L _. destruct fuel as [| f]; [lia |].
  cbn [length] in L. rewrite length_app in L. cbn [length] in L.
  cbn [app]. rewrite parse_value_object, <- app_assoc. cbn [app].
  destruct (json_members ms) as [| m members] eqn:J.
  - rewrite (Nl eq_refl). reflexivity.
  - destruct (Cl ltac:(discriminate)) as [[t E] P].
    rewrite E. cbn [app]. rewrite skip_white_space_start by reflexivity.
    change (strip_char 125 (34%N :: t ++ 125%N :: rest)) with (@None jsstring).
    change (34%N :: t ++ 125%N :: rest) with ((34%N :: t) ++ 125%N :: rest).
    rewrite <- E, P by lia. reflexivity.
Qed.

(** For a value JSON text can carry, [JSON.stringify] writes a text from
    which the parser reads the tree of that value. *)
Lemma serialize_reads (v : jsvalue) :
  json_faithful v = true ->
  exists text,
    SerializeJSONProperty v = Return (Some text)
    /\ reads_as text (json_of v).
Proof.
  induction v as [| | b | x | s | z | id d | id s | id l IH | id ms IH]
    using jsvalue_induction; intros F; try discriminate.
  - exists (js "null"). split; [reflexivity | apply reads_as_null].
  - eexists. split; [reflexivity | apply reads_as_boolean].
  - cbn [json_faithful] in F. exists (Number_toString x). split.
    + destruct x; try discriminate. reflexivity.
    + now apply reads_as_number.
  - eexists. split; [reflexivity | apply reads_as_string].
  - cbn [json_faithful] in F.
    destruct (elements_read l IH F) as [texts [S [Nl Cl]]].
    eexists. cbn [SerializeJSONProperty]. rewrite S. split; [reflexivity |].
    now apply reads_as_array.
  - cbn [json_faithful] in F. apply andb_prop in F as [_ F].
    apply members_faithful in F.
    destruct (members_read ms IH F) as [texts [S [Nl Cl]]].
    eexists. cbn [SerializeJSONProperty]. rewrite S. split; [reflexivity |].
    now apply reads_as_object.
Qed.

(** ** The value JSON.parse builds *)

Lemma jsstring_eqb_sym (s t : jsstring) : jsstring_eqb s t = jsstring_eqb t s.
Proof.
  unfold jsstring_eqb.
  destruct (list_eq_dec N.eq_dec s t), (list_eq_dec N.eq_dec t s);
    congruence.
Qed.

(** A key that no member has, and that goes before none of them, is
    defined after all of them. *)
Lemma define_property_last (acc : list (property_key * jsvalue))
  (k : jsstring) (v : jsvalue) :
  Forall (fun m => is_key k (fst m) = false
                   /\ goes_before k (fst m) = false) acc ->
  define_property acc k v = acc ++ [(KString k, v)].
Proof.
  intros H. unfold define_property.
  assert (E : existsb (fun m => is_key k (fst m)) acc = false).
  { induction H as [| m l [Hm _] _ IH]; [reflexivity |].
    cbn [existsb]. now rewrite Hm, IH. }
  rewrite E. clear E.
  induction H as [| [k' v'] l [_ Hm] _ IH]; [reflexivity |].
  cbn [insert_member app]. cbn [fst] in Hm. now rewrite Hm, IH.
Qed.

Lemma build_elements_structure (l : list jsvalue) :
  Forall (fun e => json_faithful e = true ->
                   forall n, structure (fst (build n (json_of e)))
                             = structure (without_members dropped_by_JSON e))
    l ->
  forallb json_faithful l = true ->
  forall n,
    map structure (fst (build_elements build n (map json_of l)))
    = map structure (map (without_members dropped_by_JSON) l).
Proof.
  intros IH. induction IH as [| e l He _ IHl]; intros F n; [reflexivity |].
  cbn [forallb] in F. apply andb_prop in F as [Fe Fl].
  cbn [map build_elements].
  specialize (He Fe n). destruct (build n (json_of e)) as [v n1].
  specialize (IHl Fl n1).
  destruct (build_elements build n1 (map json_of l)) as [vs n2].
  cbn [fst map] in *. now rewrite He, IHl.
Qed.

Lemma build_members_structure (l : list (property_key * jsvalue)) :
  Forall (fun m => json_faithful (snd m) = true ->
                   forall n, structure (fst (build n (json_of (snd m))))
                             = structure
                                 (without_members dropped_by_JSON (snd m)))
    l ->
  forallb (fun '(k, x) => dropped_by_JSON k x || json_faithful x) l = true ->
  own_key_order (kept_keys l) = true ->
  forall n acc,
    Forall (fun name =>
              Forall (fun m => is_key name (fst m) = false
                               /\ goes_before name (fst m) = false) acc)
      (kept_keys l) ->
    exists added,
      fst (build_members build n acc (json_members l)) = acc ++ added
      /\ map member_structure added
         = map member_structure
             (flat_map (fun '(k, x) =>
                          if dropped_by_JSON k x then []
                          else [(k, without_members dropped_by_JSON x)]) l).
Proof.
  intros IH. induction IH as [| [k x] l Hx _ IHl]; intros F O n acc A.
  - exists []. now rewrite app_nil_r.
  - cbn [forallb] in F. apply andb_prop in F as [Fx Fl].
    destruct k as [name | id description];
      [| (* a symbol for key: not in the text *)
         apply (IHl Fl O n acc A)].
    destruct (dropped_by_JSON (KString name) x) eqn:D.
    { (* a member without representation: not in the text *)
      assert (K : kept_keys ((KString name, x) :: l) = kept_keys l).
      { unfold kept_keys. cbn [flat_map]. now rewrite D. }
      assert (J : json_members ((KString name, x) :: l) = json_members l).
      { unfold json_members. cbn [flat_map]. now rewrite D. }
      rewrite K in O, A. rewrite J. cbn [flat_map]. rewrite D.
      apply (IHl Fl O n acc A). }
    cbn [orb snd] in Fx, Hx.
    assert (K : kept_keys ((KString name, x) :: l) = name :: kept_keys l).
    { unfold kept_keys. cbn [flat_map]. now rewrite D. }
    assert (J : json_members ((KString name, x) :: l)
                = (name, json_of x) :: json_members l).
    { unfold json_members. cbn [flat_map]. now rewrite D. }
    rewrite K in O, A. rewrite J. cbn [own_key_order] in O.
    apply andb_prop in O as [On O].
    inversion A as [| ? ? An A' ]; subst.
    cbn [build_members flat_map]. rewrite D.
    specialize (Hx Fx n). destruct (build n (json_of x)) as [v n1].
    cbn [fst] in Hx.
    rewrite (define_property_last acc name v An).
    destruct (IHl Fl O n1 (acc ++ [(KString name, v)])) as [added [E S]].
    { rewrite forallb_forall in On.
      apply Forall_forall. intros name' I.
      apply Forall_app. split.
      - rewrite Forall_forall in A'. now apply A'.
      - constructor; [| constructor]. cbn [fst is_key].
        specialize (On name' I). apply andb_prop in On as [N1 N2].
        apply negb_true_iff in N1. apply negb_true_iff in N2.
        now rewrite jsstring_eqb_sym. }
    exists ((KString name, v) :: added). split.
    + rewrite E, <- app_assoc. reflexivity.
    + cbn [app map member_structure key_structure]. now rewrite Hx, S.
Qed.

(** For a value JSON text can carry, the value built from its tree is the
    value itself without the members that are left out, identities
    apart. *)
Lemma build_json_of (v : jsvalue) :
  json_faithful v = true ->
  forall n,
    structure (fst (build n (json_of v)))
    = structure (without_members dropped_by_JSON v).
Proof.
  induction v as [| | b | x | s | z | id d | id s | id l IH | id ms IH]
    using jsvalue_induction; intros F n; try discriminate;
    try reflexivity.
  - cbn [json_faithful] in F.
    pose proof (build_elements_structure l IH F (S n)) as E.
    cbn [json_of build without_members structure].
    destruct (build_elements build (S n) (map json_of l)) as [vs n'].
    cbn [fst structure] in *. now rewrite E.
  - cbn [json_faithful] in F. apply andb_prop in F as [O F].
    apply members_faithful in F.
    destruct (build_members_structure ms IH F O (S n) []) as [added [E M]].
    { apply Forall_forall. intros; constructor. }
    cbn [json_of build without_members structure].
    fold (json_members ms).
    destruct (build_members build (S n) [] (json_members ms)) as [built n'].
    cbn [fst app structure] in *. subst built. f_equal. exact M.
Qed.

(* ================================================================== *)
(** * The claims of the specification *)

(** ** addValues *)

(** C2.  For arrays [a] and [b], [addValues(a, b)] returns an array that
    is neither [a] nor [b] (it has the identity the platform gives out
    next, which no existing object has), whose elements are those of [a]
    followed by those of [b], each at its place and none removed, so that
    its length is [a.length + b.length]. *)
Theorem addValues_arrays_concat :
  forall (fresh ia ib : loc) (xs ys : list jsvalue),
    ia < fresh -> ib < fresh ->
    exists r,
      addValues fresh (VArray ia xs) (VArray ib ys) = Return r
      /\ r = VArray fresh (xs ++ ys)
      /\ strict_equals r (VArray ia xs) = false
      /\ strict_equals r (VArray ib ys) = false
      /\ length (xs ++ ys) = length xs + length ys
      /\ (forall i, i < length xs -> nth_error (xs ++ ys) i = nth_error xs i)
      /\ (forall i, nth_error (xs ++ ys) (length xs + i) = nth_error ys i).
Proof.
  intros fresh ia ib xs ys Ha Hb.
  exists (VArray fresh (xs ++ ys)). simpl.
  repeat split.
  - apply Nat.eqb_neq. lia.
  - apply Nat.eqb_neq. lia.
  - apply length_app.
  - intros i Hi. now apply nth_error_app1.
  - intros i. rewrite nth_error_app2 by lia. f_equal. lia.
Qed.

Lemma addValues_arrays_concat_witness :
  0 < 7 /\ 1 < 7
  /\ exists r,
      addValues 7 (VArray 0 [VNumber one; VNumber one])
        (VArray 1 [VNull; VNumber one]) = Return r
      /\ r = VArray 7 ([VNumber one; VNumber one] ++ [VNull; VNumber one])
      /\ strict_equals r (VArray 0 [VNumber one; VNumber one]) = false
      /\ strict_equals r (VArray 1 [VNull; VNumber one]) = false
      /\ length ([VNumber one; VNumber one] ++ [VNull; VNumber one])
         = length [VNumber one; VNumber one] + length [VNull; VNumber one]
      /\ (forall i, i < length [VNumber one; VNumber one] ->
            nth_error ([VNumber one; VNumber one] ++ [VNull; VNumber one]) i
            = nth_error [VNumber one; VNumber one] i)
      /\ (forall i,
            nth_error ([VNumber one; VNumber one] ++ [VNull; VNumber one])
              (length [VNumber one; VNumber one] + i)
            = nth_error [VNull; VNumber one] i).
Proof.
  split; [lia | split; [lia |]].
  apply (addValues_arrays_concat 7 0 1); lia.
Defined.

Lemma plain_object_typeof (v : jsvalue) :
  is_plain_object v = true -> typeof v = js "object".
Proof.
  unfold is_plain_object, is_string. intros H.
  apply andb_prop in H as [H _]. apply andb_prop in H as [H _].
  now apply jsstring_eqb_eq in H.
Qed.

Lemma array_typeof (v : jsvalue) :
  Array_isArray v = true -> typeof v = js "object".
Proof. destruct v; simpl; congruence. Qed.

Lemma addValues_eq (fresh : loc) (a b : jsvalue) :
  addValues fresh a b =
  if Array_isArray a && Array_isArray b then Array_concat fresh a b
  else if is_plain_object a || is_plain_object b
  then Throw (Error (js "Cannot add values of type " ++ quoted (typeof a)
                     ++ js " and " ++ quoted (typeof b) ++ js "."))
  else if strict_equals a VUndefined || strict_equals b VUndefined
  then Throw (Error (js "Cannot add undefined values."))
  else js_add a b.
Proof. reflexivity. Qed.

(** C3.  When one operand of [addValues] is an array and the other a
    non-null, non-array object, the call throws an Error whose message is
    the template filled with the [typeof] names of the two operands; the
    name reported for the array is "object", as it is for the object. *)
Theorem addValues_array_and_object_throws :
  forall (fresh : loc) (a o : jsvalue),
    Array_isArray a = true ->
    is_plain_object o = true ->
    let message :=
      js "Cannot add values of type " ++ quoted (js "object")
      ++ js " and " ++ quoted (js "object") ++ js "." in
    typeof a = js "object"
    /\ typeof o = js "object"
    /\ addValues fresh a o = Throw (Error message)
    /\ addValues fresh o a = Throw (Error message).
Proof.
  intros fresh a o Ha Ho message.
  pose proof (array_typeof a Ha) as Ta.
  pose proof (plain_object_typeof o Ho) as To.
  assert (No : Array_isArray o = false).
  { unfold is_plain_object in Ho. apply andb_prop in Ho as [_ Ho].
    now apply negb_true_iff in Ho. }
  repeat split; trivial.
  - rewrite addValues_eq, Ha, No, Ho, orb_true_r, Ta, To. reflexivity.
  - rewrite addValues_eq, Ha, No, Ho, Ta, To. reflexivity.
Qed.

Lemma addValues_array_and_object_throws_witness :
  Array_isArray (VArray 0 [VNumber one]) = true
  /\ is_plain_object (VObject 1 []) = true
  /\ addValues 2 (VArray 0 [VNumber one]) (VObject 1 [])
     = Throw (Error (js "Cannot add values of type " ++ quoted (js "object")
                     ++ js " and " ++ quoted (js "object") ++ js ".")).
Proof.
  split; [reflexivity | split; [reflexivity |]].
  apply (addValues_array_and_object_throws 2 (VArray 0 [VNumber one])
           (VObject 1 [])); reflexivity.
Defined.

(** C8.  When neither operand is a non-null, non-array object and the
    operands are not two arrays, [addValues] throws the Error "Cannot add
    undefined values." as soon as one operand is undefined, whichever it
    is. *)
Theorem addValues_undefined_operand_throws :
  forall (fresh : loc) (a b : jsvalue),
    is_plain_object a = false ->
    is_plain_object b = false ->
    Array_isArray a && Array_isArray b = false ->
    a = VUndefined \/ b = VUndefined ->
    addValues fresh a b = Throw (Error (js "Cannot add undefined values.")).
Proof.
  intros fresh a b Ha Hb Hab Hu.
  rewrite addValues_eq, Hab, Ha, Hb. simpl orb.
  destruct Hu as [-> | ->]; simpl.
  - reflexivity.
  - now rewrite orb_true_r.
Qed.

Lemma addValues_undefined_operand_throws_witness :
  is_plain_object VUndefined = false
  /\ is_plain_object (VNumber one) = false
  /\ Array_isArray VUndefined && Array_isArray (VNumber one) = false
  /\ (VUndefined = VUndefined \/ VNumber one = VUndefined)
  /\ addValues 0 VUndefined (VNumber one)
     = Throw (Error (js "Cannot add undefined values.")).
Proof.
  repeat (split; [reflexivity |]).
  split; [now left |].
  apply (addValues_undefined_operand_throws 0 VUndefined (VNumber one));
    try reflexivity.
  now left.
Defined.

(** ** stringifyValue on a function *)

(** C9.  A bare function is not one of the primitive categories, so it is
    handed to [JSON.stringify], which has no representation for it:
    [stringifyValue] returns undefined, the value and not the text
    "undefined", and does not throw. *)
Theorem stringifyValue_bare_function :
  forall (id : loc) (source : jsstring),
    stringifyValue (VFunction id source) = Return VUndefined
    /\ stringifyValue (VFunction id source) <> Return (VString (js "undefined"))
    /\ throws (stringifyValue (VFunction id source)) = false.
Proof.
  intros id source.
  assert (H : stringifyValue (VFunction id source) = Return VUndefined)
    by reflexivity.
  rewrite H. repeat split. discriminate.
Qed.

(** ** stringifyValue on arrays and objects *)

Lemma container_cases (v : jsvalue) :
  Array_isArray v = true \/ is_plain_object v = true ->
  (exists id l, v = VArray id l) \/ (exists id ms, v = VObject id ms).
Proof.
  intros [H | H]; destruct v; try discriminate; eauto.
Qed.

(** C4, as amended.  Let [v] be an array or a plain object made, at every
    depth, of null, booleans, strings, finite numbers other than the
    negative zero, arrays of such values, and plain objects whose members
    either hold such a value or are of the kind [JSON.stringify] leaves
    out (a symbol for key; a function, undefined or a symbol for value),
    no object having a [toJSON] method, and the members that stay being
    listed as objects list them (distinct keys, array indices first).
    Then [stringifyValue(v)] is JSON text, and decoding that text gives a
    value structurally equal to [v] without the members left out. *)
Theorem stringifyValue_round_trip :
  forall (fresh : loc) (v : jsvalue),
    Array_isArray v = true \/ is_plain_object v = true ->
    json_faithful v = true ->
    decodes_back fresh v (without_members dropped_by_JSON v).
Proof.
  intros fresh v C F.
  destruct (serialize_reads v F) as [text [S [_ P]]].
  exists text, (fst (build fresh (json_of v))).
  split; [| split].
  - assert (T : stringifyValue v = JSON_stringify v).
    { destruct (container_cases v C) as [[id [l ->]] | [id [ms ->]]];
        reflexivity. }
    rewrite T. unfold JSON_stringify. now rewrite S.
  - unfold JSON_parse, parse_json_text. cbn [ToString bind].
    specialize (P (2 * length text + 2) [] ltac:(lia) eq_refl).
    rewrite app_nil_r in P. now rewrite P.
  - now apply build_json_of.
Qed.

Lemma stringifyValue_round_trip_witness :
  let v :=
    VObject 0
      [(KString (js "x"),
        VArray 1 [VNumber (Finite true 314 (-2));
                  VObject 2 [(KString (js "y"), VString (js "z"))]]);
       (KString (js "f"), VFunction 3 (js "() => 1"));
       (KSymbol 4 None, VString (js "hidden"));
       (KString (js "a"), VNull)] in
  (Array_isArray v = true \/ is_plain_object v = true)
  /\ json_faithful v = true
  /\ decodes_back 5 v (without_members dropped_by_JSON v).
Proof.
  intros v.
  assert (C : Array_isArray v = true \/ is_plain_object v = true)
    by (right; reflexivity).
  assert (F : json_faithful v = true) by reflexivity.
  split; [exact C | split; [exact F |]].
  apply (stringifyValue_round_trip 5 v C F).
Defined.

(** C4, as stated, fails: the array [[undefined]] has no member of the
    kinds the claim excludes, its text is "[null]", and that text decodes
    to [[null]], which is not structurally equal to [[undefined]]. *)
Lemma stringifyValue_undefined_element_not_restored :
  let v := VArray 0 [VUndefined] in
  Array_isArray v = true
  /\ without_members dropped_by_claim v = v
  /\ stringifyValue v = Return (VString (js "[null]"))
  /\ JSON_parse 1 (VString (js "[null]")) = Return (VArray 1 [VNull])
  /\ ~ decodes_back 1 v (without_members dropped_by_claim v).
Proof.
  intros v. repeat split.
  intros [text [decoded [S [P E]]]].
  assert (T : text = js "[null]") by (cbv in S; now injection S as <-).
  subst text. cbv in P. injection P as <-. discriminate E.
Qed.

(** ** invertBoolean *)

(** C10.  On booleans [invertBoolean] is an involution without fixed
    point: applied twice it gives the boolean back, applied once it gives
    the other boolean. *)
Theorem invertBoolean_involution :
  forall b : bool,
    (y <- invertBoolean (VBoolean b) ;; invertBoolean y) = Return (VBoolean b)
    /\ invertBoolean (VBoolean b) = Return (VBoolean (negb b))
    /\ invertBoolean (VBoolean b) <> Return (VBoolean b).
Proof.
  intros b. destruct b; repeat split; discriminate.
Qed.

(** ** convertToNumber *)

Lemma convertToNumber_string_eq (s : jsstring) :
  convertToNumber (VString s) =
  let parsed := if includes s (js ".") then parseFloat s else parseInt s 10 in
  if isNaN parsed
  then Throw (Error (js "Cannot convert string to number."))
  else Return (VNumber parsed).
Proof.
  unfold convertToNumber. simpl.
  now destruct (includes s (js ".")).
Qed.

(** C1, as amended.  A string that contains a point is read by
    [parseFloat], any other string by [parseInt] in radix 10, and the
    number read is returned.  The call throws the Error "Cannot convert
    string to number." exactly when that reading is NaN, which is when the
    text, after its leading white space and one optional sign, does not
    begin with a digit (nor, when the text contains a point, with a point
    followed by a digit or with [Infinity]).  Text that merely begins with
    a number is converted. *)
Theorem convertToNumber_string :
  forall s : jsstring,
    let parsed :=
      if includes s (js ".") then parseFloat s else parseInt s 10 in
    convertToNumber (VString s)
    = (if has_numeric_prefix s then Return (VNumber parsed)
       else Throw (Error (js "Cannot convert string to number.")))
    /\ isNaN parsed = negb (has_numeric_prefix s).
Proof.
  intros s parsed.
  assert (H : isNaN parsed = negb (has_numeric_prefix s)).
  { unfold parsed, has_numeric_prefix.
    destruct (includes s (js ".")).
    - apply parseFloat_isNaN.
    - apply parseInt_10_isNaN. }
  split; [| exact H].
  rewrite convertToNumber_string_eq. cbv zeta. fold parsed. rewrite H.
  now destruct (has_numeric_prefix s).
Qed.

(** C1, as stated, fails: ".5abc" is not numeric text ([Number] gives NaN)
    and is not integer-like ([parseInt] gives NaN), yet it contains a point
    and [parseFloat] reads 0.5 from it, which [convertToNumber] returns. *)
Lemma convertToNumber_fraction_prefix_accepted :
  numeric_text (js ".5abc") = false
  /\ integer_like (js ".5abc") = false
  /\ convertToNumber (VString (js ".5abc"))
     = Return (VNumber (Finite false 5 (-1)))
  /\ ~ (forall s : jsstring,
          numeric_text s = false -> integer_like s = false ->
          convertToNumber (VString s)
          = Throw (Error (js "Cannot convert string to number."))).
Proof.
  assert (R : convertToNumber (VString (js ".5abc"))
              = Return (VNumber (Finite false 5 (-1)))) by reflexivity.
  repeat split; try reflexivity.
  intros H. specialize (H (js ".5abc") eq_refl eq_refl).
  rewrite R in H. discriminate.
Qed.

Lemma strict_equals_number_refl (n : number) :
  strict_equals (VNumber n) (VNumber n) = negb (isNaN n).
Proof.
  destruct n as [| a | a m e]; simpl; try reflexivity.
  - now rewrite Bool.eqb_reflx.
  - rewrite Bool.eqb_reflx, N.eqb_refl, Z.eqb_refl. simpl.
    now rewrite orb_true_r.
Qed.

(** C5, as amended.  A Number is returned as it is, so converting twice
    gives what converting once gives; the two results are equal for [===]
    for every Number but NaN, which [===] tells apart from itself. *)
Theorem convertToNumber_numeric_unchanged :
  forall n : number,
    convertToNumber (VNumber n) = Return (VNumber n)
    /\ (y <- convertToNumber (VNumber n) ;; convertToNumber y)
       = convertToNumber (VNumber n)
    /\ (idempotent_at (VNumber n) <-> isNaN n = false).
Proof.
  intros n.
  assert (H : convertToNumber (VNumber n) = Return (VNumber n)) by reflexivity.
  split; [exact H |]. split; [now rewrite H |].
  unfold idempotent_at. rewrite H. simpl bind. rewrite H. split.
  - intros [once [twice [E1 [E2 E3]]]].
    injection E1 as <-. injection E2 as <-.
    rewrite strict_equals_number_refl in E3.
    now apply negb_true_iff in E3.
  - intros E. exists (VNumber n), (VNumber n).
    repeat split. rewrite strict_equals_number_refl. now rewrite E.
Qed.

(** C5, as stated, fails at NaN: [convertToNumber(NaN)] is NaN both times,
    and [NaN === NaN] is false. *)
Lemma convertToNumber_NaN_not_strictly_idempotent :
  typeof (VNumber NaN) = js "number" /\ ~ idempotent_at (VNumber NaN).
Proof.
  split; [reflexivity |].
  intros [once [twice [E1 [E2 E3]]]].
  cbv in E1, E2. injection E1 as <-. injection E2 as <-. discriminate.
Qed.

(** ** coerceToType to boolean *)

(** C6, as amended.  [coerceToType(value, "boolean")] returns a boolean
    for every value and never throws.  It returns false exactly for the
    values listed (empty text, zero of either sign, null, undefined,
    false) and for NaN and the BigInt zero; it returns true for every
    other value. *)
Theorem coerceToType_boolean_total :
  forall value : jsvalue,
    exists b : bool,
      coerceToType value (VString (js "boolean")) = Return (VBoolean b)
      /\ (b = false <->
          listed_falsy value = true \/ value = VNumber NaN
          \/ value = VBigInt 0).
Proof.
  intros value. exists (js_Boolean value). split; [reflexivity |].
  destruct value as [| | b | x | s | z | | | |]; simpl;
    try (split; [auto | reflexivity]);
    try (split; [discriminate | intros [H | [H | H]]; discriminate]).
  - destruct b; simpl; split; auto; intros [H | [H | H]]; discriminate.
  - destruct x as [| a | a m e]; simpl.
    + split; auto.
    + split; [discriminate | intros [H | [H | H]]; discriminate].
    + destruct m; simpl; split; auto; intros [H | [H | H]]; discriminate.
  - destruct s; simpl; split; auto; intros [H | [H | H]]; discriminate.
  - destruct z; simpl; split; auto; intros [H | [H | H]]; discriminate.
Qed.

(** C6, as stated, fails at NaN, which is none of the values listed and
    for which the result is false. *)
Lemma coerceToType_boolean_NaN_is_false :
  listed_falsy (VNumber NaN) = false
  /\ coerceToType (VNumber NaN) (VString (js "boolean"))
     = Return (VBoolean false).
Proof. split; reflexivity. Qed.

(** ** safeJsonParse *)

(** C7.  [safeJsonParse] never throws, whatever it is given.  On a string
    that is not JSON text it returns the fallback (null when the fallback
    is missing or undefined, the value a default parameter replaces); on
    JSON text it returns what [JSON.parse] returns.  There is no third
    outcome. *)
Theorem safeJsonParse_fallback_or_decode :
  forall (fresh : loc) (fallback : option jsvalue),
    let default :=
      match fallback with
      | None | Some VUndefined => VNull
      | Some v => v
      end in
    (forall str : jsvalue, throws (safeJsonParse fresh str fallback) = false)
    /\ (forall s : jsstring,
          parse_json_text s = None ->
          safeJsonParse fresh (VString s) fallback = Return default)
    /\ (forall (s : jsstring) (j : json),
          parse_json_text s = Some j ->
          JSON_parse fresh (VString s) = Return (fst (build fresh j))
          /\ safeJsonParse fresh (VString s) fallback
             = JSON_parse fresh (VString s))
    /\ (forall str : jsvalue,
          safeJsonParse fresh str fallback = JSON_parse fresh str
          \/ safeJsonParse fresh str fallback = Return default).
Proof.
  intros fresh fallback default. unfold safeJsonParse. fold default.
  repeat split.
  - intros str. now destruct (JSON_parse fresh str).
  - intros s H. unfold JSON_parse. simpl. now rewrite H.
  - unfold JSON_parse. simpl. now rewrite H.
  - unfold JSON_parse. simpl. now rewrite H.
  - intros str. destruct (JSON_parse fresh str); simpl; auto.
Qed.

(* ================================================================== *)
(** * Further properties of the library *)

(** What the code does beyond the claims above: the errors it raises and
    lets through, its edge cases, what its results always are, round
    trips, and how the functions compose.  Where a statement depends on
    the conversion methods of the objects it is about, it says so in a
    hypothesis ([default_conversions], [toJSON_free]). *)

(** ** Conversions to text *)

Lemma ToString_array (id : loc) (l : list jsvalue) :
  ToString (VArray id l) = join_elements true l.
Proof. reflexivity. Qed.

Lemma ToPrimitive_text (v : jsvalue) (s : jsstring) :
  text_operand v = true -> ToString v = Return s ->
  ToPrimitive v = Return (VString s).
Proof.
  destruct v; try discriminate; intros _ H; unfold ToPrimitive.
  - cbn [ToString] in H. now injection H as ->.
  - now rewrite H.
  - now rewrite H.
Qed.

Lemma ToPrimitive_other (v : jsvalue) :
  text_operand v = false -> is_plain_object v = false ->
  ToPrimitive v = Return v.
Proof. destruct v; try discriminate; reflexivity. Qed.

(** ** addValues *)

Lemma plain_object_not_array (v : jsvalue) :
  is_plain_object v = true -> Array_isArray v = false.
Proof. destruct v; try discriminate; reflexivity. Qed.

Lemma addValues_plus (fresh : loc) (a b : jsvalue) :
  reaches_plus a b = true -> addValues fresh a b = js_add a b.
Proof.
  unfold reaches_plus. intros H. rewrite addValues_eq.
  apply andb_prop in H as [H U]. apply andb_prop in H as [A P].
  apply negb_true_iff in A, P, U. now rewrite A, P, U.
Qed.

Lemma reaches_plus_operands (a b : jsvalue) :
  reaches_plus a b = true ->
  is_plain_object a = false /\ is_plain_object b = false.
Proof.
  unfold reaches_plus. intros H.
  apply andb_prop in H as [H _]. apply andb_prop in H as [_ P].
  apply negb_true_iff in P. now apply orb_false_elim in P.
Qed.

(** X1.  As soon as one operand is a non-null, non-array object,
    [addValues] throws the Error that names the [typeof] of both operands,
    whatever the other operand is: an array, a primitive, or undefined,
    for which the message about undefined values is never reached. *)
Theorem addValues_plain_object_throws :
  forall (fresh : loc) (a b : jsvalue),
    is_plain_object a = true \/ is_plain_object b = true ->
    addValues fresh a b
    = Throw (Error (js "Cannot add values of type " ++ quoted (typeof a)
                    ++ js " and " ++ quoted (typeof b) ++ js ".")).
Proof.
  intros fresh a b H. rewrite addValues_eq.
  assert (A : Array_isArray a && Array_isArray b = false).
  { destruct H as [H | H]; apply plain_object_not_array in H; rewrite H;
      [reflexivity | apply andb_false_r]. }
  rewrite A. destruct H as [-> | ->]; [reflexivity | now rewrite orb_true_r].
Qed.

Lemma addValues_plain_object_throws_witness :
  (is_plain_object VUndefined = true \/ is_plain_object (VObject 0 []) = true)
  /\ addValues 1 VUndefined (VObject 0 [])
     = Throw (Error (js "Cannot add values of type " ++ quoted (js "undefined")
                     ++ js " and " ++ quoted (js "object") ++ js ".")).
Proof.
  split; [right; reflexivity |].
  apply (addValues_plain_object_throws 1 VUndefined (VObject 0 [])).
  right; reflexivity.
Defined.

(** X2.  When the operands reach [+] and one of them is a String, an array
    or a function, the result is the text of the first followed by the
    text of the second: an array and a value that is not an array are not
    concatenated as arrays, they are joined as text. *)
Theorem addValues_text_concatenation :
  forall (fresh : loc) (a b : jsvalue) (text_a text_b : jsstring),
    reaches_plus a b = true ->
    text_operand a || text_operand b = true ->
    default_conversions a = true ->
    default_conversions b = true ->
    ToString a = Return text_a ->
    ToString b = Return text_b ->
    addValues fresh a b = Return (VString (text_a ++ text_b)).
Proof.
  intros fresh a b ta tb R T _ _ Ha Hb.
  rewrite (addValues_plus _ _ _ R). unfold js_add.
  destruct (reaches_plus_operands a b R) as [Pa Pb].
  destruct (text_operand a) eqn:Ta.
  - rewrite (ToPrimitive_text a ta Ta Ha). cbn [bind].
    destruct (text_operand b) eqn:Tb.
    + rewrite (ToPrimitive_text b tb Tb Hb). reflexivity.
    + rewrite (ToPrimitive_other b Tb Pb). cbn [bind ToString].
      now rewrite Hb.
  - cbn [orb] in T.
    rewrite (ToPrimitive_other a Ta Pa), (ToPrimitive_text b tb T Hb).
    cbn [bind].
    destruct a; try discriminate; cbn [ToString bind] in *;
      injection Ha as <-; reflexivity.
Qed.

Lemma addValues_text_concatenation_witness :
  addValues 1 (VArray 0 [VNumber one; VNumber two]) (VNumber three)
  = Return (VString (js "1,2" ++ js "3")).
Proof.
  apply (addValues_text_concatenation 1 (VArray 0 [VNumber one; VNumber two])
           (VNumber three) (js "1,2") (js "3")); reflexivity.
Defined.



(** X4.  Two BigInts are added as BigInts.  A BigInt next to a Number, a
    Boolean or null is not converted: the TypeError of the platform leaves
    [addValues], which raises no Error of its own for it. *)
Theorem addValues_bigint :
  forall (fresh : loc) (z : Z),
    (forall w : Z,
        addValues fresh (VBigInt z) (VBigInt w) = Return (VBigInt (z + w)))
    /\ (forall b : jsvalue,
          numeric_operand b = true ->
          addValues fresh (VBigInt z) b = Throw (PlatformError TypeError)
          /\ addValues fresh b (VBigInt z) = Throw (PlatformError TypeError)).
Proof.
  intros fresh z. split; [reflexivity |].
  intros b Hb. destruct b; try discriminate; split; reflexivity.
Qed.

Lemma number_add_comm (x y : number) : number_add x y = number_add y x.
Proof.
  destruct x as [| a | a m e], y as [| b | b m' e']; try reflexivity.
  - cbn [number_add]. now destruct a, b.
  - unfold number_add.
    now rewrite (Z.min_comm e' e), (Z.add_comm (signed b _)), (andb_comm b a).
Qed.

Lemma addValues_numeric_eq (fresh : loc) (a b : jsvalue) :
  numeric_operand a = true -> numeric_operand b = true ->
  addValues fresh a b
  = Return (VNumber (number_add (numeric_value a) (numeric_value b))).
Proof.
  intros Ha Hb.
  destruct a as [| | x | | | | | | |]; try discriminate;
    destruct b as [| | y | | | | | | |]; try discriminate;
    try destruct x; try destruct y; reflexivity.
Qed.

(** X5.  [addValues] is associative on arrays, as far as the elements go
    (each call makes a new array), and on Strings: the grouping of two
    calls does not change the elements, nor the text.  On Numbers,
    Booleans and null it is commutative: the order of the operands does
    not matter. *)
Theorem addValues_algebra :
  (forall (f1 f2 f3 f4 ia ib ic : loc) (xs ys zs : list jsvalue),
      (ab <- addValues f1 (VArray ia xs) (VArray ib ys) ;;
       addValues f2 ab (VArray ic zs))
      = Return (VArray f2 (xs ++ ys ++ zs))
      /\ (bc <- addValues f3 (VArray ib ys) (VArray ic zs) ;;
          addValues f4 (VArray ia xs) bc)
         = Return (VArray f4 (xs ++ ys ++ zs)))
  /\ (forall (f1 f2 f3 f4 : loc) (s t u : jsstring),
        (st <- addValues f1 (VString s) (VString t) ;;
         addValues f2 st (VString u))
        = Return (VString (s ++ t ++ u))
        /\ (tu <- addValues f3 (VString t) (VString u) ;;
            addValues f4 (VString s) tu)
           = Return (VString (s ++ t ++ u)))
  /\ (forall (fresh fresh' : loc) (a b : jsvalue),
        numeric_operand a = true ->
        numeric_operand b = true ->
        addValues fresh a b = addValues fresh' b a).
Proof.
  split; [| split].
  - intros. split; [| reflexivity].
    change (Return (VArray f2 ((xs ++ ys) ++ zs))
            = Return (VArray f2 (xs ++ ys ++ zs))).
    now rewrite app_assoc.
  - intros. split; [| reflexivity].
    change (Return (VString ((s ++ t) ++ u)) = Return (VString (s ++ t ++ u))).
    now rewrite app_assoc.
  - intros fresh fresh' a b Ha Hb.
    rewrite (addValues_numeric_eq fresh a b Ha Hb).
    rewrite (addValues_numeric_eq fresh' b a Hb Ha).
    now rewrite number_add_comm.
Qed.

(** X6.  A symbol cannot be added to anything: with a symbol for operand
    [addValues] throws whatever the other operand is, on either side. *)
Theorem addValues_symbol_throws :
  forall (fresh id : loc) (description : option jsstring) (b : jsvalue),
    throws (addValues fresh (VSymbol id description) b) = true
    /\ throws (addValues fresh b (VSymbol id description)) = true.
Proof.
  intros fresh id d b.
  destruct b as [| | | | | | | | i l |]; try (split; reflexivity).
  split.
  - change (addValues fresh (VSymbol id d) (VArray i l))
      with (js_add (VSymbol id d) (VArray i l)).
    unfold js_add, ToPrimitive. cbn [bind].
    now destruct (ToString (VArray i l)).
  - change (addValues fresh (VArray i l) (VSymbol id d))
      with (js_add (VArray i l) (VSymbol id d)).
    unfold js_add, ToPrimitive.
    now destruct (ToString (VArray i l)).
Qed.

(** X7.  Whenever [addValues] returns, it returns an array when both
    operands are arrays, and otherwise a String, a Number or a BigInt:
    never a Boolean, null, undefined or an object, whatever the
    operands. *)
Theorem addValues_result_kind :
  forall (fresh : loc) (a b r : jsvalue),
    addValues fresh a b = Return r ->
    if Array_isArray a && Array_isArray b
    then Array_isArray r = true
    else is_string (typeof r) "string" || is_string (typeof r) "number"
         || is_string (typeof r) "bigint" = true.
Proof.
  intros fresh a b r H. rewrite addValues_eq in H.
  destruct (Array_isArray a && Array_isArray b).
  { destruct a; try discriminate H. injection H as <-. reflexivity. }
  destruct (is_plain_object a || is_plain_object b); [discriminate |].
  destruct (strict_equals a VUndefined || strict_equals b VUndefined);
    [discriminate |].
  unfold js_add in H.
  destruct (ToPrimitive a) as [pa |]; [| discriminate].
  destruct (ToPrimitive b) as [pb |]; [| discriminate].
  cbn [bind] in H.
  destruct pa, pb; cbv beta iota in H;
    repeat match type of H with
           | context [bind ?c _] => destruct c; cbn [bind] in H
           end;
    try discriminate H; injection H as <-; reflexivity.
Qed.

Lemma addValues_result_kind_witness :
  addValues 0 (VBoolean true) (VBoolean true) = Return (VNumber two)
  /\ if Array_isArray (VBoolean true) && Array_isArray (VBoolean true)
     then Array_isArray (VNumber two) = true
     else is_string (typeof (VNumber two)) "string"
          || is_string (typeof (VNumber two)) "number"
          || is_string (typeof (VNumber two)) "bigint" = true.
Proof.
  split; [reflexivity |].
  apply (addValues_result_kind 0 (VBoolean true) (VBoolean true)
           (VNumber two)).
  reflexivity.
Defined.

(** ** stringifyValue *)

Lemma serialize_elements_outcome (l : list jsvalue) :
  Forall (fun e => if holds_bigint e
                   then SerializeJSONProperty e = Throw (PlatformError TypeError)
                   else exists r, SerializeJSONProperty e = Return r) l ->
  if existsb holds_bigint l
  then serialize_elements SerializeJSONProperty l
       = Throw (PlatformError TypeError)
  else exists texts,
         serialize_elements SerializeJSONProperty l = Return texts.
Proof.
  induction 1 as [| e l He _ IH]; [now exists [] |].
  cbn [existsb serialize_elements].
  destruct (holds_bigint e); cbn [orb].
  - now rewrite He.
  - destruct He as [r ->]. cbn [bind].
    destruct (existsb holds_bigint l).
    + now rewrite IH.
    + destruct IH as [texts ->]. cbn [bind]. eauto.
Qed.

Lemma serialize_members_outcome (ms : list (property_key * jsvalue)) :
  Forall (fun m => if holds_bigint (snd m)
                   then SerializeJSONProperty (snd m)
                        = Throw (PlatformError TypeError)
                   else exists r, SerializeJSONProperty (snd m) = Return r)
    ms ->
  if existsb (fun '(k, x) =>
                match k with
                | KString _ => holds_bigint x
                | KSymbol _ _ => false
                end) ms
  then serialize_members SerializeJSONProperty ms
       = Throw (PlatformError TypeError)
  else exists texts,
         serialize_members SerializeJSONProperty ms = Return texts.
Proof.
  induction 1 as [| [k x] ms Hx _ IH]; [now exists [] |].
  cbn [existsb serialize_members snd] in *.
  destruct k as [name | id description]; [| exact IH].
  destruct (holds_bigint x); cbn [orb].
  - now rewrite Hx.
  - destruct Hx as [r ->]. cbn [bind].
    match type of IH with
    | if ?c then _ else _ => destruct c
    end.
    + now rewrite IH.
    + destruct IH as [texts ->]. cbn [bind]. eauto.
Qed.

Lemma serialize_outcome (v : jsvalue) :
  if holds_bigint v
  then SerializeJSONProperty v = Throw (PlatformError TypeError)
  else exists r, SerializeJSONProperty v = Return r.
Proof.
  induction v as [| | b | x | s | z | id d | id s | id l IH | id ms IH]
    using jsvalue_induction;
    try (cbn [holds_bigint SerializeJSONProperty]; eauto; fail).
  - pose proof (serialize_elements_outcome l IH) as E.
    cbn [holds_bigint SerializeJSONProperty].
    destruct (existsb holds_bigint l).
    + now rewrite E.
    + destruct E as [texts ->]. cbn [bind]. eauto.
  - pose proof (serialize_members_outcome ms IH) as E.
    cbn [holds_bigint SerializeJSONProperty].
    match type of E with
    | if ?c then _ else _ => destruct c
    end.
    + now rewrite E.
    + destruct E as [texts ->]. cbn [bind]. eauto.
Qed.

Lemma container_has_text (v : jsvalue) (r : option jsstring) :
  Array_isArray v = true \/ is_plain_object v = true ->
  SerializeJSONProperty v = Return r -> exists text, r = Some text.
Proof.
  intros C H.
  destruct (container_cases v C) as [[id [l ->]] | [id [ms ->]]];
    cbn [SerializeJSONProperty] in H.
  - destruct (serialize_elements SerializeJSONProperty l);
      cbn [bind] in H; [| discriminate].
    injection H as <-. eauto.
  - destruct (serialize_members SerializeJSONProperty ms);
      cbn [bind] in H; [| discriminate].
    injection H as <-. eauto.
Qed.

Lemma stringifyValue_container (v : jsvalue) :
  Array_isArray v = true \/ is_plain_object v = true ->
  stringifyValue v = JSON_stringify v.
Proof.
  intros C.
  destruct (container_cases v C) as [[id [l ->]] | [id [ms ->]]]; reflexivity.
Qed.



(** ** invertBoolean *)

(** X9.  [invertBoolean] converts nothing: a value that is not a Boolean is
    rejected with the Error "Argument is not a boolean.", be it truthy or
    falsy, and only a Boolean is negated.  Coercing first makes the
    inversion total: [invertBoolean(coerceToType(value, "boolean"))]
    returns the negation of the truthiness of [value] and never throws. *)
Theorem invertBoolean_strict :
  forall val : jsvalue,
    ((exists b, val = VBoolean b
                /\ invertBoolean val = Return (VBoolean (negb b)))
     \/ ((forall b, val <> VBoolean b)
         /\ invertBoolean val = Throw (Error (js "Argument is not a boolean."))))
    /\ (b <- coerceToType val (VString (js "boolean")) ;; invertBoolean b)
       = Return (VBoolean (negb (js_Boolean val))).
Proof.
  intros val. split; [| reflexivity].
  destruct val as [| | b | | | | | | |];
    try (right; split; [discriminate | reflexivity]).
  left. exists b. split; reflexivity.
Qed.

(** ** What ToString throws *)

Lemma join_elements_outcome (l : list jsvalue) :
  Forall (fun e => if symbol_within e
                   then ToString e = Throw (PlatformError TypeError)
                   else exists s, ToString e = Return s) l ->
  forall first : bool,
    if existsb symbol_within l
    then join_elements first l = Throw (PlatformError TypeError)
    else exists s, join_elements first l = Return s.
Proof.
  induction 1 as [| e l He _ IH]; intros first; [now exists [] |].
  cbn [existsb join_elements].
  destruct (symbol_within e) eqn:Se; cbn [orb].
  - destruct e; try discriminate Se; now rewrite He.
  - assert (T : exists s, match e with
                          | VUndefined | VNull => Return []
                          | _ => ToString e
                          end = Return s)
      by (destruct e; eauto).
    destruct T as [s ->]. cbn [bind]. specialize (IH false).
    destruct (existsb symbol_within l).
    + now rewrite IH.
    + destruct IH as [rest ->]. cbn [bind]. eauto.
Qed.

Lemma ToString_outcome (v : jsvalue) :
  if symbol_within v
  then ToString v = Throw (PlatformError TypeError)
  else exists s, ToString v = Return s.
Proof.
  induction v as [| | b | x | s | z | id d | id s | id l IH | id ms IH]
    using jsvalue_induction;
    try (cbn [symbol_within ToString]; eauto; fail).
  rewrite ToString_array. cbn [symbol_within].
  apply (join_elements_outcome l IH true).
Qed.

Lemma ToString_throws (v : jsvalue) (e : exn) :
  ToString v = Throw e -> e = PlatformError TypeError.
Proof.
  intros H. pose proof (ToString_outcome v) as O.
  destruct (symbol_within v).
  - rewrite O in H. now injection H as <-.
  - destruct O as [s O]. rewrite O in H. discriminate.
Qed.

(** ** convertToNumber *)

Lemma convertToNumber_object_eq (value : jsvalue) :
  Array_isArray value = true \/ is_plain_object value = true ->
  convertToNumber value =
  (num <- js_Number value ;;
   if negb (isNaN num) then Return (VNumber num)
   else Throw (Error (js "Cannot convert object to number."))).
Proof.
  intros C.
  destruct (container_cases value C) as [[id [l ->]] | [id [ms ->]]];
    reflexivity.
Qed.

(** X10.  Whenever [convertToNumber] returns, it returns a Number; that
    Number is NaN only when the argument is itself the Number NaN, every
    other way to NaN being turned into an Error; and converting the result
    again returns it unchanged. *)
Theorem convertToNumber_result :
  forall value r : jsvalue,
    convertToNumber value = Return r ->
    exists x : number,
      r = VNumber x
      /\ (isNaN x = true -> value = VNumber NaN)
      /\ convertToNumber r = Return r.
Proof.
  intros value r H.
  destruct value as [| | b | x | s | z | id d | id s | id l | id ms];
    try discriminate H.
  - injection H as <-. exists pos_zero. repeat split. discriminate.
  - injection H as <-. exists (if b then one else pos_zero).
    repeat split. now destruct b.
  - injection H as <-. exists x. repeat split.
    destruct x; try discriminate. reflexivity.
  - rewrite convertToNumber_string_eq in H. cbv zeta in H.
    destruct (isNaN (if includes s (js ".") then parseFloat s
                     else parseInt s 10)) eqn:N; [discriminate |].
    injection H as <-. eexists. repeat split. congruence.
  - rewrite convertToNumber_object_eq in H by (left; reflexivity).
    destruct (js_Number (VArray id l)) as [num |]; [| discriminate].
    cbn [bind] in H. destruct (isNaN num) eqn:N; [discriminate |].
    injection H as <-. exists num. repeat split. congruence.
Qed.

Lemma convertToNumber_result_witness :
  convertToNumber (VString (js "12.50abc"))
  = Return (VNumber (Finite false 125 (-1)))
  /\ exists x : number,
       VNumber (Finite false 125 (-1)) = VNumber x
       /\ (isNaN x = true -> VString (js "12.50abc") = VNumber NaN)
       /\ convertToNumber (VNumber (Finite false 125 (-1)))
          = Return (VNumber (Finite false 125 (-1))).
Proof.
  split; [reflexivity |].
  apply (convertToNumber_result (VString (js "12.50abc"))). reflexivity.
Defined.

(** ** coerceToType *)

Lemma coerceToType_string_eq (value : jsvalue) :
  coerceToType value (VString (js "string"))
  = (s <- js_String value ;; Return (VString s)).
Proof. reflexivity. Qed.

Lemma coerceToType_number_eq (value : jsvalue) :
  coerceToType value (VString (js "number")) =
  (num <- js_Number value ;;
   if isNaN num
   then s <- ToString value ;;
        Throw (Error (js "Cannot coerce value to number: " ++ s))
   else Return (VNumber num)).
Proof. reflexivity. Qed.

Lemma coerceToType_bigint_eq (value : jsvalue) :
  coerceToType value (VString (js "bigint")) =
  try_catch (z <- js_BigInt value ;; Return (VBigInt z))
    (fun _ => s <- ToString value ;;
              Throw (Error (js "Cannot coerce value to bigint: " ++ s))).
Proof. reflexivity. Qed.

Lemma switch_case_eq (t : jsvalue) (literal : string) :
  switch_case t literal = true -> t = VString (js literal).
Proof.
  unfold switch_case. destruct t; try discriminate.
  cbn [strict_equals]. intros H. apply jsstring_eqb_eq in H. now subst.
Qed.

(** X11.  On Booleans, on null and on arrays and objects,
    [convertToNumber(value)] and [coerceToType(value, "number")] return
    the same Number, and one returns exactly when the other does.  They
    part on a BigInt, which the first rejects and the second converts, and
    on the Number NaN, which the first returns and the second rejects. *)
Theorem convertToNumber_agrees_with_coerceToType :
  (forall value r : jsvalue,
      is_string (typeof value) "boolean" || is_string (typeof value) "object"
      = true ->
      convertToNumber value = Return r
      <-> coerceToType value (VString (js "number")) = Return r)
  /\ (forall z : Z,
        convertToNumber (VBigInt z)
        = Throw (Error (js "Cannot convert type " ++ quoted (js "bigint")
                        ++ js " to number."))
        /\ exists x : number,
             coerceToType (VBigInt z) (VString (js "number"))
             = Return (VNumber x))
  /\ convertToNumber (VNumber NaN) = Return (VNumber NaN)
  /\ coerceToType (VNumber NaN) (VString (js "number"))
     = Throw (Error (js "Cannot coerce value to number: NaN")).
Proof.
  split; [| split; [| split; reflexivity]].
  - intros value r T. rewrite coerceToType_number_eq.
    destruct value as [| | b | x | s | z | id d | id s | id l | id ms];
      try discriminate T.
    + reflexivity.
    + now destruct b.
    + rewrite convertToNumber_object_eq by (left; reflexivity).
      destruct (js_Number (VArray id l)) as [num |]; [| reflexivity].
      cbn [bind]. destruct (isNaN num); cbn [negb]; [| reflexivity].
      destruct (ToString (VArray id l)); cbn [bind]; split; discriminate.
    + rewrite convertToNumber_object_eq by (right; reflexivity).
      destruct (js_Number (VObject id ms)) as [num |]; [| reflexivity].
      cbn [bind]. destruct (isNaN num); cbn [negb]; [| reflexivity].
      destruct (ToString (VObject id ms)); cbn [bind]; split; discriminate.
  - intros z. split; [reflexivity |].
    rewrite coerceToType_number_eq.
    change (js_Number (VBigInt z)) with (Return (A := number) (number_of_Z z)).
    cbn [bind]. unfold number_of_Z. rewrite isNaN_finite. eauto.
Qed.

(** X12.  Whenever [coerceToType(value, type)] returns, [type] is one of
    the seven target names and [typeof] of the result is that name (for
    the target "object" the result may be null, whose [typeof] is
    "object").  For the targets "object", "symbol" and "undefined" the
    result is [value] itself: nothing is wrapped or copied. *)
Theorem coerceToType_result_type :
  forall value type r : jsvalue,
    coerceToType value type = Return r ->
    exists name : jsstring,
      type = VString name
      /\ Array_includes target_types name = true
      /\ typeof r = name
      /\ (Array_includes [js "object"; js "symbol"; js "undefined"] name
          = true -> r = value).
Proof.
  intros value type r H. unfold coerceToType in H.
  destruct (switch_case type "string") eqn:E1.
  { apply switch_case_eq in E1. subst type.
    destruct (js_String value); [| discriminate].
    injection H as <-. exists (js "string"). repeat split. discriminate. }
  destruct (switch_case type "number") eqn:E2.
  { apply switch_case_eq in E2. subst type.
    destruct (js_Number value) as [num |]; [| discriminate].
    cbn [bind] in H. destruct (isNaN num).
    - destruct (ToString value); discriminate.
    - injection H as <-. exists (js "number"). repeat split. discriminate. }
  destruct (switch_case type "boolean") eqn:E3.
  { apply switch_case_eq in E3. subst type.
    injection H as <-. exists (js "boolean"). repeat split. discriminate. }
  destruct (switch_case type "bigint") eqn:E4.
  { apply switch_case_eq in E4. subst type.
    destruct (js_BigInt value) as [z |]; cbn [bind try_catch] in H.
    - injection H as <-. exists (js "bigint"). repeat split. discriminate.
    - destruct (ToString value); discriminate. }
  destruct (switch_case type "object") eqn:E5.
  { apply switch_case_eq in E5. subst type.
    destruct (strict_equals value VNull || is_string (typeof value) "object")
      eqn:C; [| discriminate].
    injection H as <-. exists (js "object"). repeat split.
    destruct value; try discriminate C; reflexivity. }
  destruct (switch_case type "symbol") eqn:E6.
  { apply switch_case_eq in E6. subst type.
    destruct (is_string (typeof value) "symbol") eqn:C; [| discriminate].
    injection H as <-. exists (js "symbol"). repeat split.
    now apply jsstring_eqb_eq in C. }
  destruct (switch_case type "undefined") eqn:E7.
  { apply switch_case_eq in E7. subst type.
    destruct (is_string (typeof value) "undefined") eqn:C; [| discriminate].
    injection H as <-. exists (js "undefined"). repeat split.
    destruct value; try discriminate C; reflexivity. }
  destruct (ToString type); discriminate.
Qed.

Lemma coerceToType_result_type_witness :
  coerceToType (VArray 0 [VNull]) (VString (js "object"))
  = Return (VArray 0 [VNull])
  /\ exists name : jsstring,
       VString (js "object") = VString name
       /\ Array_includes target_types name = true
       /\ typeof (VArray 0 [VNull]) = name
       /\ (Array_includes [js "object"; js "symbol"; js "undefined"] name
           = true -> VArray 0 [VNull] = VArray 0 [VNull]).
Proof.
  split; [reflexivity |].
  apply (coerceToType_result_type (VArray 0 [VNull]) (VString (js "object"))).
  reflexivity.
Defined.

(** X13.  A target that is not one of the seven names, compared as [===]
    compares (so "String" or "array" are not), makes [coerceToType] throw
    the Error "Unsupported target type" with the target between quotes,
    whatever the value.  A target that is not a String at all, such as the
    undefined of a missing argument, ends in the same branch, where it is
    converted to text for the message. *)
Theorem coerceToType_unsupported_type :
  forall value : jsvalue,
    (forall name : jsstring,
        Array_includes target_types name = false ->
        coerceToType value (VString name)
        = Throw (Error (js "Unsupported target type: " ++ quoted name
                        ++ js ".")))
    /\ (forall type : jsvalue,
          typeof type <> js "string" ->
          coerceToType value type
          = (s <- ToString type ;;
             Throw (Error (js "Unsupported target type: " ++ quoted s
                           ++ js ".")))).
Proof.
  intros value. split.
  - intros name H. unfold Array_includes, target_types in H.
    cbn [existsb] in H.
    repeat match type of H with
           | _ || _ = false => apply orb_false_elim in H as [? H]
           end.
    unfold coerceToType, switch_case. cbn [strict_equals].
    repeat match goal with
           | E : jsstring_eqb name _ = false |- _ => rewrite E; clear E
           end.
    reflexivity.
  - intros type H.
    destruct type; try reflexivity. now destruct H.
Qed.

(** X14.  Let [value] be converted to text by the methods of the
    platform.  When [BigInt(value)] fails, [coerceToType(value, "bigint")]
    replaces the error of the platform by its own Error, whose message
    ends with the text of [value].  When [value] has no text (a symbol, or
    an array that holds one), building that message fails in turn, and
    what leaves the function is a TypeError. *)
Theorem coerceToType_bigint_failure :
  forall value : jsvalue,
    default_conversions value = true ->
    (forall text : jsstring,
        ToString value = Return text ->
        (exists z : Z,
            coerceToType value (VString (js "bigint")) = Return (VBigInt z))
        \/ coerceToType value (VString (js "bigint"))
           = Throw (Error (js "Cannot coerce value to bigint: " ++ text)))
    /\ (forall e : exn,
          ToString value = Throw e ->
          coerceToType value (VString (js "bigint"))
          = Throw (PlatformError TypeError)).
Proof.
  intros value _. rewrite coerceToType_bigint_eq. split.
  - intros text T.
    destruct (js_BigInt value) as [z |]; cbn [bind try_catch].
    + left. now exists z.
    + right. now rewrite T.
  - intros e T. pose proof (ToString_throws value e T) as ->.
    assert (B : exists e', js_BigInt value = Throw e').
    { unfold js_BigInt, ToPrimitive.
      destruct value; try discriminate T; try rewrite T; cbn [bind]; eauto. }
    destruct B as [e' ->]. cbn [bind try_catch]. now rewrite T.
Qed.

Lemma coerceToType_bigint_failure_witness :
  (forall text : jsstring,
      ToString (VNumber (Finite false 15 (-1))) = Return text ->
      (exists z : Z,
          coerceToType (VNumber (Finite false 15 (-1))) (VString (js "bigint"))
          = Return (VBigInt z))
      \/ coerceToType (VNumber (Finite false 15 (-1))) (VString (js "bigint"))
         = Throw (Error (js "Cannot coerce value to bigint: " ++ text)))
  /\ (forall e : exn,
        ToString (VNumber (Finite false 15 (-1))) = Throw e ->
        coerceToType (VNumber (Finite false 15 (-1))) (VString (js "bigint"))
        = Throw (PlatformError TypeError)).
Proof.
  apply (coerceToType_bigint_failure (VNumber (Finite false 15 (-1)))).
  reflexivity.
Defined.

(** ** White space around a text *)

Lemma trim_start_blank (s : jsstring) :
  forallb is_white_space s = true -> trim_start s = [].
Proof.
  induction s as [| c s IH]; [reflexivity |].
  cbn [forallb trim_start]. intros H. apply andb_prop in H as [-> H]. auto.
Qed.

Lemma trim_blank (s : jsstring) :
  forallb is_white_space s = true -> trim s = [].
Proof. intros H. unfold trim. now rewrite (trim_start_blank s H). Qed.

Lemma trim_start_solid (c : code_unit) (s : jsstring) :
  is_white_space c = false -> trim_start (c :: s) = c :: s.
Proof. intros H. cbn [trim_start]. now rewrite H. Qed.

Lemma trim_start_all_solid (s : jsstring) :
  forallb (fun c => negb (is_white_space c)) s = true -> trim_start s = s.
Proof.
  destruct s as [| c t]; [reflexivity |]. cbn [forallb]. intros K.
  apply andb_prop in K as [K _]. apply negb_true_iff in K.
  now apply trim_start_solid.
Qed.

Lemma trim_solid (s : jsstring) :
  forallb (fun c => negb (is_white_space c)) s = true -> trim s = s.
Proof.
  intros H. unfold trim, trim_end.
  rewrite (trim_start_all_solid s H), trim_start_all_solid.
  - apply rev_involutive.
  - rewrite forallb_forall in *. intros c I. apply H. now apply in_rev.
Qed.

Lemma is_white_space_range (c : code_unit) :
  is_white_space c = true -> (c <= 32 \/ 160 <= c)%N.
Proof.
  unfold is_white_space.
  rewrite !orb_true_iff, !andb_true_iff, !N.eqb_eq, !N.leb_le. lia.
Qed.

Lemma is_numeral_unit_range (c : code_unit) :
  is_numeral_unit c = true -> (43 <= c <= 57 \/ c = 101)%N.
Proof.
  unfold is_numeral_unit, is_digit.
  rewrite !orb_true_iff, !andb_true_iff, !N.eqb_eq, !N.leb_le. lia.
Qed.

Lemma numeral_solid (s : jsstring) :
  forallb is_numeral_unit s = true ->
  forallb (fun c => negb (is_white_space c)) s = true.
Proof.
  rewrite !forallb_forall. intros H c I. specialize (H c I).
  apply is_numeral_unit_range in H.
  destruct (is_white_space c) eqn:W; [| reflexivity].
  apply is_white_space_range in W. lia.
Qed.

Lemma includes_unit (s : jsstring) (c : code_unit) :
  includes s [c] = existsb (N.eqb c) s.
Proof.
  induction s as [| d s IH]; [reflexivity |].
  cbn [includes starts_with existsb]. rewrite IH.
  destruct s; now rewrite andb_true_r.
Qed.

(** ** The numerals the platform prints *)

Lemma forallb_all_digits (ds : jsstring) :
  forallb is_digit ds = true <-> all_digits ds.
Proof.
  unfold all_digits. rewrite forallb_forall, Forall_forall. reflexivity.
Qed.

Lemma digit_is_numeral_unit (c : code_unit) :
  is_digit c = true -> is_numeral_unit c = true.
Proof. unfold is_numeral_unit. now intros ->. Qed.

Lemma digits_are_numeral_units (ds : jsstring) :
  all_digits ds -> forallb is_numeral_unit ds = true.
Proof.
  unfold all_digits. rewrite forallb_forall, Forall_forall.
  intros H c I. apply digit_is_numeral_unit. now apply H.
Qed.

Lemma decimal_text_units (m : N) (e : Z) :
  forallb is_numeral_unit (decimal_text m e) = true.
Proof.
  unfold decimal_text.
  pose proof (digits_are_numeral_units _ (decimal_digits_all m)) as D.
  set (ds := decimal_digits m) in *.
  set (n := (e + Z.of_nat (length ds))%Z).
  pose proof (digits_are_numeral_units _ (all_digits_zeros (Z.to_nat (n - Z.of_nat (length ds))))) as Z1.
  pose proof (digits_are_numeral_units _ (all_digits_zeros (Z.to_nat (- n)))) as Z2.
  pose proof (digits_are_numeral_units _
                (decimal_digits_all (Z.abs_N (n - 1)))) as X.
  destruct ((Z.of_nat (length ds) <=? n)%Z && (n <=? 21)%Z).
  { now rewrite forallb_app, D, Z1. }
  destruct ((0 <? n)%Z && (n <=? 21)%Z).
  { rewrite forallb_app. cbn [forallb].
    change (is_numeral_unit 46) with true. cbn [andb].
    rewrite <- forallb_app, firstn_skipn. exact D. }
  destruct ((-6 <? n)%Z && (n <=? 0)%Z).
  { cbn [forallb]. now rewrite forallb_app, D, Z2. }
  assert (T : forallb is_numeral_unit
                (101%N :: (if (0 <=? n - 1)%Z then 43%N else 45%N)
                       :: decimal_digits (Z.abs_N (n - 1))) = true).
  { cbn [forallb]. rewrite X. now destruct (0 <=? n - 1)%Z. }
  destruct ds as [| d [| d' rest]]; [exact T | |].
  - cbn [forallb] in *. apply andb_prop in D as [-> _]. exact T.
  - cbn [forallb] in D. apply andb_prop in D as [D1 D2].
    cbn [forallb]. rewrite D1. change (is_numeral_unit 46) with true.
    cbn [andb]. rewrite forallb_app. cbn [forallb] in *.
    now rewrite D2, T.
Qed.

Lemma Number_toString_units (negative : bool) (m : N) (e : Z) :
  forallb is_numeral_unit (Number_toString (Finite negative m e)) = true.
Proof.
  unfold Number_toString. destruct (m =? 0)%N; [reflexivity |].
  destruct negative; cbn [sign_prefix forallb];
    now rewrite decimal_text_units.
Qed.

Lemma non_decimal_literal_numeral (t : jsstring) :
  forallb is_numeral_unit t = true -> non_decimal_literal t = None.
Proof.
  unfold non_decimal_literal.
  destruct t as [| c [| p ds]]; [reflexivity | |]; cbn [strip_char forallb];
    destruct (c =? 48)%N; try reflexivity.
  intros H. apply andb_prop in H as [_ H]. apply andb_prop in H as [H _].
  apply is_numeral_unit_range in H.
  replace (p =? 120)%N with false by (symmetry; apply N.eqb_neq; lia).
  replace (p =? 88)%N with false by (symmetry; apply N.eqb_neq; lia).
  replace (p =? 111)%N with false by (symmetry; apply N.eqb_neq; lia).
  replace (p =? 79)%N with false by (symmetry; apply N.eqb_neq; lia).
  replace (p =? 98)%N with false by (symmetry; apply N.eqb_neq; lia).
  replace (p =? 66)%N with false by (symmetry; apply N.eqb_neq; lia).
  reflexivity.
Qed.

(** ** A JSON number is a decimal literal of the language *)

Lemma parse_json_exponent_scan (s : jsstring) (ex : Z) (r : jsstring) :
  parse_json_exponent s = Some (ex, r) -> scan_exponent s = (ex, r).
Proof.
  unfold parse_json_exponent, scan_exponent.
  destruct s as [| c t]; [congruence |].
  destruct ((c =? 101) || (c =? 69))%N; [| congruence].
  destruct (strip_sign t) as [negative r1].
  destruct (span is_digit r1) as [ds r2].
  destruct ds; congruence.
Qed.

Lemma parse_json_unsigned_scan (negative : bool) (s : jsstring)
  (x : number) (r : jsstring) :
  parse_json_unsigned negative s = Some (x, r) ->
  scan_unsigned negative s = Some (x, r).
Proof.
  unfold parse_json_unsigned, scan_unsigned, parse_json_fraction.
  pose proof (span_first is_digit s) as F.
  destruct (span is_digit s) as [ip r1].
  destruct ip as [| d ip']; [discriminate |].
  destruct F as [s' [-> Hd]].
  assert (I : starts_with (js "Infinity") (d :: s') = false).
  { change (js "Infinity") with (73%N :: js "nfinity").
    cbn [starts_with].
    destruct (N.eqb_spec 73 d) as [<- |]; [discriminate Hd | reflexivity]. }
  rewrite I.
  destruct ((d =? 48)%N && negb match ip' with [] => true | _ => false end);
    [discriminate |].
  destruct (strip_char 46 r1) as [r2 |].
  - destruct (span is_digit r2) as [fp r3].
    destruct fp as [| f fp']; [discriminate |].
    destruct (parse_json_exponent (r3)) as [[ex r4] |] eqn:E; [| discriminate].
    rewrite (parse_json_exponent_scan _ _ _ E). trivial.
  - destruct (parse_json_exponent r1) as [[ex r4] |] eqn:E; [| discriminate].
    rewrite (parse_json_exponent_scan _ _ _ E).
    rewrite app_nil_r. cbn [length Z.of_nat]. now rewrite Z.sub_0_r.
Qed.

Lemma parse_json_number_scan (s : jsstring) (x : number) (r : jsstring) :
  parse_json_number s = Some (x, r) -> scan_decimal s = Some (x, r).
Proof.
  unfold parse_json_number, scan_decimal, strip_sign.
  destruct (strip_char 45 s) as [t |] eqn:M.
  - apply parse_json_unsigned_scan.
  - intros H.
    destruct (strip_char 43 s) as [t |] eqn:P;
      [| now apply parse_json_unsigned_scan].
    exfalso. destruct s as [| c s']; [discriminate |].
    cbn [strip_char] in P.
    destruct (N.eqb_spec c 43); [| discriminate]. subst c.
    unfold parse_json_unsigned in H. cbn [span] in H.
    change (is_digit 43) with false in H. discriminate H.
Qed.

Lemma StringToNumber_toString (x : number) :
  json_number x = true -> StringToNumber (Number_toString x) = x.
Proof.
  intros J.
  destruct (Number_toString_parses x [] J eq_refl) as [P B].
  rewrite app_nil_r in *. apply parse_json_number_scan in P.
  destruct x as [| | negative m e]; try discriminate J.
  pose proof (Number_toString_units negative m e) as U.
  unfold StringToNumber.
  rewrite (trim_solid _ (numeral_solid _ U)).
  rewrite (non_decimal_literal_numeral _ U), P.
  now destruct (Number_toString (Finite negative m e)).
Qed.

Lemma strip_sign_prefix (negative : bool) (d : code_unit) (ds : jsstring) :
  is_digit d = true ->
  strip_sign (sign_prefix negative (d :: ds)) = (negative, d :: ds).
Proof.
  intros Hd. apply is_digit_iff in Hd.
  unfold strip_sign. destruct negative; cbn [sign_prefix].
  - now rewrite strip_char_same.
  - cbn [strip_char].
    replace (d =? 45)%N with false by (symmetry; apply N.eqb_neq; lia).
    replace (d =? 43)%N with false by (symmetry; apply N.eqb_neq; lia).
    reflexivity.
Qed.

Lemma StringToBigInt_toString (z : Z) :
  StringToBigInt (BigInt_toString z) = Some z.
Proof.
  unfold BigInt_toString.
  destruct (decimal_digits_spec (Z.abs_N z)) as [d [ds [E [A [V _]]]]].
  rewrite E.
  assert (U : forallb is_numeral_unit (sign_prefix (z <? 0)%Z (d :: ds))
              = true).
  { destruct (z <? 0)%Z; cbn [sign_prefix forallb];
      [change (is_numeral_unit 45) with true; cbn [andb] |];
      exact (digits_are_numeral_units _ A). }
  unfold StringToBigInt.
  rewrite (trim_solid _ (numeral_solid _ U)).
  rewrite (non_decimal_literal_numeral _ U).
  assert (Hd : is_digit d = true) by now inversion A.
  rewrite (strip_sign_prefix _ d ds Hd).
  apply forallb_all_digits in A. rewrite A, V.
  assert (R : signed (z <? 0)%Z (Z.abs_N z) = z).
  { unfold signed. destruct (Z.ltb_spec z 0); lia. }
  rewrite R. now destruct (z <? 0)%Z.
Qed.

Lemma digits_hold_no_point (ds : jsstring) :
  all_digits ds -> existsb (N.eqb 46) ds = false.
Proof.
  induction 1 as [| d ds Hd _ IH]; [reflexivity |].
  cbn [existsb]. rewrite IH. apply is_digit_iff in Hd.
  replace (46 =? d)%N with false by (symmetry; apply N.eqb_neq; lia).
  reflexivity.
Qed.



Lemma sign_prefix_point (negative : bool) (s : jsstring) :
  existsb (N.eqb 46) (sign_prefix negative s) = existsb (N.eqb 46) s.
Proof. now destruct negative. Qed.

Lemma sign_prefix_trim_start (negative : bool) (d : code_unit)
  (ds : jsstring) :
  is_digit d = true ->
  trim_start (sign_prefix negative (d :: ds)) = sign_prefix negative (d :: ds).
Proof.
  intros Hd. destruct negative; cbn [sign_prefix].
  - now apply trim_start_solid.
  - apply trim_start_solid.
    destruct (is_white_space d) eqn:W; [| reflexivity].
    apply is_white_space_range in W. apply is_digit_iff in Hd. lia.
Qed.

(** [parseInt] on a signed run of digits followed by something else. *)
Lemma parseInt_signed_digits (negative : bool) (ds rest : jsstring) :
  begins_with_digit ds = true ->
  all_digits ds ->
  begins_with_digit rest = false ->
  parseInt (sign_prefix negative (ds ++ rest)) 10
  = finite negative (digits_value ds) 0.
Proof.
  intros B D R. destruct ds as [| d ds']; [discriminate |].
  cbn [begins_with_digit] in B. rewrite parseInt_10_eq, <- app_comm_cons.
  rewrite (sign_prefix_trim_start negative d _ B).
  rewrite (strip_sign_prefix negative d _ B).
  now rewrite app_comm_cons, (span_digits (d :: ds') rest D R).
Qed.

(** ** Text to number *)

(** X15.  Text made of white space only, the empty text included, is
    rejected by [convertToNumber], which reads no digit in it, and is zero
    for [coerceToType(text, "number")], as it is for [Number]. *)
Theorem blank_text_to_number :
  forall s : jsstring,
    forallb is_white_space s = true ->
    convertToNumber (VString s)
    = Throw (Error (js "Cannot convert string to number."))
    /\ coerceToType (VString s) (VString (js "number"))
       = Return (VNumber pos_zero).
Proof.
  intros s B. split.
  - rewrite convertToNumber_string_eq. cbv zeta.
    assert (F : parseFloat s = NaN).
    { unfold parseFloat. now rewrite (trim_start_blank s B). }
    assert (I : parseInt s 10 = NaN).
    { rewrite parseInt_10_eq. now rewrite (trim_start_blank s B). }
    rewrite F, I. now destruct (includes s (js ".")).
  - rewrite coerceToType_number_eq.
    change (js_Number (VString s)) with (Return (A := number) (StringToNumber s)).
    unfold StringToNumber. now rewrite (trim_blank s B).
Qed.

Lemma blank_text_to_number_witness :
  convertToNumber (VString (js "   "))
  = Throw (Error (js "Cannot convert string to number."))
  /\ coerceToType (VString (js "   ")) (VString (js "number"))
     = Return (VNumber pos_zero).
Proof. apply (blank_text_to_number (js "   ")). reflexivity. Defined.
















(** X19.  A Number printed by [coerceToType(x, "string")] and read back by
    [coerceToType(text, "number")] is [x] again, for every finite Number
    but the negative zero, and for the two infinities. *)
Theorem coerceToType_number_text_round_trip :
  forall x : number,
    json_number x || is_infinite x = true ->
    (text <- coerceToType (VNumber x) (VString (js "string")) ;;
     coerceToType text (VString (js "number")))
    = Return (VNumber x).
Proof.
  intros x H. rewrite coerceToType_string_eq.
  change (js_String (VNumber x)) with (Return (A := jsstring) (Number_toString x)).
  cbn [bind]. rewrite coerceToType_number_eq.
  change (js_Number (VString (Number_toString x)))
    with (Return (A := number) (StringToNumber (Number_toString x))).
  cbn [bind].
  destruct (json_number x) eqn:J.
  - rewrite (StringToNumber_toString x J).
    destruct x; try discriminate J. reflexivity.
  - destruct x as [| negative |]; try discriminate H.
    now destruct negative.
Qed.

Lemma coerceToType_number_text_round_trip_witness :
  (text <- coerceToType (VNumber (Finite true 6022 20)) (VString (js "string")) ;;
   coerceToType text (VString (js "number")))
  = Return (VNumber (Finite true 6022 20)).
Proof.
  apply (coerceToType_number_text_round_trip (Finite true 6022 20)).
  reflexivity.
Defined.

(** X20.  A BigInt printed by [coerceToType(z, "string")] and read back by
    [coerceToType(text, "bigint")] is [z] again, whatever its size and its
    sign. *)
Theorem coerceToType_bigint_text_round_trip :
  forall z : Z,
    (text <- coerceToType (VBigInt z) (VString (js "string")) ;;
     coerceToType text (VString (js "bigint")))
    = Return (VBigInt z).
Proof.
  intros z. rewrite coerceToType_string_eq.
  change (js_String (VBigInt z)) with (Return (A := jsstring) (BigInt_toString z)).
  cbn [bind]. rewrite coerceToType_bigint_eq.
  unfold js_BigInt, ToPrimitive. cbn [bind].
  now rewrite StringToBigInt_toString.
Qed.

(** ** A Number through stringifyValue and convertToNumber *)

(** X21.  A finite Number, the negative zero apart, whose magnitude is at
    least 1e-6 and below 1e21 comes back unchanged when it is printed by
    [stringifyValue] and read by [convertToNumber]. *)
Theorem stringifyValue_convertToNumber_round_trip :
  forall (negative : bool) (m : N) (e : Z),
    json_number (Finite negative m e) = true ->
    plain_notation m e = true ->
    (text <- stringifyValue (VNumber (Finite negative m e)) ;;
     convertToNumber text)
    = Return (VNumber (Finite negative m e)).
Proof.
  intros negative m e J L.
  change (stringifyValue (VNumber (Finite negative m e)))
    with (Return (VString (Number_toString (Finite negative m e)))).
  cbn [bind]. rewrite convertToNumber_string_eq. cbv zeta.
  destruct (Number_toString_parses _ [] J eq_refl) as [P _].
  rewrite app_nil_r in P. apply parse_json_number_scan in P.
  pose proof (Number_toString_units negative m e) as U.
  pose proof (trim_start_all_solid _ (numeral_solid _ U)) as T.
  change (js ".") with [46%N]. rewrite includes_unit.
  destruct (existsb (N.eqb 46) (Number_toString (Finite negative m e))) eqn:I.
  { unfold parseFloat. now rewrite T, P. }
  clear P U T. unfold Number_toString in *. cbn [json_number] in J.
  destruct (N.eqb_spec m 0) as [-> | M].
  { destruct negative; [discriminate |].
    apply Z.eqb_eq in J. now subst e. }
  apply negb_true_iff, N.eqb_neq in J.
  rewrite sign_prefix_point in I.
  unfold plain_notation in L. cbv zeta in L. unfold decimal_text in *.
  destruct (decimal_digits_spec m) as [d [ds [E [A _]]]].
  pose proof (decimal_digits_value m) as V.
  set (D := decimal_digits m) in *.
  set (n := (e + Z.of_nat (length D))%Z) in *.
  apply andb_prop in L as [L1 L2].
  apply Z.ltb_lt in L1. apply Z.leb_le in L2.
  destruct (Z.leb_spec (Z.of_nat (length D)) n) as [K |];
    [| destruct (Z.ltb_spec 0 n)].
  - replace (n <=? 21)%Z with true in * by (symmetry; now apply Z.leb_le).
    cbn [andb] in *.
    set (padding := zeros (Z.to_nat (n - Z.of_nat (length D)))) in *.
    rewrite <- (app_nil_r (D ++ padding)).
    rewrite (parseInt_signed_digits negative (D ++ padding) []).
    + unfold padding.
      rewrite digits_value_app, digits_value_zeros, length_zeros.
      rewrite V, N.add_0_r, (finite_shift _ _ _ _ J).
      cbn [isNaN]. do 2 f_equal. f_equal. unfold n. lia.
    + rewrite E. cbn [app begins_with_digit]. now inversion A.
    + apply Forall_app. rewrite <- E in A.
      split; [exact A | apply all_digits_zeros].
    + reflexivity.
  - replace (n <=? 21)%Z with true in * by (symmetry; now apply Z.leb_le).
    cbn [andb] in *. rewrite existsb_app in I. cbn [existsb] in I.
    rewrite N.eqb_refl, orb_true_r in I. discriminate I.
  - replace (-6 <? n)%Z with true in * by (symmetry; now apply Z.ltb_lt).
    replace (n <=? 0)%Z with true in * by (symmetry; now apply Z.leb_le).
    cbn [andb existsb] in I. rewrite N.eqb_refl, orb_true_r in I.
    discriminate I.
Qed.

Lemma stringifyValue_convertToNumber_round_trip_witness :
  (text <- stringifyValue (VNumber (Finite true 1234 (-6))) ;;
   convertToNumber text)
  = Return (VNumber (Finite true 1234 (-6))).
Proof.
  apply (stringifyValue_convertToNumber_round_trip true 1234 (-6));
    reflexivity.
Defined.

Lemma decimal_digits_single (m : N) :
  (m < 10)%N -> decimal_digits m = [(48 + m)%N].
Proof.
  intros H. unfold decimal_digits. rewrite digits_aux_S.
  now replace (m <? 10)%N with true by (symmetry; now apply N.ltb_lt).
Qed.

(** X22.  A Number of one significant digit at or above 1e21, or below
    1e-6, does not come back: it is printed as its digit and an exponent,
    with no point, so [convertToNumber] reads the digit with [parseInt]
    and the exponent is lost. *)
Theorem stringifyValue_convertToNumber_exponent_lost :
  forall (negative : bool) (m : N) (e : Z),
    (1 <= m <= 9)%N ->
    (21 <= e \/ e <= -7)%Z ->
    (text <- stringifyValue (VNumber (Finite negative m e)) ;;
     convertToNumber text)
    = Return (VNumber (Finite negative m 0)).
Proof.
  intros negative m e M X.
  change (stringifyValue (VNumber (Finite negative m e)))
    with (Return (VString (Number_toString (Finite negative m e)))).
  cbn [bind]. rewrite convertToNumber_string_eq. cbv zeta.
  unfold Number_toString.
  replace (m =? 0)%N with false by (symmetry; apply N.eqb_neq; lia).
  assert (T : decimal_text m e
              = [(48 + m)%N]
                  ++ 101%N :: (if (0 <=? e + 1 - 1)%Z then 43%N else 45%N)
                           :: decimal_digits (Z.abs_N (e + 1 - 1))).
  { unfold decimal_text. rewrite (decimal_digits_single m) by lia.
    cbn [length]. change (Z.of_nat 1) with 1%Z.
    destruct (Z.leb_spec 1 (e + 1)), (Z.leb_spec (e + 1) 21),
      (Z.ltb_spec 0 (e + 1)), (Z.ltb_spec (-6) (e + 1)),
      (Z.leb_spec (e + 1) 0); cbn [andb]; try lia; reflexivity. }
  rewrite T. clear T.
  set (mark := (if (0 <=? e + 1 - 1)%Z then 43%N else 45%N)).
  set (digits := decimal_digits (Z.abs_N (e + 1 - 1))).
  assert (Hd : is_digit (48 + m) = true) by (apply is_digit_iff; lia).
  assert (I : includes (sign_prefix negative
                          ([(48 + m)%N] ++ 101%N :: mark :: digits)) (js ".")
              = false).
  { change (js ".") with [46%N].
    rewrite includes_unit, sign_prefix_point. cbn [app existsb].
    unfold digits. rewrite (digits_hold_no_point _ (decimal_digits_all _)).
    replace (46 =? 48 + m)%N with false by (symmetry; apply N.eqb_neq; lia).
    unfold mark. now destruct (0 <=? e + 1 - 1)%Z. }
  rewrite I, parseInt_signed_digits.
  - rewrite digits_value_single by lia.
    rewrite finite_canonical by lia. reflexivity.
  - exact Hd.
  - constructor; [exact Hd | constructor].
  - reflexivity.
Qed.

Lemma stringifyValue_convertToNumber_exponent_lost_witness :
  (text <- stringifyValue (VNumber (Finite false 1 21)) ;;
   convertToNumber text)
  = Return (VNumber (Finite false 1 0)).
Proof.
  apply (stringifyValue_convertToNumber_exponent_lost false 1 21); lia.
Defined.

(** ** safeJsonParse *)

Lemma JSON_parse_reads (fresh : loc) (text : jsstring) (j : json) :
  reads_as text j ->
  JSON_parse fresh (VString text) = Return (fst (build fresh j)).
Proof.
  intros [_ P]. unfold JSON_parse, parse_json_text. cbn [ToString bind].
  specialize (P (2 * length text + 2) [] ltac:(lia) eq_refl).
  rewrite app_nil_r in P. now rewrite P.
Qed.

(** X23.  Let [val] be null, a Boolean, a finite Number other than the
    negative zero, or an array or object that JSON text can carry (as in
    C4).  Then [stringifyValue(val)] is text that [safeJsonParse] decodes,
    whatever the fallback, to a value structurally equal to [val] without
    the members [JSON.stringify] leaves out: the fallback is not returned.
    A String is excluded: [stringifyValue] returns it without quotes. *)
Theorem safeJsonParse_stringifyValue_round_trip :
  forall (fresh : loc) (val : jsvalue) (fallback : option jsvalue),
    json_faithful val = true ->
    is_string (typeof val) "string" = false ->
    exists text decoded,
      stringifyValue val = Return (VString text)
      /\ safeJsonParse fresh (VString text) fallback = Return decoded
      /\ structure decoded = structure (without_members dropped_by_JSON val).
Proof.
  intros fresh val fallback F N.
  destruct (serialize_reads val F) as [text [S R]].
  exists text, (fst (build fresh (json_of val))).
  split; [| split].
  - destruct val as [| | b | x | s | z | id d | id s | id l | id ms];
      try discriminate F; try discriminate N.
    + cbn [SerializeJSONProperty] in S. now injection S as <-.
    + cbn [SerializeJSONProperty] in S. injection S as <-. now destruct b.
    + destruct x; try discriminate F.
      cbn [SerializeJSONProperty] in S. now injection S as <-.
    + rewrite stringifyValue_container by (left; reflexivity).
      unfold JSON_stringify. now rewrite S.
    + rewrite stringifyValue_container by (right; reflexivity).
      unfold JSON_stringify. now rewrite S.
  - unfold safeJsonParse. now rewrite (JSON_parse_reads fresh text _ R).
  - now apply build_json_of.
Qed.

Lemma safeJsonParse_stringifyValue_round_trip_witness :
  let val :=
    VArray 0 [VNumber (Finite false 25 (-1)); VBoolean true;
              VObject 1 [(KString (js "k"), VNull);
                         (KString (js "u"), VUndefined)]] in
  exists text decoded,
    stringifyValue val = Return (VString text)
    /\ safeJsonParse 2 (VString text) (Some (VString (js "fallback")))
       = Return decoded
    /\ structure decoded = structure (without_members dropped_by_JSON val).
Proof.
  intros val.
  apply (safeJsonParse_stringifyValue_round_trip 2 val
           (Some (VString (js "fallback")))); reflexivity.
Defined.

(** X24.  [safeJsonParse] converts its argument to text before it parses:
    a finite Number other than the negative zero, a Boolean and null come
    back as themselves, and undefined or a symbol, which are not JSON text
    or have no text at all, give the fallback. *)
Theorem safeJsonParse_of_a_primitive :
  forall (fresh : loc) (fallback : option jsvalue),
    let default :=
      match fallback with
      | None | Some VUndefined => VNull
      | Some v => v
      end in
    (forall x : number,
        json_number x = true ->
        safeJsonParse fresh (VNumber x) fallback = Return (VNumber x))
    /\ (forall b : bool,
          safeJsonParse fresh (VBoolean b) fallback = Return (VBoolean b))
    /\ safeJsonParse fresh VNull fallback = Return VNull
    /\ safeJsonParse fresh VUndefined fallback = Return default
    /\ (forall (id : loc) (description : option jsstring),
          safeJsonParse fresh (VSymbol id description) fallback
          = Return default).
Proof.
  intros fresh fallback default.
  split; [| split; [| repeat split]].
  - intros x J.
    pose proof (JSON_parse_reads fresh _ _ (reads_as_number x J)) as P.
    unfold safeJsonParse, JSON_parse in *. cbn [ToString bind] in *.
    destruct (parse_json_text (Number_toString x)); [| discriminate P].
    injection P as ->. reflexivity.
  - intros b. now destruct b.
Qed.

Lemma json_induction (P : json -> Prop) :
  P JNull -> (forall b, P (JBool b)) -> (forall x, P (JNumber x)) ->
  (forall s, P (JString s)) ->
  (forall elements, Forall P elements -> P (JArray elements)) ->
  (forall members, Forall (fun m => P (snd m)) members -> P (JObject members)) ->
  forall j, P j.
Proof.
  intros Hn Hb Hx Hs Ha Ho.
  fix IH 1. intros j. destruct j as [| b | x | s | elements | members].
  - exact Hn.
  - apply Hb.
  - apply Hx.
  - apply Hs.
  - apply Ha. induction elements as [| e l IHl]; constructor.
    + apply IH.
    + exact IHl.
  - apply Ho. induction members as [| [k x] l IHl]; constructor.
    + apply IH.
    + exact IHl.
Qed.

Lemma members_hold_no_bigint (ms : list (property_key * jsvalue)) :
  Forall (fun m => holds_bigint (snd m) = false) ms ->
  existsb (fun '(k, x) =>
             match k with
             | KString _ => holds_bigint x
             | KSymbol _ _ => false
             end) ms = false.
Proof.
  induction 1 as [| [k x] ms Hx _ IH]; [reflexivity |].
  cbn [existsb snd] in *. rewrite IH. now destruct k; [rewrite Hx |].
Qed.

Lemma define_property_no_bigint (acc : list (property_key * jsvalue))
  (k : jsstring) (v : jsvalue) :
  Forall (fun m => holds_bigint (snd m) = false) acc ->
  holds_bigint v = false ->
  Forall (fun m => holds_bigint (snd m) = false) (define_property acc k v).
Proof.
  intros A V. unfold define_property.
  destruct (existsb (fun m => is_key k (fst m)) acc).
  - induction A as [| m acc Hm _ IH]; [constructor |].
    cbn [map]. constructor; [| exact IH].
    now destruct (is_key k (fst m)).
  - induction A as [| [k' v'] acc Hm A IH]; cbn [insert_member].
    + now repeat constructor.
    + destruct (goes_before k k'); repeat (constructor; trivial).
Qed.

Lemma build_elements_no_bigint (l : list json) :
  Forall (fun j => forall n, holds_bigint (fst (build n j)) = false) l ->
  forall n, existsb holds_bigint (fst (build_elements build n l)) = false.
Proof.
  induction 1 as [| j l Hj _ IH]; intros n; [reflexivity |].
  cbn [build_elements]. specialize (Hj n).
  destruct (build n j) as [v n1]. specialize (IH n1).
  destruct (build_elements build n1 l) as [vs n2].
  cbn [fst existsb] in *. now rewrite Hj, IH.
Qed.

Lemma build_members_no_bigint (l : list (jsstring * json)) :
  Forall (fun m => forall n, holds_bigint (fst (build n (snd m))) = false) l ->
  forall n acc,
    Forall (fun m => holds_bigint (snd m) = false) acc ->
    Forall (fun m => holds_bigint (snd m) = false)
      (fst (build_members build n acc l)).
Proof.
  induction 1 as [| [k j] l Hj _ IH]; intros n acc A; [exact A |].
  cbn [build_members snd] in *. specialize (Hj n).
  destruct (build n j) as [v n1]. cbn [fst] in Hj.
  apply IH. now apply define_property_no_bigint.
Qed.

(** No value built from JSON text holds a BigInt. *)
Lemma build_no_bigint (j : json) :
  forall n, holds_bigint (fst (build n j)) = false.
Proof.
  induction j as [| b | x | s | l IH | ms IH] using json_induction;
    intros n; try reflexivity.
  - pose proof (build_elements_no_bigint l IH (S n)) as E.
    cbn [build]. destruct (build_elements build (S n) l) as [vs next].
    exact E.
  - pose proof (build_members_no_bigint ms IH (S n) [] (Forall_nil _)) as E.
    cbn [build]. destruct (build_members build (S n) [] ms) as [members next].
    cbn [fst holds_bigint] in *. now apply members_hold_no_bigint.
Qed.

Lemma stringifyValue_container_text (v : jsvalue) :
  Array_isArray v = true \/ is_plain_object v = true ->
  holds_bigint v = false ->
  exists text, stringifyValue v = Return (VString text).
Proof.
  intros C B. rewrite (stringifyValue_container v C). unfold JSON_stringify.
  pose proof (serialize_outcome v) as O. rewrite B in O.
  destruct O as [r O]. destruct (container_has_text v r C O) as [text ->].
  rewrite O. cbn [bind]. eauto.
Qed.

(** X25.  Whatever [JSON.parse] accepts, [safeJsonParse] returns, and the
    value it returns can always be handed to [stringifyValue], which
    returns a String for it and does not throw. *)
Theorem stringifyValue_after_safeJsonParse :
  forall (fresh : loc) (s : jsstring) (decoded : jsvalue),
    JSON_parse fresh (VString s) = Return decoded ->
    (forall fallback : option jsvalue,
        safeJsonParse fresh (VString s) fallback = Return decoded)
    /\ exists text : jsstring, stringifyValue decoded = Return (VString text).
Proof.
  intros fresh s decoded H. split.
  - intros fallback. unfold safeJsonParse. now rewrite H.
  - unfold JSON_parse in H. cbn [ToString bind] in H.
    destruct (parse_json_text s) as [j |]; [| discriminate].
    injection H as <-.
    pose proof (build_no_bigint j fresh) as B.
    destruct j as [| b | x | t | l | ms]; cbn [build] in *;
      try (eexists; reflexivity).
    + destruct (build_elements build (S fresh) l) as [vs next].
      apply stringifyValue_container_text; [left; reflexivity | exact B].
    + destruct (build_members build (S fresh) [] ms) as [members next].
      apply stringifyValue_container_text; [right; reflexivity | exact B].
Qed.

Lemma stringifyValue_after_safeJsonParse_witness :
  (forall fallback : option jsvalue,
      safeJsonParse 0
        (VString (js " [1, {" ++ quoted (js "a") ++ js " : null}] ")) fallback
      = Return (VArray 0 [VNumber one;
                          VObject 1 [(KString (js "a"), VNull)]]))
  /\ exists text : jsstring,
       stringifyValue (VArray 0 [VNumber one;
                                 VObject 1 [(KString (js "a"), VNull)]])
       = Return (VString text).
Proof.
  apply (stringifyValue_after_safeJsonParse 0
           (js " [1, {" ++ quoted (js "a") ++ js " : null}] ")).
  reflexivity.
Defined.

(** ** paranoidEquals *)

Lemma js_String_outcome (v : jsvalue) :
  if array_with_symbol v
  then js_String v = Throw (PlatformError TypeError)
  else exists s, js_String v = Return s.
Proof.
  pose proof (ToString_outcome v) as O.
  destruct v; try exact O. cbn [array_with_symbol js_String]. eauto.
Qed.

Lemma ToPrimitive_throws (v : jsvalue) (e : exn) :
  ToPrimitive v = Throw e ->
  e = PlatformError TypeError /\ array_with_symbol v = true.
Proof.
  pose proof (ToString_outcome v) as O.
  destruct v as [| | | | | | | | id l |]; try discriminate.
  unfold ToPrimitive. cbn [symbol_within array_with_symbol] in *.
  destruct (existsb symbol_within l).
  - rewrite O. cbn [bind]. intros H. injection H as <-. now split.
  - destruct O as [s ->]. discriminate.
Qed.

Lemma loose_equals_throws (a b : jsvalue) (e : exn) :
  loose_equals a b = Throw e ->
  e = PlatformError TypeError
  /\ array_with_symbol a || array_with_symbol b = true.
Proof.
  unfold loose_equals. cbv zeta.
  assert (Oa : array_with_symbol (loose_operand a) = array_with_symbol a)
    by now destruct a.
  assert (Ob : array_with_symbol (loose_operand b) = array_with_symbol b)
    by now destruct b.
  destruct (converts_object (loose_operand a) && is_object (loose_operand b)).
  - destruct (ToPrimitive (loose_operand b)) eqn:P; [discriminate |].
    cbn [bind]. intros H. injection H as <-.
    apply ToPrimitive_throws in P as [-> P]. rewrite Ob in P.
    split; [reflexivity |]. rewrite P. apply orb_true_r.
  - destruct (is_object (loose_operand a) && converts_object (loose_operand b));
      [| discriminate].
    destruct (ToPrimitive (loose_operand a)) eqn:P; [discriminate |].
    cbn [bind]. intros H. injection H as <-.
    apply ToPrimitive_throws in P as [-> P]. rewrite Oa in P.
    split; [reflexivity |]. now rewrite P.
Qed.

(** X26.  Let the operands be converted by the methods of the platform.
    Then [paranoidEquals(a, b)] throws exactly when an operand is an array
    that holds a symbol, directly or in an array it holds: comparing or
    printing that array is a TypeError, which nothing catches.  In every
    other case a String is returned. *)
Theorem paranoidEquals_throws :
  forall a b : jsvalue,
    default_conversions a = true ->
    default_conversions b = true ->
    throws (paranoidEquals a b) = array_with_symbol a || array_with_symbol b
    /\ (forall e, paranoidEquals a b = Throw e -> e = PlatformError TypeError)
    /\ (forall r, paranoidEquals a b = Return r -> exists text, r = VString text).
Proof.
  intros a b _ _. unfold paranoidEquals.
  pose proof (js_String_outcome a) as Oa.
  pose proof (js_String_outcome b) as Ob.
  destruct (loose_equals a b) as [loose | e] eqn:L; cbn [bind].
  - destruct (array_with_symbol a).
    { rewrite Oa. cbn [bind throws orb]. repeat split.
      - intros e H. now injection H as <-.
      - discriminate. }
    destruct Oa as [text_a ->]. cbn [bind orb].
    destruct (array_with_symbol b).
    { rewrite Ob. cbn [bind throws]. repeat split.
      - intros e H. now injection H as <-.
      - discriminate. }
    destruct Ob as [text_b ->]. cbn [bind ToString throws]. repeat split.
    + discriminate.
    + intros r H. injection H as <-. eauto.
  - apply loose_equals_throws in L as [-> L]. rewrite L.
    cbn [throws]. repeat split.
    + intros e H. now injection H as <-.
    + discriminate.
Qed.

Lemma paranoidEquals_throws_witness :
  let a := VArray 0 [VNumber one; VArray 1 [VSymbol 2 None]] in
  let b := VString (js "1,") in
  throws (paranoidEquals a b) = array_with_symbol a || array_with_symbol b
  /\ (forall e, paranoidEquals a b = Throw e -> e = PlatformError TypeError)
  /\ (forall r, paranoidEquals a b = Return r -> exists text, r = VString text).
Proof.
  intros a b. apply (paranoidEquals_throws a b); reflexivity.
Defined.

Lemma starts_with_app (p r : jsstring) : starts_with p (p ++ r) = true.
Proof.
  induction p as [| c p IH]; [reflexivity |].
  cbn [app starts_with]. now rewrite N.eqb_refl, IH.
Qed.

Lemma includes_prefix (p r : jsstring) : includes (p ++ r) p = true.
Proof.
  pose proof (starts_with_app p r) as S.
  destruct (p ++ r); cbn [includes]; now rewrite S.
Qed.

Lemma includes_app_right (p s sub : jsstring) :
  includes s sub = true -> includes (p ++ s) sub = true.
Proof.
  intros H. induction p as [| c p IH]; [exact H |].
  cbn [app includes]. rewrite IH. apply orb_true_r.
Qed.

Lemma strict_equals_loose (a b : jsvalue) :
  strict_equals a b = true -> loose_equals a b = Return true.
Proof.
  destruct a, b; try discriminate; intros H;
    try (unfold loose_equals; cbn [loose_operand converts_object is_object
                                     andb loose_equals_primitives];
         now rewrite H).
  match type of H with
  | strict_equals (VBoolean ?x) (VBoolean ?y) = true =>
      destruct x, y; try discriminate H; reflexivity
  end.
Qed.

(** Operands with the same [typeof] are compared by [==] as by [===]. *)
Lemma loose_equals_same_typeof (a b : jsvalue) :
  typeof a = typeof b -> loose_equals a b = Return (strict_equals a b).
Proof.
  destruct a, b; try discriminate; intros _; try reflexivity.
  match goal with
  | |- loose_equals (VBoolean ?x) (VBoolean ?y) = _ =>
      destruct x, y; reflexivity
  end.
Qed.

Lemma paranoidEquals_returns (a b : jsvalue) (text : jsstring) :
  paranoidEquals a b = Return (VString text) ->
  exists (loose : bool) (text_a text_b : jsstring),
    loose_equals a b = Return loose
    /\ text = comparison_report text_a (typeof a) text_b (typeof b)
                (if loose then js "true" else js "false")
                (if strict_equals a b then js "true" else js "false")
                (if loose && negb (strict_equals a b)
                 then coercion_warning else []).
Proof.
  intros H. unfold paranoidEquals in H.
  destruct (loose_equals a b) as [loose |] eqn:L; [| discriminate].
  cbn [bind] in H.
  destruct (js_String a) as [text_a |]; [| discriminate].
  destruct (js_String b) as [text_b |]; [| discriminate].
  cbn [bind ToString] in H.
  exists loose, text_a, text_b. split; [reflexivity |].
  injection H as <-. reflexivity.
Qed.

Lemma report_ends_with_warning
  (text_a type_a text_b type_b loose_text strict_text : jsstring)
  (warns : bool) :
  ends_with
    (comparison_report text_a type_a text_b type_b loose_text strict_text
       (if warns then coercion_warning else []))
    (coercion_warning ++ line_feed)
  = warns.
Proof.
  unfold ends_with, comparison_report.
  rewrite !rev_app_distr, <- !app_assoc.
  destruct warns.
  - rewrite (app_assoc (rev line_feed) (rev coercion_warning)).
    apply starts_with_app.
  - reflexivity.
Qed.

(** X27.  When [paranoidEquals(a, b)] returns, its report shows the answer
    of [==] on the line that begins with "==  :" and the answer of [===]
    on the line that begins with "=== :"; it ends with the warning about
    coercion exactly when [==] holds and [===] does not; and it never
    shows [===] holding while [==] does not. *)
Theorem paranoidEquals_report :
  forall (a b : jsvalue) (text : jsstring),
    paranoidEquals a b = Return (VString text) ->
    exists loose : bool,
      loose_equals a b = Return loose
      /\ includes text
           (js "==  : " ++ (if loose then js "true" else js "false")
            ++ line_feed) = true
      /\ includes text
           (js "=== : "
            ++ (if strict_equals a b then js "true" else js "false")
            ++ line_feed) = true
      /\ ends_with text (coercion_warning ++ line_feed)
         = loose && negb (strict_equals a b)
      /\ (strict_equals a b = true -> loose = true).
Proof.
  intros a b text H.
  destruct (paranoidEquals_returns a b text H)
    as [loose [text_a [text_b [L ->]]]].
  exists loose. split; [exact L |]. split; [| split; [| split]].
  - unfold comparison_report. do 12 apply includes_app_right.
    change (js "    ==  : ") with (js "    " ++ js "==  : ").
    rewrite <- app_assoc. apply includes_app_right.
    rewrite 2 app_assoc, <- (app_assoc (js "==  : ")).
    apply includes_prefix.
  - unfold comparison_report. do 15 apply includes_app_right.
    change (js "    === : ") with (js "    " ++ js "=== : ").
    rewrite <- app_assoc. apply includes_app_right.
    rewrite 2 app_assoc, <- (app_assoc (js "=== : ")).
    apply includes_prefix.
  - apply report_ends_with_warning.
  - intros S. apply strict_equals_loose in S. congruence.
Qed.

Lemma paranoidEquals_report_witness :
  exists text : jsstring,
    paranoidEquals (VNumber (Finite false 5 0)) (VString (js "5"))
    = Return (VString text)
    /\ exists loose : bool,
         loose_equals (VNumber (Finite false 5 0)) (VString (js "5"))
         = Return loose
         /\ includes text
              (js "==  : " ++ (if loose then js "true" else js "false")
               ++ line_feed) = true
         /\ includes text
              (js "=== : "
               ++ (if strict_equals (VNumber (Finite false 5 0))
                        (VString (js "5"))
                   then js "true" else js "false")
               ++ line_feed) = true
         /\ ends_with text (coercion_warning ++ line_feed)
            = loose && negb (strict_equals (VNumber (Finite false 5 0))
                               (VString (js "5")))
         /\ (strict_equals (VNumber (Finite false 5 0)) (VString (js "5"))
             = true -> loose = true).
Proof.
  eexists. split; [reflexivity |].
  apply (paranoidEquals_report (VNumber (Finite false 5 0))
           (VString (js "5"))).
  reflexivity.
Defined.

(** X28.  The warning of [paranoidEquals] is a matter of types.  Between
    two operands with the same [typeof] the report never ends with it.
    Between a Number (finite and not the negative zero, or infinite) and
    the text printed for that Number it always does, as it does between
    null and undefined. *)
Theorem paranoidEquals_warning_cases :
  (forall (a b : jsvalue) (text : jsstring),
      typeof a = typeof b ->
      paranoidEquals a b = Return (VString text) ->
      ends_with text (coercion_warning ++ line_feed) = false)
  /\ (forall x : number,
        json_number x || is_infinite x = true ->
        exists text : jsstring,
          paranoidEquals (VNumber x) (VString (Number_toString x))
          = Return (VString text)
          /\ ends_with text (coercion_warning ++ line_feed) = true)
  /\ (exists text : jsstring,
        paranoidEquals VNull VUndefined = Return (VString text)
        /\ ends_with text (coercion_warning ++ line_feed) = true).
Proof.
  split; [| split].
  - intros a b text T H.
    destruct (paranoidEquals_returns a b text H)
      as [loose [text_a [text_b [L ->]]]].
    rewrite (loose_equals_same_typeof a b T) in L. injection L as <-.
    rewrite report_ends_with_warning. now destruct (strict_equals a b).
  - intros x H.
    assert (L : loose_equals (VNumber x) (VString (Number_toString x))
                = Return true).
    { change (loose_equals (VNumber x) (VString (Number_toString x)))
        with (Return (strict_equals (VNumber x)
                        (VNumber (StringToNumber (Number_toString x))))).
      destruct (json_number x) eqn:J.
      - rewrite (StringToNumber_toString x J), strict_equals_number_refl.
        now destruct x.
      - destruct x as [| negative |]; try discriminate H.
        now destruct negative. }
    eexists. split.
    + unfold paranoidEquals. rewrite L. reflexivity.
    + apply (report_ends_with_warning _ _ _ _ _ _ true).
  - eexists. split; [reflexivity |].
    apply (report_ends_with_warning _ _ _ _ _ _ true).
Qed.

(** ** Conversions that go through the text of a value *)

(** X29.  An array is converted by [convertToNumber] through its text: the
    empty array, whose text is empty, gives 0, and an array of one finite
    Number (the negative zero apart) gives that Number. *)
Theorem convertToNumber_small_array :
  forall id : loc,
    convertToNumber (VArray id []) = Return (VNumber pos_zero)
    /\ (forall x : number,
          json_number x = true ->
          convertToNumber (VArray id [VNumber x]) = Return (VNumber x)).
Proof.
  intros id. split; [reflexivity |]. intros x J.
  rewrite convertToNumber_object_eq by (left; reflexivity).
  change (js_Number (VArray id [VNumber x]))
    with (Return (A := number) (StringToNumber (Number_toString x ++ []))).
  rewrite app_nil_r, (StringToNumber_toString x J). cbn [bind].
  destruct x; try discriminate J. reflexivity.
Qed.

(** X30.  Let [value] be converted by the methods of the platform.  Then
    [coerceToType(value, "string")] throws exactly when [value] is an
    array that holds a symbol; a symbol by itself is not rejected, it is
    described. *)
Theorem coerceToType_string_outcome :
  (forall value : jsvalue,
      default_conversions value = true ->
      throws (coerceToType value (VString (js "string")))
      = array_with_symbol value)
  /\ (forall (id : loc) (description : option jsstring),
        coerceToType (VSymbol id description) (VString (js "string"))
        = Return (VString (js "Symbol("
                           ++ match description with
                              | Some d => d
                              | None => []
                              end ++ js ")"))).
Proof.
  split; [| reflexivity].
  intros value _. rewrite coerceToType_string_eq.
  pose proof (js_String_outcome value) as O.
  destruct (array_with_symbol value).
  - now rewrite O.
  - now destruct O as [s ->].
Qed.

(* ================================================================== *)
(** * The scenarios of the test suite, on the model *)

Example addValues_numbers :
  addValues 0 (VNumber two) (VNumber three)
  = Return (VNumber (Finite false 5 0)).
Proof. reflexivity. Qed.

Example addValues_string_and_number :
  addValues 0 (VString (js "Age: ")) (VNumber (Finite false 3 1))
  = Return (VString (js "Age: 30")).
Proof. reflexivity. Qed.

Example addValues_booleans :
  addValues 0 (VBoolean true) (VBoolean false) = Return (VNumber one).
Proof. reflexivity. Qed.

Example addValues_string_and_array :
  addValues 1 (VString []) (VArray 0 [VNumber one; VNumber two])
  = Return (VString (js "1,2")).
Proof. reflexivity. Qed.

Example addValues_two_arrays :
  addValues 2 (VArray 0 [VNumber one; VNumber two])
    (VArray 1 [VNumber three; VNumber (Finite false 4 0)])
  = Return (VArray 2 [VNumber one; VNumber two; VNumber three;
                      VNumber (Finite false 4 0)]).
Proof. reflexivity. Qed.

Example addValues_object_and_number :
  addValues 1 (VObject 0 []) (VNumber (Finite false 5 0))
  = Throw (Error (js "Cannot add values of type " ++ quoted (js "object")
                  ++ js " and " ++ quoted (js "number") ++ js ".")).
Proof. reflexivity. Qed.

Example stringifyValue_negative_fraction :
  stringifyValue (VNumber (Finite true 314 (-2)))
  = Return (VString (js "-3.14")).
Proof. reflexivity. Qed.

Example stringifyValue_symbol :
  stringifyValue (VSymbol 0 (Some (js "test")))
  = Return (VString (js "Symbol(test)")).
Proof. reflexivity. Qed.

Example stringifyValue_null :
  stringifyValue VNull = Return (VString (js "null")).
Proof. reflexivity. Qed.

Example stringifyValue_nested :
  stringifyValue
    (VObject 0
       [(KString (js "x"),
         VArray 1 [VNumber one;
                   VObject 2 [(KString (js "y"), VString (js "z"))]]);
        (KString (js "a"), VNull)])
  = Return (VString
              (js "{" ++ quoted (js "x") ++ js ":[1,{" ++ quoted (js "y")
               ++ js ":" ++ quoted (js "z") ++ js "}]," ++ quoted (js "a")
               ++ js ":null}")).
Proof. reflexivity. Qed.

Example stringifyValue_symbol_key_omitted :
  stringifyValue
    (VObject 0 [(KString (js "a"), VNumber one);
                (KSymbol 1 (Some (js "sym")), VString (js "hidden"))])
  = Return (VString (js "{" ++ quoted (js "a") ++ js ":1}")).
Proof. reflexivity. Qed.

Example stringifyValue_BigInt_member_throws :
  stringifyValue (VArray 0 [VBigInt 1]) = Throw (PlatformError TypeError).
Proof. reflexivity. Qed.

Example convertToNumber_fraction :
  convertToNumber (VString (js "45.67"))
  = Return (VNumber (Finite false 4567 (-2))).
Proof. reflexivity. Qed.

Example convertToNumber_letters :
  convertToNumber (VString (js "abc"))
  = Throw (Error (js "Cannot convert string to number.")).
Proof. reflexivity. Qed.

Example convertToNumber_singleton_array :
  convertToNumber (VArray 0 [VNumber (Finite false 123 0)])
  = Return (VNumber (Finite false 123 0)).
Proof. reflexivity. Qed.

Example convertToNumber_pair_array :
  convertToNumber (VArray 0 [VNumber one; VNumber two])
  = Throw (Error (js "Cannot convert object to number.")).
Proof. reflexivity. Qed.

Example convertToNumber_function :
  convertToNumber (VFunction 0 (js "() => {}"))
  = Throw (Error (js "Cannot convert type " ++ quoted (js "function")
                  ++ js " to number.")).
Proof. reflexivity. Qed.

Example coerceToType_fraction_to_bigint :
  coerceToType (VString (js "123.45")) (VString (js "bigint"))
  = Throw (Error (js "Cannot coerce value to bigint: 123.45")).
Proof. reflexivity. Qed.

Example coerceToType_text_to_bigint :
  coerceToType (VString (js "123")) (VString (js "bigint"))
  = Return (VBigInt 123).
Proof. reflexivity. Qed.

Example coerceToType_null_to_undefined :
  coerceToType VNull (VString (js "undefined"))
  = Throw (Error (js "Cannot coerce value of type " ++ quoted (js "object")
                  ++ js " to undefined.")).
Proof. reflexivity. Qed.

Example coerceToType_unsupported :
  coerceToType (VNumber one) (VString (js "function"))
  = Throw (Error (js "Unsupported target type: " ++ quoted (js "function")
                  ++ js ".")).
Proof. reflexivity. Qed.

Example safeJsonParse_array :
  safeJsonParse 0 (VString (js "[1,2,3]")) None
  = Return (VArray 0 [VNumber one; VNumber two; VNumber three]).
Proof. reflexivity. Qed.

Example safeJsonParse_object :
  safeJsonParse 0
    (VString (js "{" ++ quoted (js "a") ++ js ":1," ++ quoted (js "b")
              ++ js ":2}")) None
  = Return (VObject 0 [(KString (js "a"), VNumber one);
                       (KString (js "b"), VNumber two)]).
Proof. reflexivity. Qed.

Example safeJsonParse_not_json :
  safeJsonParse 0 (VString (js "not json")) None = Return VNull.
Proof. reflexivity. Qed.

Example safeJsonParse_custom_fallback :
  safeJsonParse 1 (VString []) (Some (VObject 0 []))
  = Return (VObject 0 []).
Proof. reflexivity. Qed.

Example paranoidEquals_same_number :
  exists text : jsstring,
    paranoidEquals (VNumber (Finite false 5 0)) (VNumber (Finite false 5 0))
    = Return (VString text)
    /\ includes text (js "==  : true") = true
    /\ includes text (js "=== : true") = true
    /\ includes text coercion_warning = false.
Proof. eexists. repeat split. Qed.

Example paranoidEquals_number_and_text :
  exists text : jsstring,
    paranoidEquals (VNumber (Finite false 5 0)) (VString (js "5"))
    = Return (VString text)
    /\ includes text (js "==  : true") = true
    /\ includes text (js "=== : false") = true
    /\ includes text coercion_warning = true.
Proof. eexists. repeat split. Qed.

Example paranoidEquals_null_and_undefined :
  exists text : jsstring,
    paranoidEquals VNull VUndefined = Return (VString text)
    /\ includes text (js "==  : true") = true
    /\ includes text (js "=== : false") = true
    /\ includes text coercion_warning = true.
Proof. eexists. repeat split. Qed.

Example paranoidEquals_two_arrays :
  exists text : jsstring,
    paranoidEquals (VArray 0 [VNumber one; VNumber two])
      (VArray 1 [VNumber one; VNumber two])
    = Return (VString text)
    /\ includes text (js "==  : false") = true
    /\ includes text (js "=== : false") = true.
Proof. eexists. repeat split. Qed.

Example paranoidEquals_boolean_and_number :
  exists text : jsstring,
    paranoidEquals (VBoolean true) (VNumber one) = Return (VString text)
    /\ includes text (js "==  : true") = true
    /\ includes text (js "=== : false") = true
    /\ includes text coercion_warning = true.
Proof. eexists. repeat split. Qed.
